(** * Deployment tooling: production monitor and deployment orchestrator

    A shallow embedding of [scripts/monitoring-dashboard.js] (class
    [ProductionMonitor]) and [scripts/deploy-orchestrator.js] (class
    [DeploymentOrchestrator] and its command-line entry point), with the
    properties the specification states about them and further properties
    of the code.

    Conventions of the embedding.
    - JavaScript numbers that hold counters, list lengths and millisecond
      clock readings are integers far below 2^53 and are modelled in [Z].
      Ratios of two such numbers ([availability], the overall error rate, the
      configured thresholds) are modelled as exact rationals in [Q].
    - [this] is passed explicitly: a method that mutates the object takes the
      object state and returns the new one.
    - Everything the scripts learn from the outside world (HTTP replies, exit
      status of shell commands, the clock) is an explicit argument.
    - What the scripts do to the outside world (notifications, files written,
      shell commands, waiting, and the log lines that the properties refer to)
      is collected as a list of events in the order the calls are made; other
      console output and the orchestrator's [logs] array are left out.  File
      writes are taken to succeed.
    - An [async] method is run to completion where it is awaited; the checks
      of one monitoring round, which JavaScript interleaves at their [await]s,
      work on disjoint metrics objects and are run one after the other.
    - In [deploy-orchestrator.js] the local constant of [getServiceVersion]
      is named [package], a word that is reserved in strict code, which a
      class body is: as the file stands Node refuses to load it (a
      [SyntaxError], exit code 1, before [main] is called).  The embedding
      follows the methods as they are written, that is, the script with that
      constant renamed. *)

From Stdlib Require Import ZArith QArith List String Ascii Bool Lia DecimalString.
From Stdlib Require Import Permutation Sorted.
Import ListNotations.

Local Open Scope string_scope.
Local Open Scope list_scope.
Local Open Scope Z_scope.

Infix "+++" := String.append (right associativity, at level 60).

(** Template-literal interpolation [`${n}`] of an integer. *)
Definition string_of_Z (z : Z) : string := NilZero.string_of_int (Z.to_int z).

(** ** Arrays and insertion-ordered maps *)

Module Js.

(** [Array.prototype.push] and [Array.prototype.shift] (the shifted-out
    element is never used by the scripts). *)
Definition push {A} (l : list A) (x : A) : list A := l ++ [x].
Definition shift {A} (l : list A) : list A := tl l.

(** [arr.length] *)
Definition len {A} (l : list A) : Z := Z.of_nat (List.length l).

(** A [Map] with string keys: entries in insertion order; [set] on a key
    that is present replaces the value and keeps the entry's position. *)
Definition map (V : Type) : Type := list (string * V).

Fixpoint map_get {V} (k : string) (m : map V) : option V :=
  match m with
  | [] => None
  | (k', v) :: rest => if String.eqb k' k then Some v else map_get k rest
  end.

Fixpoint map_set {V} (k : string) (v : V) (m : map V) : map V :=
  match m with
  | [] => [(k, v)]
  | (k', v') :: rest =>
      if String.eqb k' k then (k, v) :: rest else (k', v') :: map_set k v rest
  end.

Definition map_keys {V} (m : map V) : list string := List.map fst m.
Definition map_values {V} (m : map V) : list V := List.map snd m.
Definition map_size {V} (m : map V) : Z := len m.

End Js.

(** ** The production monitor ([monitoring-dashboard.js]) *)

Module Monitor.

Inductive Status := StUnknown | StHealthy | StUnhealthy.
Inductive DeploymentHealth := DhUnknown | DhHealthy | DhDegraded | DhUnhealthy.
Inductive Severity := SevCritical | SevWarning | SevInfo.
Inductive Health := HealthHealthy | HealthDegraded | HealthCritical.

(** The per-service object stored in [this.metrics]. *)
Record ServiceMetrics := mkMetrics {
  status : Status;
  responseTime : list Z;
  availability : Q;
  errorCount : Z;
  totalRequests : Z;
  lastCheck : option Z;
  consecutiveFailures : Z;
  deploymentHealth : DeploymentHealth
}.

Definition set_status (v : Status) (m : ServiceMetrics) :=
  mkMetrics v m.(responseTime) m.(availability) m.(errorCount) m.(totalRequests)
            m.(lastCheck) m.(consecutiveFailures) m.(deploymentHealth).
Definition set_responseTime (v : list Z) (m : ServiceMetrics) :=
  mkMetrics m.(status) v m.(availability) m.(errorCount) m.(totalRequests)
            m.(lastCheck) m.(consecutiveFailures) m.(deploymentHealth).
Definition set_availability (v : Q) (m : ServiceMetrics) :=
  mkMetrics m.(status) m.(responseTime) v m.(errorCount) m.(totalRequests)
            m.(lastCheck) m.(consecutiveFailures) m.(deploymentHealth).
Definition set_errorCount (v : Z) (m : ServiceMetrics) :=
  mkMetrics m.(status) m.(responseTime) m.(availability) v m.(totalRequests)
            m.(lastCheck) m.(consecutiveFailures) m.(deploymentHealth).
Definition set_totalRequests (v : Z) (m : ServiceMetrics) :=
  mkMetrics m.(status) m.(responseTime) m.(availability) m.(errorCount) v
            m.(lastCheck) m.(consecutiveFailures) m.(deploymentHealth).
Definition set_lastCheck (v : option Z) (m : ServiceMetrics) :=
  mkMetrics m.(status) m.(responseTime) m.(availability) m.(errorCount) m.(totalRequests)
            v m.(consecutiveFailures) m.(deploymentHealth).
Definition set_consecutiveFailures (v : Z) (m : ServiceMetrics) :=
  mkMetrics m.(status) m.(responseTime) m.(availability) m.(errorCount) m.(totalRequests)
            m.(lastCheck) v m.(deploymentHealth).
Definition set_deploymentHealth (v : DeploymentHealth) (m : ServiceMetrics) :=
  mkMetrics m.(status) m.(responseTime) m.(availability) m.(errorCount) m.(totalRequests)
            m.(lastCheck) m.(consecutiveFailures) v.

Record Alert := mkAlert {
  severity : Severity;
  service : string;
  message : string;
  timestamp : Z   (* the instant that the ISO string of the alert denotes, in ms *)
}.

Record Service := mkService { name : string; url : string; type : string }.

Record AlertThresholds := mkThresholds {
  thr_responseTime : Z;
  thr_errorRate : Q;
  thr_availability : Q
}.

Record Notifications := mkNotifications { slack : bool; email : bool; webhook : bool }.

Record Config := mkConfig {
  services : list Service;
  interval : Z;
  alertThresholds : AlertThresholds;
  notifications : Notifications
}.

Definition default_config : Config :=
  mkConfig
    [ mkService "backend" "https://quest-api.railway.app" "api";
      mkService "frontend" "https://quest-frontend.netlify.app" "web" ]
    30000
    (mkThresholds 2000 0.05 0.95)
    (mkNotifications false false false).

(** What the monitor does to the outside world. *)
Inductive Event :=
| EvLogError (serviceName msg : string)   (* logError *)
| EvAlertShown (a : Alert)                (* console line of sendAlert *)
| EvSlack (a : Alert)                     (* sendSlackAlert *)
| EvWebhook (a : Alert)                   (* sendWebhookAlert *)
| EvSaveAlert (a : Alert).                (* saveAlert: the per-day alert file *)

(** The monitor object: [this.metrics], [this.alerts], and the events
    emitted so far. *)
Record State := mkState {
  metrics : Js.map ServiceMetrics;
  alerts : list Alert;
  emitted : list Event
}.

Definition initial_metrics : ServiceMetrics :=
  mkMetrics StUnknown [] 1 0 0 None 0 DhUnknown.

(** [constructor]: one fresh metrics object per configured service. *)
Definition constructor (cfg : Config) : State :=
  mkState
    (fold_left (fun m s => Js.map_set s.(name) initial_metrics m) cfg.(services) [])
    [] [].

Definition calculateAvailability (m : ServiceMetrics) : Q :=
  if m.(totalRequests) =? 0 then 1
  else
    let successfulRequests := m.(totalRequests) - m.(errorCount) in
    inject_Z successfulRequests / inject_Z m.(totalRequests).

Definition sendAlert (cfg : Config) (alert : Alert) : list Event :=
  [EvAlertShown alert]
    ++ (if cfg.(notifications).(slack) then [EvSlack alert] else [])
    ++ (if cfg.(notifications).(webhook) then [EvWebhook alert] else [])
    ++ [EvSaveAlert alert].

(** The callback of [this.alerts.some(...)] in [createAlert]. *)
Definition same_recent (now : Z) (alert existing : Alert) : bool :=
  String.eqb existing.(service) alert.(service)
  && String.eqb existing.(message) alert.(message)
  && (now - existing.(timestamp) <? 300000).

Definition isDuplicate (now : Z) (alert : Alert) (existing : list Alert) : bool :=
  existsb (same_recent now alert) existing.

(** [createAlert(alert)], called when the clock reads [now]. *)
Definition createAlert (cfg : Config) (now : Z) (alert : Alert) (st : State) : State :=
  if isDuplicate now alert st.(alerts) then st
  else
    let pushed := Js.push st.(alerts) alert in
    mkState st.(metrics)
            (if 50 <? Js.len pushed then Js.shift pushed else pushed)
            (st.(emitted) ++ sendAlert cfg alert).

Definition logError (serviceName msg : string) (st : State) : State :=
  mkState st.(metrics) st.(alerts) (st.(emitted) ++ [EvLogError serviceName msg]).

(** *** One health check of one service *)

(** Result of [await fetch(service.url, ...)]. *)
Inductive FetchResult :=
| FetchRejected (msg : string)            (* network or timeout error: [fetch] throws *)
| FetchResponse (ok : bool) (code : Z).   (* [response.ok], [response.status] *)

(** The part of the [/health] body that [checkApiHealth] reads. *)
Record Performance := mkPerformance {
  avg_response_time_ms : option Z;
  heap_used_mb : option Z                 (* [memory_usage?.heap_used_mb] *)
}.

Record HealthData := mkHealthData {
  hd_status : string;
  performance : option Performance
}.

(** Result of fetching and parsing [`${service.url}/health`]. *)
Inductive HealthFetch :=
| HealthThrows (msg : string)             (* [fetch] or [json()] throws *)
| HealthResponse (ok : bool) (code : Z) (body : HealthData).

(** The places where the monitor raises an alert. *)
Inductive Rule :=
| ConsecutiveFailures                     (* the [catch] block of [checkServiceHealth] *)
| DegradedHealth                          (* [checkApiHealth] *)
| SlowApi
| HighMemory
| SlowService                             (* [checkAlerts] *)
| HighErrorRate
| LowAvailability.

(** The two readings of the clock around one call of [createAlert]:
    [new Date()] when the caller builds the alert, then [Date.now()] in the
    duplicate test. *)
Record Readings := mkReadings { stamped : Z; tested : Z }.

(** The readings for each place. *)
Definition Clock : Type := Rule -> Readings.

(** Every reading is the same instant. *)
Definition at_instant (t : Z) : Clock := fun _ => mkReadings t t.

(** What the world answers to one call of [checkServiceHealth]: the
    replies, the readings of the clock where an alert is raised, and the
    reading [now] of [Date.now()] when [lastCheck] is set, at the end of the
    check. *)
Record CheckOutcome := mkOutcome {
  reply : FetchResult;
  elapsed : Z;                            (* [Date.now() - startTime] *)
  health_reply : HealthFetch;
  clock : Clock;
  now : Z
}.

(** The [catch] block of [checkApiHealth]. *)
Definition apiHealthFailed (svc : Service) (msg : string)
           (ms : ServiceMetrics * State) : ServiceMetrics * State :=
  (set_deploymentHealth DhUnhealthy (fst ms),
   logError svc.(name) ("Health check failed: " +++ msg) (snd ms)).

Definition checkApiHealth (cfg : Config) (svc : Service) (h : HealthFetch) (clock : Clock)
           (ms : ServiceMetrics * State) : ServiceMetrics * State :=
  match h with
  | HealthThrows msg => apiHealthFailed svc msg ms
  | HealthResponse false code _ =>
      apiHealthFailed svc ("Health endpoint returned " +++ string_of_Z code) ms
  | HealthResponse true _ healthData =>
      let '(m, st) := ms in
      let '(m, st) :=
        if String.eqb healthData.(hd_status) "healthy"
        then (set_deploymentHealth DhHealthy m, st)
        else (set_deploymentHealth DhDegraded m,
              createAlert cfg (tested (clock DegradedHealth))
                (mkAlert SevWarning svc.(name)
                   ("API reports degraded health: " +++ healthData.(hd_status))
                   (stamped (clock DegradedHealth))) st) in
      match healthData.(performance) with
      | None => (m, st)
      | Some perf =>
          let st :=
            match perf.(avg_response_time_ms) with
            | Some avg =>
                if cfg.(alertThresholds).(thr_responseTime) <? avg
                then createAlert cfg (tested (clock SlowApi))
                       (mkAlert SevWarning svc.(name)
                          ("High average response time: " +++ string_of_Z avg +++ "ms")
                          (stamped (clock SlowApi))) st
                else st
            | None => st
            end in
          let st :=
            match perf.(heap_used_mb) with
            | Some heap =>
                if 100 <? heap
                then createAlert cfg (tested (clock HighMemory))
                       (mkAlert SevWarning svc.(name)
                          ("High memory usage: " +++ string_of_Z heap +++ "MB")
                          (stamped (clock HighMemory))) st
                else st
            | None => st
            end in
          (m, st)
      end
  end.

(** The statements between [await fetch] and [if (response.ok)]. *)
Definition recordResponse (responseTime_ms : Z) (m : ServiceMetrics) : ServiceMetrics :=
  let m := set_totalRequests (m.(totalRequests) + 1) m in
  let m := set_responseTime (Js.push m.(responseTime) responseTime_ms) m in
  if 100 <? Js.len m.(responseTime)
  then set_responseTime (Js.shift m.(responseTime)) m
  else m.

(** The [catch] block of [checkServiceHealth]. *)
Definition checkFailed (cfg : Config) (svc : Service) (msg : string) (clock : Clock)
           (ms : ServiceMetrics * State) : ServiceMetrics * State :=
  let '(m, st) := ms in
  let m := set_status StUnhealthy m in
  let m := set_errorCount (m.(errorCount) + 1) m in
  let m := set_consecutiveFailures (m.(consecutiveFailures) + 1) m in
  let st := logError svc.(name) msg st in
  let st :=
    if 3 <=? m.(consecutiveFailures)
    then createAlert cfg (tested (clock ConsecutiveFailures))
           (mkAlert SevCritical svc.(name)
              ("Service has failed " +++ string_of_Z m.(consecutiveFailures)
                 +++ " consecutive health checks")
              (stamped (clock ConsecutiveFailures))) st
    else st in
  (m, st).

(** [checkServiceHealth] once [metrics] is bound to the service's object. *)
Definition checkServiceHealth_metrics (cfg : Config) (svc : Service) (o : CheckOutcome)
           (ms : ServiceMetrics * State) : ServiceMetrics * State :=
  let '(m, st) :=
    match o.(reply) with
    | FetchRejected msg => checkFailed cfg svc msg o.(clock) ms
    | FetchResponse ok code =>
        let m := recordResponse o.(elapsed) (fst ms) in
        if ok then
          let m := set_status StHealthy m in
          let m := set_consecutiveFailures 0 m in
          if String.eqb svc.(type) "api"
          then checkApiHealth cfg svc o.(health_reply) o.(clock) (m, snd ms)
          else (m, snd ms)
        else checkFailed cfg svc ("HTTP " +++ string_of_Z code) o.(clock) (m, snd ms)
    end in
  let m := set_lastCheck (Some o.(now)) m in
  let m := set_availability (calculateAvailability m) m in
  (m, st).

(** [checkServiceHealth(service)].  A service without a metrics object
    (never the case for a configured service) leaves the monitor as it is:
    the property access on [undefined] throws inside and outside the [try]. *)
Definition checkServiceHealth (cfg : Config) (svc : Service) (o : CheckOutcome)
           (st : State) : State :=
  match Js.map_get svc.(name) st.(metrics) with
  | None => st
  | Some m =>
      let '(m', st') := checkServiceHealth_metrics cfg svc o (m, st) in
      mkState (Js.map_set svc.(name) m' st'.(metrics)) st'.(alerts) st'.(emitted)
  end.

(** One round: every configured service is checked.  The checks of one
    round touch disjoint metrics objects; they are run here in the order
    of the configuration. *)
Definition runHealthChecks (cfg : Config) (world : Service -> CheckOutcome)
           (st : State) : State :=
  fold_left (fun st svc => checkServiceHealth cfg svc (world svc) st) cfg.(services) st.

(** The monitor after the given rounds, from construction. *)
Definition monitoring (cfg : Config) (rounds : list (Service -> CheckOutcome)) : State :=
  fold_left (fun st world => runHealthChecks cfg world st) rounds (constructor cfg).

(** Every metrics object of the monitor satisfies [P]. *)
Definition all_metrics (P : ServiceMetrics -> Prop) (st : State) : Prop :=
  Forall (fun kv => P (snd kv)) (metrics st).

(** *** Aggregate health *)

Definition Qltb (x y : Q) : bool := negb (Qle_bool y x).

Record OverallHealth := mkOverall {
  oh_status : Health;
  servicesOnline : Z;
  avgAvailability : option Q;             (* [None]: NaN, when there is no service *)
  oh_totalRequests : Z;
  totalErrors : Z
}.

Definition calculateOverallHealth (cfg : Config) (st : State) : OverallHealth :=
  let '(servicesOnline, totalAvailability, totalRequests, totalErrors) :=
    fold_left
      (fun '(online, avail, reqs, errs) m =>
         ((match m.(status) with StHealthy => online + 1 | _ => online end),
          (avail + m.(availability))%Q,
          reqs + m.(totalRequests),
          errs + m.(errorCount)))
      (Js.map_values st.(metrics)) (0, 0%Q, 0, 0) in
  let size := Js.map_size st.(metrics) in
  let avgAvailability :=
    if size =? 0 then None
    else Some ((totalAvailability / inject_Z size) * 100)%Q in
  let overallErrorRate :=
    if 0 <? totalRequests then (inject_Z totalErrors / inject_Z totalRequests)%Q else 0%Q in
  let status := HealthHealthy in
  let status := if servicesOnline <? size then HealthDegraded else status in
  let status :=
    if Qltb (inject_Z servicesOnline) (inject_Z size * 0.5) then HealthCritical else status in
  let status :=
    if Qltb cfg.(alertThresholds).(thr_errorRate) overallErrorRate
    then HealthDegraded else status in
  mkOverall status servicesOnline avgAvailability totalRequests totalErrors.

(** *** Vocabulary of the properties *)

(** [after] is [before] with the sample [x] pushed at the end, the oldest
    sample possibly evicted. *)
Definition sample_appended (x : Z) (before after : list Z) : Prop :=
  after = before ++ [x] \/ after = tl before ++ [x].

(** Consecutive checks of one service, on its metrics object. *)
Definition check_repeatedly (cfg : Config) (svc : Service) (outs : list CheckOutcome)
           (ms : ServiceMetrics * State) : ServiceMetrics * State :=
  fold_left (fun ms o => checkServiceHealth_metrics cfg svc o ms) outs ms.

(** The check got an HTTP response (of any status). *)
Definition answered (o : CheckOutcome) : bool :=
  match reply o with FetchResponse _ _ => true | FetchRejected _ => false end.

(** The check counts as a failure: a non-2xx response or a rejected fetch. *)
Definition failed (o : CheckOutcome) : bool :=
  match reply o with FetchResponse true _ => false | _ => true end.

(** The number of metrics objects whose status is healthy. *)
Definition is_healthy (m : ServiceMetrics) : bool :=
  match status m with StHealthy => true | _ => false end.

Definition healthy_services (st : State) : Z :=
  Js.len (filter is_healthy (Js.map_values (metrics st))).

Definition sum_over (f : ServiceMetrics -> Z) (st : State) : Z :=
  fold_right (fun m acc => f m + acc) 0 (Js.map_values (metrics st)).

(** Errors over requests of all services together; 0 before any request. *)
Definition overall_error_rate (st : State) : Q :=
  if 0 <? sum_over totalRequests st
  then (inject_Z (sum_over errorCount st) / inject_Z (sum_over totalRequests st))%Q
  else 0%Q.

(** The list holds an alert for the same service with the same message
    whose timestamp is less than five minutes before [now]. *)
Definition recent_duplicate (now : Z) (alert : Alert) (existing : list Alert) : Prop :=
  exists ex, In ex existing /\ service ex = service alert
             /\ message ex = message alert /\ now - timestamp ex < 300000.

(** Consecutive calls of [createAlert], each with the clock reading of the call. *)
Definition create_all (cfg : Config) (calls : list (Z * Alert)) (st : State) : State :=
  fold_left (fun st call => createAlert cfg (fst call) (snd call) st) calls st.

(** *** Scenarios *)

Definition frontend : Service :=
  mkService "frontend" "https://quest-frontend.netlify.app" "web".

(** A 2xx reply after 120 ms. *)
Definition reply_ok : CheckOutcome :=
  mkOutcome (FetchResponse true 200) 120 (HealthThrows "socket hang up")
            (at_instant 1000) 1000.

(** An HTTP 503 reply after 80 ms. *)
Definition reply_http_error : CheckOutcome :=
  mkOutcome (FetchResponse false 503) 80 (HealthThrows "socket hang up")
            (at_instant 2000) 2000.

(** [fetch] rejects: the request timed out. *)
Definition reply_network_error : CheckOutcome :=
  mkOutcome (FetchRejected "network timeout") 0 (HealthThrows "socket hang up")
            (at_instant 3000) 3000.

(** Every service gets the same answer in a round. *)
Definition always (o : CheckOutcome) : Service -> CheckOutcome := fun _ => o.

(** A service object whose buffer holds 100 samples: the frontend after
    101 rounds answered with [reply_ok]. *)
Definition full_buffer_metrics : ServiceMetrics :=
  mkMetrics StHealthy (repeat 120 100) (101 # 101) 0 101 (Some 1000) 0 DhUnknown.

(** The backend answers, the frontend returns HTTP 503. *)
Definition frontend_down : Service -> CheckOutcome :=
  fun svc => if String.eqb (name svc) "frontend" then reply_http_error else reply_ok.

(** Thirty good rounds, then one in which the frontend is down. *)
Definition one_of_two_healthy : State :=
  monitoring default_config (repeat (always reply_ok) 30 ++ [frontend_down]).

(** The alert of three consecutive failures of the backend, raised at [ts]. *)
Definition backend_failing (ts : Z) : Alert :=
  mkAlert SevCritical "backend" "Service has failed 3 consecutive health checks" ts.

(** A slow-response warning, raised at second [k] with [k] in its message. *)
Definition slow_response (k : Z) : Alert :=
  mkAlert SevWarning "frontend"
          ("High average response time: " +++ string_of_Z (2000 + k) +++ "ms") (1000 * k).

(** [backend_failing] at time 0, then fifty different warnings, one per
    second: 51 alerts are created within the first minute. *)
Definition busy_minute : State :=
  create_all default_config
    ((0, backend_failing 0)
       :: List.map (fun k => (1000 * Z.of_nat k, slow_response (Z.of_nat k))) (seq 1 50))
    (constructor default_config).

(** *** Response-time statistics *)

(** [Math.round(num / den)] for integers with [den > 0]: the nearest
    integer, a half rounded up. *)
Definition round_div (num den : Z) : Z := (2 * num + den) / (2 * den).

Definition calculateAverageResponseTime (m : ServiceMetrics) : Z :=
  if Js.len m.(responseTime) =? 0 then 0
  else
    let sum := fold_left (fun a b => a + b) m.(responseTime) 0 in
    round_div sum (Js.len m.(responseTime)).

(** [[...arr].sort((a, b) => a - b)]: the samples in ascending order. *)
Fixpoint insert_ascending (x : Z) (l : list Z) : list Z :=
  match l with
  | [] => [x]
  | y :: rest => if x <=? y then x :: l else y :: insert_ascending x rest
  end.

Definition sort_ascending (l : list Z) : list Z := fold_right insert_ascending [] l.

(** [Math.floor(sorted.length * 0.95)] is [19 * length / 20] rounded down:
    for the lengths a buffer of at most 100 samples can have, the double
    product has the same integer part as the exact one.  [sorted[index] || 0]
    is the sample at [index], and 0 when that sample is 0. *)
Definition calculateP95ResponseTime (m : ServiceMetrics) : Z :=
  if Js.len m.(responseTime) =? 0 then 0
  else
    let sorted := sort_ascending m.(responseTime) in
    let index := 19 * Js.len sorted / 20 in
    nth (Z.to_nat index) sorted 0.

(** *** The periodic alert rules and the monitoring loop *)

(** How JavaScript prints a number that need not be an integer:
    [x.toFixed(2)] and the interpolation [`${x}`]. *)
Record NumberFormat := mkNumberFormat {
  toFixed2 : Q -> string;
  toString : Q -> string
}.

(** The callback of [this.metrics.forEach] in [checkAlerts]. *)
Definition checkAlerts_service (fmt : NumberFormat) (cfg : Config) (clock : Clock)
           (serviceName : string) (m : ServiceMetrics) (st : State) : State :=
  let avgResponseTime := calculateAverageResponseTime m in
  let errorRate := (inject_Z m.(errorCount) / inject_Z (Z.max m.(totalRequests) 1))%Q in
  let thresholds := cfg.(alertThresholds) in
  let st :=
    if thresholds.(thr_responseTime) <? avgResponseTime
    then createAlert cfg (tested (clock SlowService))
           (mkAlert SevWarning serviceName
              ("High response time: " +++ string_of_Z avgResponseTime +++ "ms (threshold: "
                 +++ string_of_Z thresholds.(thr_responseTime) +++ "ms)")
              (stamped (clock SlowService))) st
    else st in
  let st :=
    if Qltb thresholds.(thr_errorRate) errorRate
    then createAlert cfg (tested (clock HighErrorRate))
           (mkAlert SevCritical serviceName
              ("High error rate: " +++ fmt.(toFixed2) (errorRate * 100)%Q +++ "% (threshold: "
                 +++ fmt.(toString) (thresholds.(thr_errorRate) * 100)%Q +++ "%)")
              (stamped (clock HighErrorRate))) st
    else st in
  if Qltb m.(availability) thresholds.(thr_availability)
  then createAlert cfg (tested (clock LowAvailability))
         (mkAlert SevCritical serviceName
            ("Low availability: " +++ fmt.(toFixed2) (m.(availability) * 100)%Q
               +++ "% (threshold: "
               +++ fmt.(toString) (thresholds.(thr_availability) * 100)%Q +++ "%)")
            (stamped (clock LowAvailability))) st
  else st.

(** [checkAlerts()]; [clock] gives the readings for each service name. *)
Definition checkAlerts (fmt : NumberFormat) (cfg : Config) (clock : string -> Clock)
           (st : State) : State :=
  fold_left (fun st kv => checkAlerts_service fmt cfg (clock (fst kv)) (fst kv) (snd kv) st)
            st.(metrics) st.

(** One firing of the monitoring timer of [startMonitoring]: a round of
    checks, then the alert rules ([generateReport], between them, only
    writes the report file). *)
Definition tick (fmt : NumberFormat) (cfg : Config)
           (t : (Service -> CheckOutcome) * (string -> Clock)) (st : State) : State :=
  checkAlerts fmt cfg (snd t) (runHealthChecks cfg (fst t) st).

(** [startMonitoring]: the initial round, then the timer firings, none
    starting before the one before it is done. *)
Definition startMonitoring (fmt : NumberFormat) (cfg : Config)
           (first : Service -> CheckOutcome)
           (ticks : list ((Service -> CheckOutcome) * (string -> Clock))) : State :=
  fold_left (fun st t => tick fmt cfg t st) ticks
            (runHealthChecks cfg first (constructor cfg)).

(** *** Vocabulary of the further properties *)

(** The alerts written to the per-day alert file, in order. *)
Definition saved_alerts (evs : list Event) : list Alert :=
  flat_map (fun e => match e with EvSaveAlert a => [a] | _ => [] end) evs.

(** Two alerts of the list for the same service with the same message are
    at least [gap] milliseconds apart. *)
Fixpoint spaced_by (gap : Z) (l : list Alert) : Prop :=
  match l with
  | [] => True
  | earlier :: rest =>
      (forall later, In later rest ->
         service later = service earlier -> message later = message earlier ->
         gap <= timestamp later - timestamp earlier)
      /\ spaced_by gap rest
  end.

(** At most [delta] milliseconds pass between the stamping of an alert and
    the duplicate test of [createAlert]. *)
Definition prompt (delta : Z) (r : Readings) : Prop := tested r - stamped r <= delta.

(** The readings of the clock in a round of checks, and in a firing of the
    timer, all satisfy [G]. *)
Definition round_readings (G : Readings -> Prop) (world : Service -> CheckOutcome) : Prop :=
  forall svc rule, G (clock (world svc) rule).

Definition tick_readings (G : Readings -> Prop)
           (t : (Service -> CheckOutcome) * (string -> Clock)) : Prop :=
  round_readings G (fst t) /\ forall serviceName rule, G (snd t serviceName rule).

(** [n] of the samples satisfy [p]. *)
Definition count_samples (p : Z -> bool) (l : list Z) : Z := Js.len (filter p l).

(** A format for the scenarios: the integer part only. *)
Definition integer_part : NumberFormat :=
  mkNumberFormat (fun q => string_of_Z (Qnum q / Z.pos (Qden q)))
                 (fun q => string_of_Z (Qnum q / Z.pos (Qden q))).

(** Two timer firings after the initial round: every service answers HTTP
    503, then every fetch is rejected. *)
Definition two_bad_ticks : list ((Service -> CheckOutcome) * (string -> Clock)) :=
  [ (always reply_http_error, fun _ => at_instant 30000);
    (always reply_network_error, fun _ => at_instant 60000) ].

(** The frontend's metrics object after an initial round answered with HTTP
    200 and [two_bad_ticks]. *)
Definition frontend_after_three_rounds : ServiceMetrics :=
  mkMetrics StUnhealthy [120; 80] (0 # 2) 2 2 (Some 3000) 2 DhUnknown.

(** What the deep check of an API service makes of the answer of the
    [/health] endpoint. *)
Definition deep_health_of (h : HealthFetch) : DeploymentHealth :=
  match h with
  | HealthThrows _ => DhUnhealthy
  | HealthResponse false _ _ => DhUnhealthy
  | HealthResponse true _ body =>
      if String.eqb (hd_status body) "healthy" then DhHealthy else DhDegraded
  end.

(** An API service whose base URL answers 200 while its [/health] endpoint
    answers 500, after five seconds. *)
Definition api_service : Service := mkService "backend" "https://quest-api.railway.app" "api".

Definition reply_ok_health_down : CheckOutcome :=
  mkOutcome (FetchResponse true 200) 95
            (HealthResponse false 500 (mkHealthData "" None)) (at_instant 6000) 6000.

Definition reply_ok_health_up : CheckOutcome :=
  mkOutcome (FetchResponse true 200) 95
            (HealthResponse true 200 (mkHealthData "healthy" None)) (at_instant 1000) 1000.

(** An answer that gives the monitor nothing to report: an OK response
    within the response-time threshold and, for an API service, a [/health]
    body that says "healthy" with figures, if any, within their limits. *)
Definition unremarkable (cfg : Config) (svc : Service) (o : CheckOutcome) : Prop :=
  (exists code, reply o = FetchResponse true code)
  /\ elapsed o <= thr_responseTime (alertThresholds cfg)
  /\ (type svc = "api" ->
      exists code body,
        health_reply o = HealthResponse true code body
        /\ hd_status body = "healthy"
        /\ match performance body with
           | None => True
           | Some perf =>
               match avg_response_time_ms perf with
               | Some avg => avg <= thr_responseTime (alertThresholds cfg)
               | None => True
               end
               /\ match heap_used_mb perf with
                  | Some heap => heap <= 100
                  | None => True
                  end
           end).

(** A metrics object that has seen no failure and no slow response. *)
Definition settled (cfg : Config) (m : ServiceMetrics) : Prop :=
  errorCount m = 0
  /\ consecutiveFailures m = 0
  /\ 0 <= totalRequests m
  /\ (availability m == 1)%Q
  /\ Forall (fun x => x <= thr_responseTime (alertThresholds cfg)) (responseTime m).

(** Every service answers 200 in 95 ms, the API reporting "healthy" with a
    mean response time of 40 ms and 64 MB of heap in use. *)
Definition all_well : Service -> CheckOutcome :=
  fun _ =>
    mkOutcome (FetchResponse true 200) 95
              (HealthResponse true 200
                 (mkHealthData "healthy" (Some (mkPerformance (Some 40) (Some 64)))))
              (at_instant 1000) 1000.

End Monitor.

(** ** The deployment orchestrator ([deploy-orchestrator.js]) *)

Module Orchestrator.

(** *** Configuration *)

Record ServiceConfig := mkServiceConfig {
  enabled : bool;
  healthCheck : string;
  port : option Z;
  dependencies : list string
}.

Record Deployment := mkDeployment {
  strategy : string;
  timeout : Z;
  healthCheckRetries : Z;
  healthCheckInterval : Z
}.

Record Notifications := mkNotifications { slack : bool; email : bool; webhook : bool }.

(** [cfg_services] is [Object.entries(this.config.services)]: the services
    in the order of the object's keys. *)
Record Config := mkConfig {
  cfg_services : list (string * ServiceConfig);
  deployment : Deployment;
  notifications : Notifications
}.

(** The default configuration of [loadConfig]. *)
Definition default_config : Config :=
  mkConfig
    [ ("backend", mkServiceConfig true "/health" (Some 3000) []);
      ("frontend", mkServiceConfig true "/" None ["backend"]) ]
    (mkDeployment "rolling" 300000 5 10000)
    (mkNotifications false false false).

Definition service_config (cfg : Config) (serviceName : string) : option ServiceConfig :=
  Js.map_get serviceName cfg.(cfg_services).

(** *** Deployment tracking *)

Inductive ServiceStatus := Deployed | Failed.

(** An entry of [deploymentState.services]: [{status, timestamp, version}]
    or [{status, timestamp, error}]. *)
Record ServiceRecord := mkRecord {
  status : ServiceStatus;
  timestamp : Z;
  version : option string;
  error : option string
}.

Record DeploymentState := mkDeploymentState {
  phase : string;
  currentStep : Z;
  totalSteps : Z;
  services : Js.map ServiceRecord;
  rollbackPlan : list string
}.

Definition set_phase (v : string) (d : DeploymentState) :=
  mkDeploymentState v d.(currentStep) d.(totalSteps) d.(services) d.(rollbackPlan).
Definition set_currentStep (v : Z) (d : DeploymentState) :=
  mkDeploymentState d.(phase) v d.(totalSteps) d.(services) d.(rollbackPlan).
Definition set_totalSteps (v : Z) (d : DeploymentState) :=
  mkDeploymentState d.(phase) d.(currentStep) v d.(services) d.(rollbackPlan).
Definition set_service (k : string) (r : ServiceRecord) (d : DeploymentState) :=
  mkDeploymentState d.(phase) d.(currentStep) d.(totalSteps)
                    (Js.map_set k r d.(services)) d.(rollbackPlan).

(** *** The outside world *)

(** Reply to one [fetch] of a service's health endpoint during the
    health-checks phase; [body_status] is [data.status] of the JSON body. *)
Inductive HealthReply :=
| Rejected (msg : string)                       (* [fetch] or [json()] throws *)
| Response (ok : bool) (code : Z) (body_status : string).

(** [None]: the call returns; [Some msg]: it throws [Error(msg)].
    The phases validate-environment, pre-deployment-checks and smoke-tests
    only talk to the outside world and touch no deployment state; they are
    represented by their outcome.  File writes are taken to succeed. *)
Record World := mkWorld {
  loaded_config : option Config;                (* parsed [deploy-<env>.json], if any *)
  validateEnvironment_outcome : option string;
  runPreDeploymentChecks_outcome : option string;
  runSmokeTests_outcome : option string;
  execSync_outcome : string -> option string;
  service_version : string -> string;           (* [getServiceVersion] *)
  clock : string -> Z;                          (* [Date.now()] when a service is recorded *)
  health_reply : string -> Z -> HealthReply     (* service name, attempt number *)
}.

Inductive Event :=
| EvExec (cmd : string)
| EvDeployingService (serviceName : string)     (* log line "Deploying service: ..." *)
| EvSleep (ms : Z)
| EvBlueGreenSwitch
| EvSlackNotification
| EvWebhookNotification
| EvDeploymentRecord (recorded : Js.map ServiceRecord)
| EvRollbackInitiated
| EvRollbackService (serviceName : string)
| EvFailureRecord (error_message : string) (recorded : Js.map ServiceRecord).

(** The orchestrator object.  [history] lists every value that
    [deploymentState] has taken, oldest first; [trace] the events so far. *)
Record Orch := mkOrch {
  environment : string;
  config : Config;
  deploymentState : DeploymentState;
  history : list DeploymentState;
  trace : list Event
}.

Definition update (f : DeploymentState -> DeploymentState) (o : Orch) : Orch :=
  let d := f o.(deploymentState) in
  mkOrch o.(environment) o.(config) d (o.(history) ++ [d]) o.(trace).

Definition emit (e : Event) (o : Orch) : Orch :=
  mkOrch o.(environment) o.(config) o.(deploymentState) o.(history) (o.(trace) ++ [e]).

Definition initial_state : DeploymentState :=
  mkDeploymentState "initialized" 0 0 [] [].

(** [constructor(options)]; [env] is [options.environment]. *)
Definition constructor (w : World) (env : option string) : Orch :=
  let environment :=
    match env with
    | Some e => if String.eqb e "" then "staging" else e
    | None => "staging"
    end in
  mkOrch environment
         (match w.(loaded_config) with Some c => c | None => default_config end)
         initial_state [initial_state] [].

(** A fallible method: the object after the call, and the error thrown. *)
Definition Result : Type := Orch * option string.

Definition execSync (w : World) (cmd : string) (o : Orch) : Result :=
  (emit (EvExec cmd) o, w.(execSync_outcome) cmd).

Definition is_production (o : Orch) : bool := String.eqb o.(environment) "production".

(** *** Phase 3: deploy-services *)

Definition deployBackendToProduction (w : World) (o : Orch) : Orch :=
  fst (execSync w "cd backend && railway up" o).

Definition deployFrontendToProduction (w : World) (o : Orch) : Orch :=
  fst (execSync w "cd frontend && netlify deploy --prod --dir=dist" o).

Definition deployBackend (w : World) (o : Orch) : Result :=
  match execSync w "cd backend && npm ci --production" o with
  | (o, Some msg) => (o, Some msg)
  | (o, None) =>
      let '(o, tests) := execSync w "cd backend && npm test" o in
      match tests, is_production o with
      | Some _, true => (o, Some "Backend tests failed - cannot deploy to production")
      | _, true => (deployBackendToProduction w o, None)
      | _, false => (o, None)
      end
  end.

Definition deployFrontend (w : World) (o : Orch) : Result :=
  match execSync w "cd frontend && npm ci" o with
  | (o, Some msg) => (o, Some msg)
  | (o, None) =>
      match execSync w "cd frontend && npm run build" o with
      | (o, Some msg) => (o, Some msg)
      | (o, None) =>
          if is_production o then (deployFrontendToProduction w o, None) else (o, None)
      end
  end.

Definition deployService (w : World) (serviceName : string) (o : Orch) : Result :=
  if String.eqb serviceName "backend" then deployBackend w o
  else if String.eqb serviceName "frontend" then deployFrontend w o
  else (o, Some ("Unknown service: " +++ serviceName)).

(** The [for ... of] loop of [deployServices]. *)
Fixpoint deployServices_loop (w : World) (entries : list (string * ServiceConfig))
         (o : Orch) : Result :=
  match entries with
  | [] => (o, None)
  | (serviceName, serviceConfig) :: rest =>
      if negb serviceConfig.(enabled) then deployServices_loop w rest o
      else
        let o := emit (EvDeployingService serviceName) o in
        match deployService w serviceName o with
        | (o, None) =>
            let o :=
              update (set_service serviceName
                        (mkRecord Deployed (w.(clock) serviceName)
                                  (Some (w.(service_version) serviceName)) None)) o in
            deployServices_loop w rest o
        | (o, Some msg) =>
            let o :=
              update (set_service serviceName
                        (mkRecord Failed (w.(clock) serviceName) None (Some msg))) o in
            (o, Some ("Failed to deploy " +++ serviceName +++ ": " +++ msg))
        end
  end.

Definition deployServices (w : World) (o : Orch) : Result :=
  deployServices_loop w o.(config).(cfg_services) o.

(** *** Phase 4: health-checks *)

(** [healthCheckService(serviceName, serviceConfig)] on the reply to the
    given attempt. *)
Definition healthCheckService (w : World) (serviceName : string) (attempt : Z)
  : option string :=
  match w.(health_reply) serviceName attempt with
  | Rejected msg => Some msg
  | Response false code _ => Some ("Health check returned " +++ string_of_Z code)
  | Response true _ body_status =>
      if String.eqb serviceName "backend" then
        if String.eqb body_status "healthy" then None
        else Some ("Backend reports unhealthy status: " +++ body_status)
      else None
  end.

(** The [while (attempts < maxAttempts)] loop for one service.  Each
    iteration increments [attempts], so [maxAttempts - attempts] iterations
    are the most the loop can make; [fuel] bounds them. *)
Fixpoint healthCheck_attempts (fuel : nat) (w : World) (serviceName : string)
         (attempts maxAttempts : Z) (o : Orch) : Result :=
  match fuel with
  | O => (o, None)
  | S fuel =>
      if attempts <? maxAttempts then
        let attempts := attempts + 1 in
        match healthCheckService w serviceName attempts with
        | None => (o, None)
        | Some _ =>
            if attempts =? maxAttempts then
              (o, Some ("Health check failed for " +++ serviceName +++ " after "
                          +++ string_of_Z maxAttempts +++ " attempts"))
            else
              healthCheck_attempts fuel w serviceName attempts maxAttempts
                (emit (EvSleep o.(config).(deployment).(healthCheckInterval)) o)
        end
      else (o, None)
  end.

(** The [for ... of] loop of [runHealthChecks]. *)
Fixpoint runHealthChecks_loop (w : World) (names : list string) (o : Orch) : Result :=
  match names with
  | [] => (o, None)
  | serviceName :: rest =>
      match service_config o.(config) serviceName with
      | None => (o, Some "Cannot read properties of undefined (reading 'enabled')")
      | Some serviceConfig =>
          if negb serviceConfig.(enabled) then runHealthChecks_loop w rest o
          else
            let maxAttempts := o.(config).(deployment).(healthCheckRetries) in
            match healthCheck_attempts (Z.to_nat maxAttempts) w serviceName 0 maxAttempts o with
            | (o, Some msg) => (o, Some msg)
            | (o, None) => runHealthChecks_loop w rest o
            end
      end
  end.

Definition runHealthChecks (w : World) (o : Orch) : Result :=
  runHealthChecks_loop w (Js.map_keys o.(deploymentState).(services)) o.

(** *** Phases 6 and 7 *)

Definition updateTrafficRouting (o : Orch) : Orch :=
  if String.eqb o.(config).(deployment).(strategy) "blue-green"
  then emit EvBlueGreenSwitch o
  else o.

Definition sendDeploymentNotifications (o : Orch) : Orch :=
  let o := if o.(config).(notifications).(slack) then emit EvSlackNotification o else o in
  if o.(config).(notifications).(webhook) then emit EvWebhookNotification o else o.

Definition createDeploymentRecord (o : Orch) : Orch :=
  emit (EvDeploymentRecord o.(deploymentState).(services)) o.

Definition runPostDeploymentTasks (o : Orch) : Orch :=
  createDeploymentRecord (sendDeploymentNotifications o).

(** *** Rollback *)

Definition rollbackService (serviceName : string) (o : Orch) : Orch :=
  emit (EvRollbackService serviceName) o.

(** [rollback()].  Nothing inside its [try] throws, so its [catch] is dead. *)
Definition rollback (o : Orch) : Orch :=
  let o := emit EvRollbackInitiated o in
  let reversed := rev (Js.map_keys o.(deploymentState).(services)) in
  fold_left
    (fun o serviceName =>
       match Js.map_get serviceName o.(deploymentState).(services) with
       | Some service =>
           match service.(status) with
           | Deployed => rollbackService serviceName o
           | Failed => o
           end
       | None => o
       end)
    reversed o.

Definition handleDeploymentFailure (failedStep : Z) (o : Orch) : Orch :=
  if 2 <=? failedStep then rollback o else o.

(** *** The pipeline *)

Inductive Step :=
| ValidateEnvironment
| RunPreDeploymentChecks
| DeployServices
| RunHealthChecks
| RunSmokeTests
| UpdateTrafficRouting
| RunPostDeploymentTasks.

(** The array [steps] of [deploy]. *)
Definition steps : list Step :=
  [ ValidateEnvironment; RunPreDeploymentChecks; DeployServices; RunHealthChecks;
    RunSmokeTests; UpdateTrafficRouting; RunPostDeploymentTasks ].

(** The method each step calls. *)
Definition step_method (s : Step) : string :=
  match s with
  | ValidateEnvironment => "validateEnvironment"
  | RunPreDeploymentChecks => "runPreDeploymentChecks"
  | DeployServices => "deployServices"
  | RunHealthChecks => "runHealthChecks"
  | RunSmokeTests => "runSmokeTests"
  | UpdateTrafficRouting => "updateTrafficRouting"
  | RunPostDeploymentTasks => "runPostDeploymentTasks"
  end.

Definition run_step (w : World) (s : Step) (o : Orch) : Result :=
  match s with
  | ValidateEnvironment => (o, w.(validateEnvironment_outcome))
  | RunPreDeploymentChecks => (o, w.(runPreDeploymentChecks_outcome))
  | DeployServices => deployServices w o
  | RunHealthChecks => runHealthChecks w o
  | RunSmokeTests => (o, w.(runSmokeTests_outcome))
  | UpdateTrafficRouting => (updateTrafficRouting o, None)
  | RunPostDeploymentTasks => (runPostDeploymentTasks o, None)
  end.

(** The [for] loop of [deploy], from index [i] with [todo] the steps left.
    The result carries the arguments of [handleDeploymentFailure]: the
    0-based index of the step that threw and the error's message. *)
Fixpoint deploy_loop (w : World) (i : Z) (todo : list Step) (o : Orch)
  : Orch * option (Z * string) :=
  match todo with
  | [] => (o, None)
  | s :: rest =>
      let o := update (set_currentStep (i + 1)) o in
      match run_step w s o with
      | (o, None) => deploy_loop w (i + 1) rest o
      | (o, Some msg) => (handleDeploymentFailure i o, Some (i, msg))
      end
  end.

Definition createFailureRecord (msg : string) (o : Orch) : Orch :=
  emit (EvFailureRecord msg o.(deploymentState).(services)) o.

Definition deploymentFailure (msg : string) (o : Orch) : Orch :=
  createFailureRecord msg o.

(** [deploy()]: the object afterwards, and the error it throws, if any. *)
Definition deploy (w : World) (o : Orch) : Result :=
  let o := update (set_phase "started") o in
  let o := update (set_totalSteps (Js.len steps)) o in
  match deploy_loop w 0 steps o with
  | (o, None) => (o, None)
  | (o, Some (_, msg)) => (deploymentFailure msg o, Some msg)
  end.

(** *** [loadConfig] and the constructor in detail *)

(** [deploy-<env>.json] as [loadConfig] finds it. *)
Inductive ConfigFile :=
| NoFile                                (* [fs.existsSync] answers false *)
| Parsed (c : Config)                   (* [JSON.parse] returns the configuration *)
| Unreadable (msg : string).            (* reading or parsing the file throws *)

(** [log(level, message)] on an object whose field [logs] holds [logs],
    [None] while the field is not assigned yet: the entry is pushed, or
    [this.logs.push] throws a [TypeError]. *)
Definition log (logs : option (list (string * string))) (level message : string)
  : list (string * string) + string :=
  match logs with
  | Some entries => inl (Js.push entries (level, message))
  | None => inr "Cannot read properties of undefined (reading 'push')"
  end.

(** [loadConfig()]: the configuration it returns, or the error it throws. *)
Definition loadConfig (logs : option (list (string * string))) (file : ConfigFile)
  : Config + string :=
  match file with
  | Parsed c => inl c
  | NoFile => inl default_config
  | Unreadable _ =>
      match log logs "warn" "Could not load environment config, using defaults" with
      | inl _ => inl default_config
      | inr e => inr e
      end
  end.

(** [new DeploymentOrchestrator(options)]: the constructor assigns
    [this.config = this.loadConfig()] before [this.logs = []]. *)
Definition new_orchestrator (file : ConfigFile) (env : option string) : Orch + string :=
  let environment :=
    match env with
    | Some e => if String.eqb e "" then "staging" else e
    | None => "staging"
    end in
  match loadConfig None file with
  | inr e => inr e
  | inl c => inl (mkOrch environment c initial_state [initial_state] [])
  end.

(** *** Command line *)

Definition validEnvironments : list string := ["staging"; "production"].

Definition includes (l : list string) (x : string) : bool := existsb (String.eqb x) l.

(** The environment [main] works with: [args[0] || 'staging']. *)
Definition main_environment (args : list string) : string :=
  match args with
  | a :: _ => if String.eqb a "" then "staging" else a
  | [] => "staging"
  end.

Record Exit := mkExit {
  exit_code : Z;
  ran : option Orch      (* the orchestrator after [deploy], when one was built *)
}.

(** The process [node deploy-orchestrator.js args]: [main()] with
    [args = process.argv.slice(2)], [file] being the configuration file
    that the constructor finds and [w] what the steps find.  The
    constructor is called outside the [try] of [main]: when it throws, the
    promise of [main] is rejected with nobody to handle it, and Node ends the
    process with code 1. *)
Definition cli (file : ConfigFile) (w : World) (args : list string) : Exit :=
  let environment := main_environment args in
  if negb (includes validEnvironments environment) then mkExit 1 None
  else
    match new_orchestrator file (Some environment) with
    | inr _ => mkExit 1 None
    | inl orchestrator =>
        match deploy w orchestrator with
        | (o, None) => mkExit 0 (Some o)
        | (o, Some _) => mkExit 1 (Some o)
        end
    end.

(** The configuration file of a world in which it is absent or parses. *)
Definition config_file (w : World) : ConfigFile :=
  match w.(loaded_config) with Some c => Parsed c | None => NoFile end.

(** [main()] in a world whose configuration file is absent or parses: the
    constructor returns. *)
Definition main (w : World) (args : list string) : Exit := cli (config_file w) w args.

(** *** Vocabulary of the properties *)

(** The fields of [deploymentState] that track progress. *)
Definition header (d : DeploymentState) : string * Z * Z :=
  (phase d, currentStep d, totalSteps d).

(** Events that the seven steps themselves emit (the others come from
    failure handling). *)
Definition step_event (e : Event) : bool :=
  match e with
  | EvRollbackInitiated | EvRollbackService _ | EvFailureRecord _ _ => false
  | _ => true
  end.

(** [o'] is [o] after some step activity: same environment and
    configuration, same progress fields now and in every state passed
    through, and only step events emitted. *)
Definition Frame (o o' : Orch) : Prop :=
  environment o' = environment o
  /\ config o' = config o
  /\ header (deploymentState o') = header (deploymentState o)
  /\ (exists added,
        history o' = history o ++ added
        /\ Forall (fun d => header d = header (deploymentState o)) added)
  /\ (exists evs, trace o' = trace o ++ evs /\ forallb step_event evs = true).

(** The services for which [rollbackService] was called, in call order. *)
Definition rollback_calls (t : list Event) : list string :=
  flat_map (fun e => match e with EvRollbackService n => [n] | _ => [] end) t.

(** The services whose deployment was started, in order. *)
Definition deploy_calls (t : list Event) : list string :=
  flat_map (fun e => match e with EvDeployingService n => [n] | _ => [] end) t.

Definition is_deployed (r : ServiceRecord) : bool :=
  match status r with Deployed => true | Failed => false end.

(** The recorded services whose status is [deployed], in map order. *)
Definition deployed_names (m : Js.map ServiceRecord) : list string :=
  List.map fst (filter (fun kv => is_deployed (snd kv)) m).

Definition rollback_invoked (o : Orch) : Prop := In EvRollbackInitiated (trace o).

(** The orchestrator on entry to the [for] loop of [deploy]. *)
Definition started (o : Orch) : Orch :=
  update (set_totalSteps (Js.len steps)) (update (set_phase "started") o).

(** Some attempt of the first [maxAttempts] succeeds / every one fails. *)
Definition passes (w : World) (serviceName : string) (maxAttempts : Z) : Prop :=
  exists k, 1 <= k <= maxAttempts /\ healthCheckService w serviceName k = None.

Definition exhausts (w : World) (serviceName : string) (maxAttempts : Z) : Prop :=
  forall k, 1 <= k <= maxAttempts -> healthCheckService w serviceName k <> None.

(** The map records service [n] with status [deployed]. *)
Definition recorded_deployed (m : Js.map ServiceRecord) (n : string) : bool :=
  match Js.map_get n m with Some r => is_deployed r | None => false end.

(** What [deploymentState] looks like at any time of a run. *)
Definition well_tracked (d : DeploymentState) : Prop :=
  0 <= currentStep d <= totalSteps d
  /\ (totalSteps d = 0 \/ totalSteps d = 7)
  /\ (phase d = "initialized" \/ phase d = "started").

(** [o'] records the same services as [o] and has started no deployment
    since. *)
Definition Quiet (o o' : Orch) : Prop :=
  services (deploymentState o') = services (deploymentState o)
  /\ exists evs, trace o' = trace o ++ evs /\ deploy_calls evs = [].

(** The values [lo <= x1 <= x2 <= ...] never decrease. *)
Fixpoint nondecreasing_from (lo : Z) (l : list Z) : Prop :=
  match l with
  | [] => True
  | x :: rest => lo <= x /\ nondecreasing_from x rest
  end.

(** *** Scenarios *)

(** Every command, check and request succeeds. *)
Definition calm : World :=
  mkWorld None None None None (fun _ => None) (fun _ => "1.0.0")
          (fun _ => 1700000000000) (fun _ _ => Response true 200 "healthy").

(** As [calm], with [deploy-<env>.json] setting 3 health-check attempts and
    no delay, and a frontend that answers HTTP 503 to every health check. *)
Definition frontend_unhealthy : World :=
  mkWorld
    (Some (mkConfig (cfg_services default_config)
                    (mkDeployment "rolling" 300000 3 0)
                    (mkNotifications false false false)))
    None None None (fun _ => None) (fun _ => "1.0.0") (fun _ => 1700000000000)
    (fun serviceName _ =>
       if String.eqb serviceName "frontend" then Response false 503 ""
       else Response true 200 "healthy").

(** As [calm], but [npm run build] of the frontend fails. *)
Definition frontend_build_fails : World :=
  mkWorld None None None None
          (fun cmd => if String.eqb cmd "cd frontend && npm run build"
                      then Some "Command failed: cd frontend && npm run build" else None)
          (fun _ => "1.0.0") (fun _ => 1700000000000)
          (fun _ _ => Response true 200 "healthy").

(** As [calm], but a required tool is missing. *)
Definition tool_missing : World :=
  mkWorld None (Some "Required tool 'git' is not available") None None
          (fun _ => None) (fun _ => "1.0.0") (fun _ => 1700000000000)
          (fun _ _ => Response true 200 "healthy").

(** *** Phases 1, 2 and 5 in detail *)

(** What these phases do to the outside world, in order. *)
Inductive Probe :=
| PrExec (cmd : string)                 (* [execSync(cmd)] *)
| PrExists (path : string)              (* [fs.existsSync(path)] *)
| PrRead (path : string)                (* [fs.readFileSync(path)] *)
| PrSpawn (script : string)             (* [spawn('node', [script])] *)
| PrWait (ms : Z)
| PrFetch (url : string)
| PrKill.                               (* [serverProcess.kill()] *)

(** The answer to one [fetch]. *)
Inductive Reply :=
| Rejects (msg : string)
| Responds (ok : bool) (code : Z).

(** The outcome of [Promise.all] over several [fetch]es: rejected with the
    error of the first rejection, or the [ok] flags of the responses. *)
Inductive AllReplies :=
| AllRejected (msg : string)
| AllResolved (oks : list bool).

(** A [package.json] as [analyzeDependencies] reads it:
    [JSON.parse(fs.readFileSync(path))] throws, or it returns an object
    [pkg], of which the code uses [Object.keys(pkg.dependencies || {})]. *)
Inductive PackageFile :=
| Unparsable (msg : string)
| Dependencies (names : list string).

(** What the phases find outside. *)
Record Site := mkSite {
  run_command : string -> option string;        (* [execSync]: [Some msg] when it throws *)
  existsSync : string -> bool;
  read_package : string -> PackageFile;
  fetch : string -> Reply;
  fetch_all : string -> AllReplies
}.

(** The probes made, and the error thrown if any. *)
Definition Checked : Type := list Probe * option string.

(** [a] and then, when [a] did not throw, [b]. *)
Definition and_then (a b : Checked) : Checked :=
  match a with
  | (evs, Some e) => (evs, Some e)
  | (evs, None) => (evs ++ fst b, snd b)
  end.

Definition requiredTools : list string := ["node"; "npm"; "git"].

Definition requiredFiles : list string :=
  ["package.json"; "backend/package.json"; "frontend/package.json"].

Fixpoint check_tools (s : Site) (tools : list string) : Checked :=
  match tools with
  | [] => ([], None)
  | tool :: rest =>
      match s.(run_command) (tool +++ " --version") with
      | Some _ =>
          ([PrExec (tool +++ " --version")],
           Some ("Required tool '" +++ tool +++ "' is not available"))
      | None => and_then ([PrExec (tool +++ " --version")], None) (check_tools s rest)
      end
  end.

Fixpoint check_files (s : Site) (files : list string) : Checked :=
  match files with
  | [] => ([], None)
  | file :: rest =>
      if s.(existsSync) file
      then and_then ([PrExists file], None) (check_files s rest)
      else ([PrExists file], Some ("Required file '" +++ file +++ "' not found"))
  end.

(** [validateEnvironment()]; what [git status] answers only changes the
    log. *)
Definition validateEnvironment (s : Site) : Checked :=
  and_then (check_tools s requiredTools)
    (and_then (check_files s requiredFiles)
       ([PrExec "git status --porcelain"], None)).

Definition runSecurityAudit (s : Site) (production : bool) : Checked :=
  let refusal :=
    if production
    then Some "Security vulnerabilities found - cannot deploy to production"
    else None in
  match s.(run_command) "cd backend && npm audit --audit-level=high" with
  | Some _ => ([PrExec "cd backend && npm audit --audit-level=high"], refusal)
  | None =>
      ([PrExec "cd backend && npm audit --audit-level=high";
        PrExec "cd frontend && npm audit --audit-level=high"],
       match s.(run_command) "cd frontend && npm audit --audit-level=high" with
       | Some _ => refusal
       | None => None
       end)
  end.

Definition problematicPackages : list string := ["left-pad"; "event-stream"].

(** The [for] loop over [problematicPackages]. *)
Fixpoint first_problematic (allDeps packages : list string) : option string :=
  match packages with
  | [] => None
  | pkg :: rest =>
      if includes allDeps pkg then Some ("Problematic package detected: " +++ pkg)
      else first_problematic allDeps rest
  end.

Definition analyzeDependencies (s : Site) : Checked :=
  match s.(read_package) "backend/package.json" with
  | Unparsable msg => ([PrRead "backend/package.json"], Some msg)
  | Dependencies backend =>
      match s.(read_package) "frontend/package.json" with
      | Unparsable msg =>
          ([PrRead "backend/package.json"; PrRead "frontend/package.json"], Some msg)
      | Dependencies frontend =>
          ([PrRead "backend/package.json"; PrRead "frontend/package.json"],
           first_problematic (backend ++ frontend) problematicPackages)
      end
  end.

(** The body of the [try] of [runPerformanceTests]; a slow response only
    changes the log. *)
Definition performance_requests (s : Site) : Checked :=
  match s.(fetch) "http://localhost:3001/health" with
  | Rejects msg => ([PrFetch "http://localhost:3001/health"], Some msg)
  | Responds false _ => ([PrFetch "http://localhost:3001/health"], Some "Health check failed")
  | Responds true _ =>
      (PrFetch "http://localhost:3001/health"
         :: repeat (PrFetch "http://localhost:3001/api/quests?api_key=demo_key_12345") 10,
       match s.(fetch_all) "http://localhost:3001/api/quests?api_key=demo_key_12345" with
       | AllRejected msg => Some msg
       | AllResolved oks =>
           if forallb (fun ok => ok) oks then None
           else Some "Concurrent request test failed"
       end)
  end.

(** [runPerformanceTests()]: the server is started, the requests are made
    after 3 seconds, and [finally] the server is killed. *)
Definition runPerformanceTests (s : Site) : Checked :=
  (PrSpawn "backend/server.js" :: PrWait 3000 :: fst (performance_requests s) ++ [PrKill],
   snd (performance_requests s)).

(** [runDatabaseMigrations()] only writes to the log. *)
Definition runDatabaseMigrations : Checked := ([], None).

Definition runPreDeploymentChecks (s : Site) (production : bool) : Checked :=
  and_then (runSecurityAudit s production)
    (and_then (analyzeDependencies s)
       (and_then (runPerformanceTests s) runDatabaseMigrations)).

(** The table [urls] of [getServiceUrl]. *)
Definition hosted_url (env serviceName : string) : option string :=
  if String.eqb env "staging" then
    if String.eqb serviceName "backend" then Some "https://quest-api-staging.railway.app"
    else if String.eqb serviceName "frontend"
         then Some "https://quest-frontend-staging.netlify.app"
         else None
  else if String.eqb env "production" then
    if String.eqb serviceName "backend" then Some "https://quest-api.railway.app"
    else if String.eqb serviceName "frontend" then Some "https://quest-frontend.netlify.app"
    else None
  else None.

(** [getServiceUrl(serviceName)] for the service names the program uses,
    "backend" and "frontend": the URL, or the [TypeError] of
    [this.config.services[serviceName].port]. *)
Definition getServiceUrl (o : Orch) (serviceName : string) : string + string :=
  match hosted_url o.(environment) serviceName with
  | Some url => inl url
  | None =>
      match service_config o.(config) serviceName with
      | None => inr "Cannot read properties of undefined (reading 'port')"
      | Some serviceConfig =>
          inl ("http://localhost:"
                 +++ string_of_Z (match serviceConfig.(port) with
                                  | Some p => if p =? 0 then 3000 else p
                                  | None => 3000
                                  end))
      end
  end.

(** The [for] loop over [criticalEndpoints]. *)
Fixpoint smoke_endpoints (s : Site) (endpoints : list string) : Checked :=
  match endpoints with
  | [] => ([], None)
  | endpoint :: rest =>
      match s.(fetch) endpoint with
      | Rejects msg =>
          ([PrFetch endpoint], Some ("Smoke test failed for " +++ endpoint +++ ": " +++ msg))
      | Responds false code =>
          ([PrFetch endpoint],
           Some ("Smoke test failed for " +++ endpoint +++ ": "
                   +++ "Endpoint " +++ endpoint +++ " returned " +++ string_of_Z code))
      | Responds true _ => and_then ([PrFetch endpoint], None) (smoke_endpoints s rest)
      end
  end.

Definition smoke_frontend (s : Site) (frontendUrl : string) : Checked :=
  ([PrFetch frontendUrl],
   match s.(fetch) frontendUrl with
   | Rejects msg => Some ("Frontend smoke test failed: " +++ msg)
   | Responds false code =>
       Some ("Frontend smoke test failed: " +++ "Frontend returned " +++ string_of_Z code)
   | Responds true _ => None
   end).

Definition criticalEndpoints (backendUrl : string) : list string :=
  [ backendUrl +++ "/api/status"; backendUrl +++ "/api/quests?api_key=demo_key_12345" ].

Definition runSmokeTests (s : Site) (o : Orch) : Checked :=
  match getServiceUrl o "backend" with
  | inr e => ([], Some e)
  | inl backendUrl =>
      match getServiceUrl o "frontend" with
      | inr e => ([], Some e)
      | inl frontendUrl =>
          and_then (smoke_endpoints s (criticalEndpoints backendUrl))
                   (smoke_frontend s frontendUrl)
      end
  end.

(** The world in which the three phases answer as they do at site [s], for
    a run in the environment given by [env]. *)
Definition observed (s : Site) (env : option string) (w : World) : World :=
  let o := constructor w env in
  mkWorld w.(loaded_config)
          (snd (validateEnvironment s))
          (snd (runPreDeploymentChecks s (is_production o)))
          (snd (runSmokeTests s o))
          w.(execSync_outcome) w.(service_version) w.(clock) w.(health_reply).

(** *** Vocabulary of the further properties *)

(** The commands that build and test the two services, and the commands
    that publish them. *)
Definition build_commands : list string :=
  [ "cd backend && npm ci --production"; "cd backend && npm test";
    "cd frontend && npm ci"; "cd frontend && npm run build" ].

Definition publish_commands : list string :=
  [ "cd backend && railway up"; "cd frontend && netlify deploy --prod --dir=dist" ].

(** A command that the deploy phase may run in environment [env]. *)
Definition allowed_command (env cmd : string) : bool :=
  includes build_commands cmd
  || (String.eqb env "production" && includes publish_commands cmd).

(** The commands whose failure makes [deployService] throw in environment
    [env]. *)
Definition decisive_command (env cmd : string) : bool :=
  includes [ "cd backend && npm ci --production"; "cd frontend && npm ci";
             "cd frontend && npm run build" ] cmd
  || (String.eqb env "production" && String.eqb cmd "cd backend && npm test").

Definition is_exec (e : Event) : bool :=
  match e with EvExec _ => true | _ => false end.

(** The two kinds of record that a run writes to [deployments/]. *)
Definition is_record (e : Event) : bool :=
  match e with EvDeploymentRecord _ | EvFailureRecord _ _ => true | _ => false end.

(** The names of the enabled entries, in order. *)
Definition enabled_names (entries : list (string * ServiceConfig)) : list string :=
  List.map fst (filter (fun kv => enabled (snd kv)) entries).

(** The entries that [deployServices] sets. *)
Definition deployed_record (w : World) (serviceName : string) : ServiceRecord :=
  mkRecord Deployed (w.(clock) serviceName) (Some (w.(service_version) serviceName)) None.

Definition failed_record (w : World) (serviceName msg : string) : ServiceRecord :=
  mkRecord Failed (w.(clock) serviceName) None (Some msg).

(** [o'] is [o] with the same environment and configuration, after events
    that all satisfy [ok]. *)
Definition Emits (ok : Event -> bool) (o o' : Orch) : Prop :=
  environment o' = environment o
  /\ config o' = config o
  /\ exists evs, trace o' = trace o ++ evs /\ forallb ok evs = true.

(** [o] after [n] waits of [healthCheckInterval] milliseconds. *)
Definition waited (n : nat) (o : Orch) : Orch :=
  mkOrch o.(environment) o.(config) o.(deploymentState) o.(history)
         (o.(trace) ++ repeat (EvSleep o.(config).(deployment).(healthCheckInterval)) n).

(** The two worlds differ at most in the outcome of the commands of the
    deploy phase. *)
Definition same_apart_from_commands (w1 w2 : World) : Prop :=
  loaded_config w1 = loaded_config w2
  /\ validateEnvironment_outcome w1 = validateEnvironment_outcome w2
  /\ runPreDeploymentChecks_outcome w1 = runPreDeploymentChecks_outcome w2
  /\ runSmokeTests_outcome w1 = runSmokeTests_outcome w2
  /\ (forall n, service_version w1 n = service_version w2 n)
  /\ (forall n, clock w1 n = clock w2 n)
  /\ (forall n k, health_reply w1 n k = health_reply w2 n k).

(** The events of [sendDeploymentNotifications]. *)
Definition notification_events (cfg : Config) : list Event :=
  (if cfg.(notifications).(slack) then [EvSlackNotification] else [])
  ++ (if cfg.(notifications).(webhook) then [EvWebhookNotification] else []).

(** The events of [handleDeploymentFailure] for the step of 0-based index
    [j], with [m] the services recorded. *)
Definition rollback_events (j : Z) (m : Js.map ServiceRecord) : list Event :=
  if 2 <=? j
  then EvRollbackInitiated
         :: List.map EvRollbackService (filter (recorded_deployed m) (rev (Js.map_keys m)))
  else [].

(** The orchestrator when a run calls [deployServices]: the third step. *)
Definition at_deploy_phase (o : Orch) : Orch :=
  update (set_currentStep 3) (update (set_currentStep 2) (update (set_currentStep 1)
    (started o))).

(** The URL answers a request with an OK status. *)
Definition answers_ok (s : Site) (url : string) : bool :=
  match s.(fetch) url with Responds true _ => true | _ => false end.

(** The requests made when the URLs are requested in order up to the first
    one that does not answer with an OK status. *)
Fixpoint until_first_failure (s : Site) (urls : list string) : list string :=
  match urls with
  | [] => []
  | url :: rest => if answers_ok s url then url :: until_first_failure s rest else [url]
  end.

(** The message of the error raised for a request that did not answer with
    an OK status: that of the rejection, or the one naming the status. *)
Definition refusal (s : Site) (subject url : string) : string :=
  match s.(fetch) url with
  | Rejects msg => msg
  | Responds _ code => subject +++ " returned " +++ string_of_Z code
  end.

(** The steps before the post-deployment tasks. *)
Definition first_six : list Step :=
  [ ValidateEnvironment; RunPreDeploymentChecks; DeployServices; RunHealthChecks;
    RunSmokeTests; UpdateTrafficRouting ].

Definition is_spawn (p : Probe) : bool := match p with PrSpawn _ => true | _ => false end.
Definition is_kill (p : Probe) : bool := match p with PrKill => true | _ => false end.

(** *** Further scenarios *)

(** As [calm], but both publish commands fail. *)
Definition publish_fails : World :=
  mkWorld None None None None
          (fun cmd => if includes publish_commands cmd
                      then Some ("Command failed: " +++ cmd) else None)
          (fun _ => "1.0.0") (fun _ => 1700000000000)
          (fun _ _ => Response true 200 "healthy").

(** As [calm], but the backend refuses the first two health checks. *)
Definition backend_recovers : World :=
  mkWorld None None None None (fun _ => None) (fun _ => "1.0.0")
          (fun _ => 1700000000000)
          (fun serviceName attempt =>
             if String.eqb serviceName "backend" && (attempt <? 3)
             then Rejected "connect ECONNREFUSED"
             else Response true 200 "healthy").

(** [deploy-<env>.json] lists a third service between the two known ones. *)
Definition with_database : World :=
  mkWorld
    (Some (mkConfig
             [ ("backend", mkServiceConfig true "/health" (Some 3000) []);
               ("database", mkServiceConfig true "/ping" (Some 5432) []);
               ("frontend", mkServiceConfig true "/" None ["backend"]) ]
             (mkDeployment "rolling" 300000 5 10000)
             (mkNotifications false false false)))
    None None None (fun _ => None) (fun _ => "1.0.0") (fun _ => 1700000000000)
    (fun _ _ => Response true 200 "healthy").

(** [deploy-<env>.json] sets [healthCheckRetries] to 0 and no service
    answers. *)
Definition unreachable_without_retries : World :=
  mkWorld
    (Some (mkConfig (cfg_services default_config)
                    (mkDeployment "rolling" 300000 0 10000)
                    (mkNotifications true false true)))
    None None None (fun _ => None) (fun _ => "1.0.0") (fun _ => 1700000000000)
    (fun _ _ => Rejected "connect ECONNREFUSED").


(** Everything is in place at the site and every request succeeds. *)
Definition sound_site : Site :=
  mkSite (fun _ => None) (fun _ => true)
         (fun path => if String.eqb path "backend/package.json"
                      then Dependencies ["express"; "cors"]
                      else Dependencies ["react"])
         (fun _ => Responds true 200)
         (fun _ => AllResolved (repeat true 10)).

(** As [sound_site], but the frontend depends on [event-stream] and both
    audits report vulnerabilities. *)
Definition tainted_site : Site :=
  mkSite (fun cmd => if String.eqb cmd "cd backend && npm audit --audit-level=high"
                     then Some "Command failed: npm audit" else None)
         (fun _ => true)
         (fun path => if String.eqb path "backend/package.json"
                      then Dependencies ["express"; "cors"]
                      else Dependencies ["react"; "event-stream"])
         (fun _ => Responds true 200)
         (fun _ => AllResolved (repeat true 10)).

(** As [sound_site], but [git] is not installed and the API answers 500 to
    one of the smoke-test requests. *)
Definition rough_site : Site :=
  mkSite (fun cmd => if String.eqb cmd "git --version"
                     then Some "git: command not found"
                     else if String.eqb cmd "git status --porcelain"
                          then Some "git: command not found" else None)
         (fun _ => true)
         (fun _ => Dependencies [])
         (fun url => if String.eqb url "https://quest-api-staging.railway.app/api/quests?api_key=demo_key_12345"
                     then Responds false 500 else Responds true 200)
         (fun _ => AllResolved (repeat true 10)).

End Orchestrator.

(** * Properties of the production monitor *)

Module MonitorProofs.
Import Monitor.

(** ** Insertion-ordered maps *)

Lemma map_get_Forall {V} (P : V -> Prop) (k : string) (m : Js.map V) (v : V) :
  Forall (fun kv => P (snd kv)) m -> Js.map_get k m = Some v -> P v.
Proof.
  induction m as [|[k' v'] rest IH]; simpl; intros Hall Hget.
  - discriminate.
  - inversion Hall as [|? ? Hhd Htl]; subst.
    destruct (String.eqb k' k).
    + injection Hget as <-. exact Hhd.
    + auto.
Qed.

Lemma map_set_Forall {V} (P : V -> Prop) (k : string) (v : V) (m : Js.map V) :
  Forall (fun kv => P (snd kv)) m -> P v ->
  Forall (fun kv => P (snd kv)) (Js.map_set k v m).
Proof.
  induction m as [|[k' v'] rest IH]; simpl; intros Hall Hv.
  - constructor; [exact Hv | constructor].
  - inversion Hall as [|? ? Hhd Htl]; subst.
    destruct (String.eqb k' k); constructor; auto.
Qed.

(** ** What a check leaves alone *)

Lemma createAlert_metrics cfg now a st :
  metrics (createAlert cfg now a st) = metrics st.
Proof. unfold createAlert. destruct (isDuplicate now a (alerts st)); reflexivity. Qed.

(** [checkApiHealth] changes nothing of the metrics object but
    [deploymentHealth], and leaves [this.metrics] alone. *)
Lemma checkApiHealth_frame cfg svc h now m st :
  let r := checkApiHealth cfg svc h now (m, st) in
  (exists d, fst r = set_deploymentHealth d m) /\ metrics (snd r) = metrics st.
Proof.
  unfold checkApiHealth, apiHealthFailed.
  destruct h as [msg | [|] code body]; simpl; try (split; [eexists; reflexivity | reflexivity]).
  destruct (String.eqb (hd_status body) "healthy");
    destruct (performance body) as [perf|]; simpl;
    try destruct (avg_response_time_ms perf) as [avg|];
    try destruct (heap_used_mb perf) as [heap|];
    repeat match goal with |- context [if ?c then _ else _] => destruct c end;
    (split; [eexists; reflexivity | rewrite ?createAlert_metrics; reflexivity]).
Qed.

(** The [catch] block of [checkServiceHealth], field by field. *)
Lemma checkFailed_frame cfg svc msg now m st :
  let r := checkFailed cfg svc msg now (m, st) in
  fst r = set_consecutiveFailures (consecutiveFailures m + 1)
            (set_errorCount (errorCount m + 1) (set_status StUnhealthy m))
  /\ metrics (snd r) = metrics st.
Proof.
  unfold checkFailed; simpl.
  split; [reflexivity|].
  destruct (3 <=? consecutiveFailures m + 1); rewrite ?createAlert_metrics; reflexivity.
Qed.

(** The metrics object after a check, by kind of reply. *)
Lemma check_metrics_shape cfg svc o m st :
  let r := checkServiceHealth_metrics cfg svc o (m, st) in
  metrics (snd r) = metrics st /\
  exists core,
    fst r = set_availability (calculateAvailability (set_lastCheck (Some (now o)) core))
              (set_lastCheck (Some (now o)) core)
    /\ match reply o with
       | FetchRejected _ =>
           core = set_consecutiveFailures (consecutiveFailures m + 1)
                    (set_errorCount (errorCount m + 1) (set_status StUnhealthy m))
       | FetchResponse true _ =>
           exists d,
             (core = set_consecutiveFailures 0 (set_status StHealthy (recordResponse (elapsed o) m))
              \/ core = set_deploymentHealth d
                          (set_consecutiveFailures 0
                             (set_status StHealthy (recordResponse (elapsed o) m))))
       | FetchResponse false _ =>
           let m1 := recordResponse (elapsed o) m in
           core = set_consecutiveFailures (consecutiveFailures m1 + 1)
                    (set_errorCount (errorCount m1 + 1) (set_status StUnhealthy m1))
       end.
Proof.
  unfold checkServiceHealth_metrics.
  destruct (reply o) as [msg | [|] code]; cbn [fst snd].
  - pose proof (checkFailed_frame cfg svc msg (clock o) m st) as Hframe.
    destruct (checkFailed cfg svc msg (clock o) (m, st)) as [m' st'].
    cbn [fst snd] in Hframe. destruct Hframe as [-> Hst].
    split; [exact Hst|]. eexists; split; reflexivity.
  - destruct (String.eqb (type svc) "api").
    + pose proof (checkApiHealth_frame cfg svc (health_reply o) (clock o)
                    (set_consecutiveFailures 0
                       (set_status StHealthy (recordResponse (elapsed o) m))) st)
        as Hframe.
      destruct (checkApiHealth _ _ _ _ _) as [m' st'].
      cbn [fst snd] in Hframe. destruct Hframe as [[d ->] Hst].
      split; [exact Hst|].
      eexists; split; [reflexivity|]. exists d. right. reflexivity.
    + split; [reflexivity|].
      eexists; split; [reflexivity|]. exists DhUnknown. left. reflexivity.
  - pose proof (checkFailed_frame cfg svc ("HTTP " +++ string_of_Z code) (clock o)
                  (recordResponse (elapsed o) m) st) as Hframe.
    destruct (checkFailed _ _ _ _ _) as [m' st'].
    cbn [fst snd] in Hframe. destruct Hframe as [-> Hst].
    split; [exact Hst|]. eexists; split; reflexivity.
Qed.

(** ** Invariants of the metrics objects *)

(** A property of metrics objects that holds of a fresh object and is
    kept by every check holds of every object of the monitor, always. *)
Section Invariant.
Variable P : ServiceMetrics -> Prop.
Hypothesis P_initial : P initial_metrics.
Hypothesis P_check :
  forall cfg svc o m st, P m -> P (fst (checkServiceHealth_metrics cfg svc o (m, st))).

Let all (st : State) : Prop := Forall (fun kv => P (snd kv)) (metrics st).

Lemma constructor_all cfg : all (constructor cfg).
Proof.
  unfold all, constructor; simpl.
  assert (H : forall l acc, Forall (fun kv : string * ServiceMetrics => P (snd kv)) acc ->
            Forall (fun kv => P (snd kv))
              (fold_left (fun m s => Js.map_set (name s) initial_metrics m) l acc)).
  { induction l as [|s l IH]; simpl; intros acc Hacc; [exact Hacc|].
    apply IH. apply map_set_Forall; assumption. }
  apply H. constructor.
Qed.

Lemma checkServiceHealth_all cfg svc o st : all st -> all (checkServiceHealth cfg svc o st).
Proof.
  unfold all, checkServiceHealth. intros Hall.
  destruct (Js.map_get (name svc) (metrics st)) as [m|] eqn:Hget; [|exact Hall].
  pose proof (check_metrics_shape cfg svc o m st) as [Hst _].
  pose proof (P_check cfg svc o m st (map_get_Forall P _ _ _ Hall Hget)) as Hm.
  destruct (checkServiceHealth_metrics cfg svc o (m, st)) as [m' st'].
  cbn [fst snd metrics] in *.
  apply map_set_Forall; [rewrite Hst; exact Hall | exact Hm].
Qed.

Lemma runHealthChecks_all cfg world st : all st -> all (runHealthChecks cfg world st).
Proof.
  unfold runHealthChecks. generalize (services cfg) as l.
  intros l; revert st. induction l as [|svc l IH]; simpl; intros st Hall; [exact Hall|].
  apply IH. apply checkServiceHealth_all. exact Hall.
Qed.

Lemma monitoring_invariant cfg rounds serviceName m :
  Js.map_get serviceName (metrics (monitoring cfg rounds)) = Some m -> P m.
Proof.
  intros Hget. apply (map_get_Forall P serviceName (metrics (monitoring cfg rounds))); auto.
  unfold monitoring.
  assert (H : forall l st, all st ->
            all (fold_left (fun st world => runHealthChecks cfg world st) l st)).
  { induction l as [|world l IH]; simpl; intros st Hall; [exact Hall|].
    apply IH. apply runHealthChecks_all. exact Hall. }
  apply H. apply constructor_all.
Qed.
End Invariant.

(** ** Effect of one check on each field *)

Lemma recordResponse_buffer x m :
  responseTime (recordResponse x m) =
  if 100 <? Js.len (responseTime m ++ [x])
  then tl (responseTime m ++ [x]) else responseTime m ++ [x].
Proof.
  unfold recordResponse, Js.push, Js.shift; simpl.
  destruct (100 <? Js.len (responseTime m ++ [x])); reflexivity.
Qed.

Lemma recordResponse_counters x m :
  totalRequests (recordResponse x m) = totalRequests m + 1
  /\ errorCount (recordResponse x m) = errorCount m
  /\ consecutiveFailures (recordResponse x m) = consecutiveFailures m.
Proof.
  unfold recordResponse; simpl.
  destruct (100 <? Js.len (Js.push (responseTime m) x)); simpl; auto.
Qed.

Lemma check_metrics_buffer cfg svc o m st :
  responseTime (fst (checkServiceHealth_metrics cfg svc o (m, st))) =
  match reply o with
  | FetchRejected _ => responseTime m
  | FetchResponse _ _ => responseTime (recordResponse (elapsed o) m)
  end.
Proof.
  destruct (check_metrics_shape cfg svc o m st) as [_ [core [-> Hcore]]].
  destruct (reply o) as [msg | [|] code]; cbv zeta in Hcore.
  - subst core; reflexivity.
  - destruct Hcore as [d [-> | ->]]; reflexivity.
  - subst core; reflexivity.
Qed.

Lemma check_metrics_counters cfg svc o m st :
  let m' := fst (checkServiceHealth_metrics cfg svc o (m, st)) in
  match reply o with
  | FetchRejected _ =>
      totalRequests m' = totalRequests m
      /\ errorCount m' = errorCount m + 1
      /\ consecutiveFailures m' = consecutiveFailures m + 1
      /\ status m' = StUnhealthy
  | FetchResponse true _ =>
      totalRequests m' = totalRequests m + 1
      /\ errorCount m' = errorCount m
      /\ consecutiveFailures m' = 0
      /\ status m' = StHealthy
  | FetchResponse false _ =>
      totalRequests m' = totalRequests m + 1
      /\ errorCount m' = errorCount m + 1
      /\ consecutiveFailures m' = consecutiveFailures m + 1
      /\ status m' = StUnhealthy
  end.
Proof.
  destruct (check_metrics_shape cfg svc o m st) as [_ [core [Hfst Hcore]]].
  cbv zeta. rewrite Hfst. clear Hfst.
  destruct (recordResponse_counters (elapsed o) m) as (Ht & He & Hc).
  destruct (reply o) as [msg | [|] code]; cbv zeta in Hcore.
  - subst core; simpl; auto.
  - destruct Hcore as [d [-> | ->]]; simpl; auto.
  - subst core; simpl. rewrite Ht, He, Hc. auto.
Qed.

(** After a check, [availability] is [calculateAvailability] of the
    object's own counters. *)
Lemma check_metrics_availability cfg svc o m st :
  let m' := fst (checkServiceHealth_metrics cfg svc o (m, st)) in
  availability m' = calculateAvailability m'.
Proof.
  destruct (check_metrics_shape cfg svc o m st) as [_ [core [Hfst _]]].
  cbv zeta. rewrite Hfst. reflexivity.
Qed.

Lemma availability_invariant cfg rounds serviceName m :
  Js.map_get serviceName (metrics (monitoring cfg rounds)) = Some m ->
  availability m = calculateAvailability m.
Proof.
  apply (monitoring_invariant (fun m => availability m = calculateAvailability m)).
  - reflexivity.
  - intros; apply check_metrics_availability.
Qed.

Lemma buffer_step_bounded x (l : list Z) :
  (List.length l <= 100)%nat ->
  (List.length (if (100 <? Js.len (l ++ [x]))%Z then tl (l ++ [x]) else l ++ [x]) <= 100)%nat.
Proof.
  intros Hl. unfold Js.len.
  destruct (100 <? Z.of_nat (List.length (l ++ [x]))) eqn:E.
  - destruct l as [|y l]; simpl in *; [lia|].
    rewrite length_app; simpl. lia.
  - apply Z.ltb_ge in E. lia.
Qed.

(** ** The rolling buffer of response times *)

(** C7. The buffer of every metrics object of the monitor holds at most 100
    samples after any number of health-check rounds; and a check that gets a
    response on a buffer of exactly 100 samples leaves the 99 newest of them
    followed by the new sample: the oldest one is evicted, the order is kept.
    A rejected fetch leaves the buffer as it is. *)
Theorem C7_response_time_buffer_bounded_fifo cfg rounds serviceName m :
  Js.map_get serviceName (metrics (monitoring cfg rounds)) = Some m ->
  (List.length (responseTime m) <= 100)%nat
  /\ forall svc o st,
       let m' := fst (checkServiceHealth_metrics cfg svc o (m, st)) in
       (List.length (responseTime m') <= 100)%nat
       /\ match reply o with
          | FetchResponse _ _ =>
              List.length (responseTime m) = 100%nat ->
              responseTime m' = tl (responseTime m) ++ [elapsed o]
          | FetchRejected _ => responseTime m' = responseTime m
          end.
Proof.
  intros Hget.
  assert (Hbound : (List.length (responseTime m) <= 100)%nat).
  { revert Hget.
    apply (monitoring_invariant (fun m => (List.length (responseTime m) <= 100)%nat)).
    - simpl; lia.
    - intros cfg' svc o m0 st Hm0. rewrite check_metrics_buffer.
      destruct (reply o); [exact Hm0|].
      rewrite recordResponse_buffer. apply buffer_step_bounded. exact Hm0. }
  split; [exact Hbound|].
  intros svc o st m'. subst m'. rewrite check_metrics_buffer.
  destruct (reply o) as [msg | ok code].
  - split; [exact Hbound | reflexivity].
  - rewrite recordResponse_buffer. split.
    + apply buffer_step_bounded. exact Hbound.
    + intros Hfull. unfold Js.len. rewrite length_app, Hfull. simpl.
      destruct (responseTime m) as [|oldest rest]; [discriminate|reflexivity].
Qed.

(** The frontend after 101 good rounds: its buffer is full, and an HTTP 503
    reply then evicts the oldest sample. *)
Lemma C7_response_time_buffer_witness :
  Js.map_get "frontend" (metrics (monitoring default_config (repeat (always reply_ok) 101)))
    = Some full_buffer_metrics
  /\ (List.length (responseTime full_buffer_metrics) <= 100)%nat
  /\ responseTime (fst (checkServiceHealth_metrics default_config frontend reply_http_error
                          (full_buffer_metrics, constructor default_config)))
     = repeat 120 99 ++ [80].
Proof.
  assert (Hget : Js.map_get "frontend"
                   (metrics (monitoring default_config (repeat (always reply_ok) 101)))
                 = Some full_buffer_metrics) by (vm_compute; reflexivity).
  destruct (C7_response_time_buffer_bounded_fifo default_config
              (repeat (always reply_ok) 101) "frontend" full_buffer_metrics Hget)
    as [Hbound Hstep].
  split; [exact Hget|]. split; [exact Hbound|].
  destruct (Hstep frontend reply_http_error (constructor default_config)) as [_ Hfifo].
  exact (Hfifo eq_refl).
Defined.

(** ** What a check records *)

Lemma sample_appended_recordResponse x m :
  sample_appended x (responseTime m) (responseTime (recordResponse x m)).
Proof.
  rewrite recordResponse_buffer. unfold sample_appended.
  destruct (100 <? Js.len (responseTime m ++ [x])) eqn:E; [right | left; reflexivity].
  destruct (responseTime m) as [|y l]; [|reflexivity].
  apply Z.ltb_lt in E. unfold Js.len in E. simpl in E. lia.
Qed.

(** C4, as the code has it.  A response-time sample is appended to the
    rolling buffer whenever the connectivity fetch returns a response, 2xx or
    not, and [totalRequests] is incremented with it.  A 2xx response resets
    [consecutiveFailures], sets the status healthy and leaves [errorCount]; a
    non-2xx response increments [errorCount] and [consecutiveFailures] and
    sets the status unhealthy.  Only when the fetch is rejected (network or
    timeout error) is no sample recorded: then [errorCount] and
    [consecutiveFailures] increment, the status becomes unhealthy, and the
    buffer and [totalRequests] stay as they are. *)
Theorem C4_sample_recorded_for_every_response cfg svc o m st :
  let m' := fst (checkServiceHealth_metrics cfg svc o (m, st)) in
  match reply o with
  | FetchResponse true _ =>
      sample_appended (elapsed o) (responseTime m) (responseTime m')
      /\ totalRequests m' = totalRequests m + 1
      /\ errorCount m' = errorCount m
      /\ consecutiveFailures m' = 0
      /\ status m' = StHealthy
  | FetchResponse false _ =>
      sample_appended (elapsed o) (responseTime m) (responseTime m')
      /\ totalRequests m' = totalRequests m + 1
      /\ errorCount m' = errorCount m + 1
      /\ consecutiveFailures m' = consecutiveFailures m + 1
      /\ status m' = StUnhealthy
  | FetchRejected _ =>
      responseTime m' = responseTime m
      /\ totalRequests m' = totalRequests m
      /\ errorCount m' = errorCount m + 1
      /\ consecutiveFailures m' = consecutiveFailures m + 1
      /\ status m' = StUnhealthy
  end.
Proof.
  intros m'. subst m'.
  pose proof (check_metrics_counters cfg svc o m st) as Hc.
  pose proof (check_metrics_buffer cfg svc o m st) as Hb.
  pose proof (sample_appended_recordResponse (elapsed o) m) as Hs.
  cbv zeta in Hc.
  destruct (reply o) as [msg | [|] code]; rewrite Hb; tauto.
Qed.

(** C4 as stated fails: an HTTP 503 reply to the first check of the frontend
    leaves its response time, 80 ms, in the buffer (and is counted in
    [totalRequests]), although the reply is not a 2xx. *)
Lemma C4_non_2xx_records_a_sample :
  exists m,
    Js.map_get "frontend" (metrics (monitoring default_config [always reply_http_error]))
      = Some m
    /\ status m = StUnhealthy
    /\ responseTime m = [80]
    /\ totalRequests m = 1.
Proof. eexists. repeat split; vm_compute; reflexivity. Qed.

(** ** Availability *)

(** [calculateAvailability] on the counters of the object. *)
Lemma calculateAvailability_ratio m :
  (totalRequests m = 0 -> calculateAvailability m = 1%Q)
  /\ (totalRequests m <> 0 ->
      calculateAvailability m
      = (inject_Z (totalRequests m - errorCount m) / inject_Z (totalRequests m))%Q).
Proof.
  unfold calculateAvailability. split; intros H.
  - rewrite H. reflexivity.
  - apply Z.eqb_neq in H. rewrite H. reflexivity.
Qed.

Lemma count_failed_app (l : list CheckOutcome) o :
  Z.of_nat (List.length (filter failed (l ++ [o])))
  = Z.of_nat (List.length (filter failed l)) + (if failed o then 1 else 0).
Proof.
  rewrite filter_app, length_app. simpl. destruct (failed o); simpl; lia.
Qed.

(** Where every fetch gets a response, the counters count the checks:
    [totalRequests] grows by the number of checks, [errorCount] by the number
    of non-2xx ones, and [availability] is their [calculateAvailability]. *)
Lemma counters_when_every_fetch_answers cfg svc outs m st :
  forallb answered outs = true ->
  outs <> [] ->
  let m' := fst (check_repeatedly cfg svc outs (m, st)) in
  totalRequests m' = totalRequests m + Js.len outs
  /\ errorCount m' = errorCount m + Js.len (filter failed outs)
  /\ availability m' = calculateAvailability m'.
Proof.
  unfold check_repeatedly, Js.len.
  induction outs as [|o outs IH] using rev_ind; intros Hall Hne; [congruence|].
  rewrite forallb_app in Hall. apply andb_prop in Hall as [Hall Ho].
  simpl in Ho. rewrite andb_true_r in Ho.
  rewrite fold_left_app. simpl fold_left.
  destruct (fold_left _ outs (m, st)) as [m1 st1] eqn:E.
  pose proof (check_metrics_counters cfg svc o m1 st1) as Hc.
  pose proof (check_metrics_availability cfg svc o m1 st1) as Ha.
  cbv zeta in *. rewrite count_failed_app, length_app. simpl List.length.
  assert (Hprev : totalRequests m1 = totalRequests m + Z.of_nat (List.length outs)
                  /\ errorCount m1
                     = errorCount m + Z.of_nat (List.length (filter failed outs))).
  { destruct outs as [|o0 outs0].
    - simpl in E. injection E as <- <-. simpl. lia.
    - destruct (IH Hall ltac:(discriminate)) as (Ht & He & _).
      cbn [fst] in Ht, He. auto. }
  destruct Hprev as [Ht He].
  unfold answered, failed in *.
  destruct (reply o) as [msg | [|] code]; try discriminate;
    destruct Hc as (Hc1 & Hc2 & _); rewrite Hc1, Hc2, Ht, He;
    (split; [lia | split; [lia | exact Ha]]).
Qed.

(** C1 (the code departs from the claim).  The frontend is checked three
    times: a 2xx response, then two fetches that are rejected with a network
    error.  A rejected fetch skips [totalRequests++] but still runs
    [errorCount++]: the object then counts 1 request and 2 errors, and its
    availability is -1, neither the (3-2)/3 of three requests with two errors
    nor a fraction between 0 and 1. *)
Theorem C1_rejected_fetch_is_an_error_but_not_a_request :
  exists m,
    Js.map_get "frontend"
      (metrics (monitoring default_config
                  [always reply_ok; always reply_network_error; always reply_network_error]))
      = Some m
    /\ totalRequests m = 1
    /\ errorCount m = 2
    /\ (availability m == -1)%Q
    /\ ~ (availability m == (3 - 2) / 3)%Q
    /\ ~ (0 <= availability m)%Q.
Proof.
  eexists. split; [vm_compute; reflexivity|].
  repeat split; try reflexivity; intros H; vm_compute in H; discriminate (* by computation *)
  || (apply H; reflexivity).
Qed.

(** ** Aggregate health *)

Lemma Qltb_lt x y : Qltb x y = true <-> (x < y)%Q.
Proof.
  unfold Qltb. rewrite negb_true_iff. split; intros H.
  - apply Qnot_le_lt. intros Hle. apply Qle_bool_iff in Hle. congruence.
  - destruct (Qle_bool y x) eqn:E; [|reflexivity].
    apply Qle_bool_iff in E. exfalso. exact (Qlt_not_le _ _ H E).
Qed.

Lemma Qltb_ge x y : Qltb x y = false <-> (y <= x)%Q.
Proof.
  unfold Qltb. rewrite negb_false_iff. apply Qle_bool_iff.
Qed.

(** [servicesOnline < this.metrics.size * 0.5] on integers. *)
Lemma below_half k n : Qltb (inject_Z k) (inject_Z n * 0.5) = true <-> 2 * k < n.
Proof.
  rewrite Qltb_lt. unfold Qlt, Qmult, inject_Z; cbn [Qnum Qden Pos.mul]. lia.
Qed.

(** The accumulators of the [forEach] in [calculateOverallHealth]. *)
Lemma overall_accumulators (l : list ServiceMetrics) online avail reqs errs :
  exists avail',
    fold_left
      (fun '(online, avail, reqs, errs) m =>
         ((match status m with StHealthy => online + 1 | _ => online end),
          (avail + availability m)%Q, reqs + totalRequests m, errs + errorCount m))
      l (online, avail, reqs, errs)
    = (online + Js.len (filter is_healthy l), avail',
       reqs + fold_right (fun m acc => totalRequests m + acc) 0 l,
       errs + fold_right (fun m acc => errorCount m + acc) 0 l).
Proof.
  revert online avail reqs errs.
  induction l as [|m l IH]; intros online avail reqs errs; cbn [fold_left].
  - exists avail. unfold Js.len; cbn [filter fold_right List.length Z.of_nat].
    rewrite !Z.add_0_r. reflexivity.
  - destruct (IH (match status m with StHealthy => online + 1 | _ => online end)
                 (avail + availability m)%Q (reqs + totalRequests m)
                 (errs + errorCount m)) as [avail' ->].
    exists avail'. unfold Js.len. cbn [filter fold_right]. unfold is_healthy.
    destruct (status m); cbn [List.length]; rewrite ?Nat2Z.inj_succ;
      (apply (f_equal2 pair);
       [apply (f_equal2 pair); [apply (f_equal2 pair); [lia | reflexivity] | lia] | lia]).
Qed.

(** The status that [calculateOverallHealth] reports, from the number of
    healthy services and the overall error rate. *)
Lemma overall_status cfg st :
  oh_status (calculateOverallHealth cfg st) =
  if Qltb (thr_errorRate (alertThresholds cfg)) (overall_error_rate st) then HealthDegraded
  else if 2 * healthy_services st <? Js.map_size (metrics st) then HealthCritical
  else if healthy_services st <? Js.map_size (metrics st) then HealthDegraded
  else HealthHealthy.
Proof.
  unfold calculateOverallHealth, overall_error_rate, healthy_services, sum_over.
  destruct (overall_accumulators (Js.map_values (metrics st)) 0 0%Q 0 0) as [avail' ->].
  cbn [oh_status]. rewrite !Z.add_0_l.
  destruct (Qltb (thr_errorRate (alertThresholds cfg)) _); [reflexivity|].
  destruct (Qltb (inject_Z _) _) eqn:Ehalf.
  - apply below_half in Ehalf. apply Z.ltb_lt in Ehalf. rewrite Ehalf. reflexivity.
  - destruct (2 * _ <? _) eqn:E2.
    + apply Z.ltb_lt, below_half in E2. congruence.
    + reflexivity.
Qed.

(** What [calculateOverallHealth] computes.  With [r] the overall error
    rate (errors over requests of all services, 0 before any request): when
    [r] is not above the error-rate threshold the result is critical when
    fewer than half of the services are healthy, degraded when at least half
    but not all are, and healthy when all are; with two services: none
    healthy is critical, one is degraded, both is healthy.  When [r] exceeds
    the threshold the result is degraded, however many services are healthy:
    the error-rate test is the last of the three assignments. *)
Theorem overall_health_classification cfg st :
  let h := oh_status (calculateOverallHealth cfg st) in
  let n := Js.map_size (metrics st) in
  let k := healthy_services st in
  let r := overall_error_rate st in
  let threshold := thr_errorRate (alertThresholds cfg) in
  ((threshold < r)%Q -> h = HealthDegraded)
  /\ ((r <= threshold)%Q -> 2 * k < n -> h = HealthCritical)
  /\ ((r <= threshold)%Q -> n <= 2 * k -> k < n -> h = HealthDegraded)
  /\ ((r <= threshold)%Q -> k = n -> h = HealthHealthy)
  /\ ((r <= threshold)%Q -> n = 2 ->
      (k = 0 -> h = HealthCritical) /\ (k = 1 -> h = HealthDegraded)
      /\ (k = 2 -> h = HealthHealthy)).
Proof.
  cbv zeta. rewrite overall_status.
  destruct (Qltb _ _) eqn:Er.
  - apply Qltb_lt in Er.
    repeat split; intros; try reflexivity;
      exfalso; eapply Qlt_not_le; eassumption.
  - apply Qltb_ge in Er.
    assert (Hno : ~ (thr_errorRate (alertThresholds cfg) < overall_error_rate st)%Q)
      by (intros Hlt; exact (Qlt_not_le _ _ Hlt Er)).
    assert (Hk : 0 <= healthy_services st)
      by (unfold healthy_services, Js.len; lia).
    repeat split; intros;
      try (exfalso; apply Hno; assumption);
      repeat match goal with
             | |- context [?a <? ?b] =>
                 let E := fresh "E" in
                 destruct (a <? b) eqn:E;
                 [apply Z.ltb_lt in E | apply Z.ltb_ge in E]
             end; try reflexivity; lia.
Qed.

(** The monitor before any round, with one of two services down after
    thirty good rounds, after one good round, and after one round of HTTP
    503 replies. *)
Lemma overall_health_classification_witness :
  oh_status (calculateOverallHealth default_config (constructor default_config))
    = HealthCritical
  /\ oh_status (calculateOverallHealth default_config one_of_two_healthy) = HealthDegraded
  /\ oh_status (calculateOverallHealth default_config
                  (monitoring default_config [always reply_ok])) = HealthHealthy
  /\ oh_status (calculateOverallHealth default_config
                  (monitoring default_config [always reply_http_error])) = HealthDegraded.
Proof.
  pose proof (overall_health_classification default_config (constructor default_config))
    as (_ & Hcritical & _).
  pose proof (overall_health_classification default_config one_of_two_healthy)
    as (_ & _ & Hdegraded & _).
  pose proof (overall_health_classification default_config
                (monitoring default_config [always reply_ok])) as (_ & _ & _ & Hhealthy & _).
  pose proof (overall_health_classification default_config
                (monitoring default_config [always reply_http_error])) as (Hrate & _).
  split; [|split; [|split]].
  - apply Hcritical; vm_compute; (reflexivity || discriminate).
  - apply Hdegraded; vm_compute; (reflexivity || discriminate).
  - apply Hhealthy; vm_compute; (reflexivity || discriminate).
  - apply Hrate; vm_compute; reflexivity.
Defined.

(** C2, where the code departs from it.  After one round in which both
    services answer HTTP 503, none of the two services is healthy, which is
    fewer than half, and [calculateOverallHealth] reports degraded, not
    critical: the overall error rate, 1, is above the threshold, and the
    error-rate test, which comes last and is not guarded, overwrites the
    critical status. *)
Lemma C2_none_healthy_yet_degraded :
  let st := monitoring default_config [always reply_http_error] in
  healthy_services st = 0
  /\ Js.map_size (metrics st) = 2
  /\ oh_status (calculateOverallHealth default_config st) = HealthDegraded
  /\ oh_status (calculateOverallHealth default_config st) <> HealthCritical.
Proof. vm_compute. repeat split; discriminate. Qed.

(** ** Alerts *)

Lemma isDuplicate_recent now alert existing :
  isDuplicate now alert existing = true <-> recent_duplicate now alert existing.
Proof.
  unfold isDuplicate, recent_duplicate, same_recent. rewrite existsb_exists.
  split; intros (ex & Hin & H); exists ex; (split; [exact Hin|]).
  - apply andb_prop in H as [H Hlt]. apply andb_prop in H as [Hs Hm].
    apply String.eqb_eq in Hs, Hm. apply Z.ltb_lt in Hlt. auto.
  - destruct H as (Hs & Hm & Hlt).
    apply String.eqb_eq in Hs, Hm. apply Z.ltb_lt in Hlt.
    rewrite Hs, Hm, Hlt. reflexivity.
Qed.

Lemma isDuplicate_not_recent now alert existing :
  isDuplicate now alert existing = false <-> ~ recent_duplicate now alert existing.
Proof.
  rewrite <- isDuplicate_recent. destruct (isDuplicate now alert existing); split; intros H.
  - discriminate.
  - exfalso; apply H; reflexivity.
  - discriminate.
  - reflexivity.
Qed.

(** The list after [push] and the capping [shift] still ends with the
    pushed element. *)
Lemma capped_push_last {A} (l : list A) (x : A) :
  exists kept,
    (if 50 <? Js.len (l ++ [x]) then tl (l ++ [x]) else l ++ [x]) = kept ++ [x]
    /\ (kept = l \/ kept = tl l).
Proof.
  destruct (50 <? Js.len (l ++ [x])) eqn:E.
  - destruct l as [|y l].
    + apply Z.ltb_lt in E. unfold Js.len in E. simpl in E. lia.
    + exists l. split; [reflexivity | right; reflexivity].
  - exists l. split; [reflexivity | left; reflexivity].
Qed.

Lemma capped_push_length {A} (l : list A) (x : A) :
  Js.len l <= 50 ->
  Js.len (if 50 <? Js.len (l ++ [x]) then tl (l ++ [x]) else l ++ [x]) <= 50.
Proof.
  intros Hl. destruct (50 <? Js.len (l ++ [x])) eqn:E.
  - unfold Js.len in *. destruct l as [|y l]; simpl in *; [lia|].
    rewrite length_app in *. simpl in *. lia.
  - apply Z.ltb_ge in E. exact E.
Qed.

(** C6, as the code has it.  A call of [createAlert] is suppressed (the
    alert list, the dispatch and the persisted log stay as they are) when the
    alert list holds an alert with the same (service, message) whose
    timestamp is less than five minutes before the call.  Otherwise the alert
    is created: appended to the list, dispatched and persisted, the list
    capped at 50 entries by evicting the oldest; and a second alert with the
    same (service, message) that follows it within five minutes of its
    timestamp is suppressed.  An alert is thus created again once five
    minutes have passed since every alert like it that the list still
    holds. *)
Theorem C6_alert_suppressed_while_recent_duplicate_is_held cfg now alert st :
  let st' := createAlert cfg now alert st in
  (recent_duplicate now alert (alerts st) -> st' = st)
  /\ (~ recent_duplicate now alert (alerts st) ->
      alerts st'
      = (if 50 <? Js.len (alerts st ++ [alert])
         then tl (alerts st ++ [alert]) else alerts st ++ [alert])
      /\ (Js.len (alerts st) = 50 -> alerts st' = tl (alerts st) ++ [alert])
      /\ In alert (alerts st')
      /\ emitted st' = emitted st ++ sendAlert cfg alert
      /\ In (EvSaveAlert alert) (emitted st')
      /\ forall now2 again,
           service again = service alert ->
           message again = message alert ->
           now2 - timestamp alert < 300000 ->
           createAlert cfg now2 again st' = st')
  /\ (Js.len (alerts st) <= 50 -> Js.len (alerts st') <= 50).
Proof.
  cbv zeta. split; [|split].
  - intros Hdup. apply isDuplicate_recent in Hdup.
    unfold createAlert. rewrite Hdup. reflexivity.
  - intros Hnew. apply isDuplicate_not_recent in Hnew.
    assert (Halerts : alerts (createAlert cfg now alert st)
                      = (if 50 <? Js.len (alerts st ++ [alert])
                         then tl (alerts st ++ [alert]) else alerts st ++ [alert]))
      by (unfold createAlert; rewrite Hnew; reflexivity).
    assert (Hemitted : emitted (createAlert cfg now alert st)
                       = emitted st ++ sendAlert cfg alert)
      by (unfold createAlert; rewrite Hnew; reflexivity).
    assert (Hin : In alert (alerts (createAlert cfg now alert st))).
    { rewrite Halerts. destruct (capped_push_last (alerts st) alert) as (kept & -> & _).
      apply in_or_app. right. left. reflexivity. }
    split; [exact Halerts|]. split; [|split; [exact Hin|split; [exact Hemitted|split]]].
    + intros Hfull. rewrite Halerts. unfold Js.len in *.
      rewrite length_app. simpl List.length.
      destruct (alerts st) as [|oldest rest]; [simpl in Hfull; lia|].
      replace (50 <? Z.of_nat (List.length (oldest :: rest) + 1)) with true
        by (symmetry; apply Z.ltb_lt; lia).
      reflexivity.
    + rewrite Hemitted. apply in_or_app. right.
      unfold sendAlert. apply in_or_app. right.
      apply in_or_app. right. apply in_or_app. right. left. reflexivity.
    + intros now2 again Hs Hm Hlt.
      assert (Hdup : isDuplicate now2 again (alerts (createAlert cfg now alert st)) = true).
      { apply isDuplicate_recent. exists alert. auto. }
      unfold createAlert at 1. rewrite Hdup. reflexivity.
  - intros Hlen. unfold createAlert.
    destruct (isDuplicate now alert (alerts st)); [exact Hlen|].
    cbn [alerts]. apply capped_push_length. exact Hlen.
Qed.

(** An alert created on an empty list, raised again after one minute and
    after five minutes. *)
Lemma C6_alert_suppression_witness :
  let st0 := constructor default_config in
  let st1 := createAlert default_config 0 (backend_failing 0) st0 in
  ~ recent_duplicate 0 (backend_failing 0) (alerts st0)
  /\ alerts st1 = [backend_failing 0]
  /\ createAlert default_config 60000 (backend_failing 60000) st1 = st1
  /\ ~ recent_duplicate 300000 (backend_failing 300000) (alerts st1)
  /\ alerts (createAlert default_config 300000 (backend_failing 300000) st1)
     = [backend_failing 0; backend_failing 300000].
Proof.
  intros st0 st1.
  assert (Hfresh : ~ recent_duplicate 0 (backend_failing 0) (alerts st0))
    by (intros (ex & [] & _)).
  assert (Hold : ~ recent_duplicate 300000 (backend_failing 300000) (alerts st1)).
  { intros (ex & Hin & _ & _ & Hlt). vm_compute in Hin.
    destruct Hin as [<- | []]. vm_compute in Hlt. discriminate. }
  destruct (C6_alert_suppressed_while_recent_duplicate_is_held
              default_config 0 (backend_failing 0) st0) as (_ & Hcreated & _).
  destruct (Hcreated Hfresh) as (Halerts & _ & _ & _ & _ & Hagain).
  destruct (C6_alert_suppressed_while_recent_duplicate_is_held
              default_config 300000 (backend_failing 300000) st1) as (_ & Hlater & _).
  destruct (Hlater Hold) as (Halerts' & _).
  split; [exact Hfresh|]. split; [exact Halerts|].
  split; [apply Hagain; reflexivity|]. split; [exact Hold|exact Halerts'].
Defined.

(** C6 as stated fails for a pair of calls between which the first alert
    leaves the list.  [backend_failing] is created at time 0; fifty other
    alerts created during the next fifty seconds evict it from the 50-entry
    list; the second [backend_failing], one minute after the first, is then
    not suppressed: it is appended, dispatched and persisted. *)
Lemma C6_duplicate_within_window_after_eviction :
  let second := backend_failing 60000 in
  let st' := createAlert default_config 60000 second busy_minute in
  In (backend_failing 0)
     (alerts (createAlert default_config 0 (backend_failing 0) (constructor default_config)))
  /\ service second = service (backend_failing 0)
  /\ message second = message (backend_failing 0)
  /\ 60000 - timestamp (backend_failing 0) < 300000
  /\ st' <> busy_minute
  /\ last (alerts st') (backend_failing 0) = second
  /\ last (emitted st') (EvLogError "" "") = EvSaveAlert second.
Proof.
  cbv zeta. split; [left; reflexivity|].
  repeat split; try (vm_compute; reflexivity).
  intros H. apply (f_equal (fun st => List.length (emitted st))) in H.
  vm_compute in H. discriminate.
Qed.

End MonitorProofs.

(** * Properties of the deployment orchestrator *)

Module OrchestratorProofs.
Import Orchestrator.

(** ** What the steps leave alone *)

Lemma Frame_refl o : Frame o o.
Proof.
  unfold Frame. split; [|split; [|split; [|split]]]; try reflexivity.
  - exists []. rewrite app_nil_r. split; [reflexivity | constructor].
  - exists []. rewrite app_nil_r. split; reflexivity.
Qed.

Lemma Frame_trans o1 o2 o3 : Frame o1 o2 -> Frame o2 o3 -> Frame o1 o3.
Proof.
  intros (He1 & Hc1 & Hh1 & (a1 & Ha1 & Hf1) & (e1 & Ht1 & Hs1))
         (He2 & Hc2 & Hh2 & (a2 & Ha2 & Hf2) & (e2 & Ht2 & Hs2)).
  unfold Frame. split; [|split; [|split; [|split]]].
  - congruence.
  - congruence.
  - congruence.
  - exists (a1 ++ a2). split.
    + rewrite Ha2, Ha1, app_assoc. reflexivity.
    + apply Forall_app. split; [exact Hf1|].
      eapply Forall_impl; [|exact Hf2]. intros d Hd. congruence.
  - exists (e1 ++ e2). split.
    + rewrite Ht2, Ht1, app_assoc. reflexivity.
    + rewrite forallb_app, Hs1, Hs2. reflexivity.
Qed.

Lemma Frame_emit e o : step_event e = true -> Frame o (emit e o).
Proof.
  intros He. unfold Frame, emit; simpl.
  split; [|split; [|split; [|split]]]; try reflexivity.
  - exists []. rewrite app_nil_r. split; [reflexivity | constructor].
  - exists [e]. simpl. rewrite He. split; reflexivity.
Qed.

Lemma Frame_set_service k r o : Frame o (update (set_service k r) o).
Proof.
  unfold Frame, update; simpl.
  split; [|split; [|split; [|split]]]; try reflexivity.
  - eexists. split; [reflexivity|]. constructor; [reflexivity | constructor].
  - exists []. rewrite app_nil_r. split; reflexivity.
Qed.

Ltac frame :=
  lazymatch goal with
  | H : Frame ?o ?x |- Frame ?o ?x => exact H
  | |- Frame ?o ?o => apply Frame_refl
  | |- Frame ?o (emit ?e ?x) =>
      apply (Frame_trans o x); [frame | apply Frame_emit; reflexivity]
  | |- Frame ?o (update (set_service _ _) ?x) =>
      apply (Frame_trans o x); [frame | apply Frame_set_service]
  end.

Lemma deployBackend_frame w o : Frame o (fst (deployBackend w o)).
Proof.
  unfold deployBackend, deployBackendToProduction, execSync.
  destruct (execSync_outcome w "cd backend && npm ci --production"); cbn [fst]; [frame|].
  destruct (execSync_outcome w "cd backend && npm test");
    destruct (is_production _); cbn [fst]; frame.
Qed.

Lemma deployFrontend_frame w o : Frame o (fst (deployFrontend w o)).
Proof.
  unfold deployFrontend, deployFrontendToProduction, execSync.
  destruct (execSync_outcome w "cd frontend && npm ci"); cbn [fst]; [frame|].
  destruct (execSync_outcome w "cd frontend && npm run build"); cbn [fst]; [frame|].
  destruct (is_production _); cbn [fst]; frame.
Qed.

Lemma deployService_frame w serviceName o : Frame o (fst (deployService w serviceName o)).
Proof.
  unfold deployService.
  destruct (String.eqb serviceName "backend"); [apply deployBackend_frame|].
  destruct (String.eqb serviceName "frontend"); [apply deployFrontend_frame|].
  apply Frame_refl.
Qed.

Lemma deployServices_loop_frame w entries o :
  Frame o (fst (deployServices_loop w entries o)).
Proof.
  revert o. induction entries as [|[serviceName serviceConfig] rest IH]; intros o; simpl.
  - apply Frame_refl.
  - destruct (negb (enabled serviceConfig)); [apply IH|].
    pose proof (deployService_frame w serviceName (emit (EvDeployingService serviceName) o))
      as Hd.
    destruct (deployService w serviceName _) as [o1 [msg|]]; cbn [fst] in *.
    + apply (Frame_trans o o1); [|apply Frame_set_service].
      apply (Frame_trans o (emit (EvDeployingService serviceName) o));
        [apply Frame_emit; reflexivity | exact Hd].
    + eapply Frame_trans; [|apply IH].
      apply (Frame_trans o o1); [|apply Frame_set_service].
      apply (Frame_trans o (emit (EvDeployingService serviceName) o));
        [apply Frame_emit; reflexivity | exact Hd].
Qed.

Lemma healthCheck_attempts_frame fuel w serviceName attempts maxAttempts o :
  Frame o (fst (healthCheck_attempts fuel w serviceName attempts maxAttempts o)).
Proof.
  revert attempts o. induction fuel as [|fuel IH]; intros attempts o; simpl.
  - apply Frame_refl.
  - destruct (attempts <? maxAttempts); [|apply Frame_refl].
    destruct (healthCheckService w serviceName (attempts + 1)); [|apply Frame_refl].
    destruct (attempts + 1 =? maxAttempts); [apply Frame_refl|].
    eapply Frame_trans; [|apply IH]. apply Frame_emit. reflexivity.
Qed.

Lemma runHealthChecks_loop_frame w names o :
  Frame o (fst (runHealthChecks_loop w names o)).
Proof.
  revert o. induction names as [|serviceName rest IH]; intros o; simpl.
  - apply Frame_refl.
  - destruct (service_config (config o) serviceName) as [serviceConfig|]; [|apply Frame_refl].
    destruct (negb (enabled serviceConfig)); [apply IH|].
    pose proof (healthCheck_attempts_frame
                  (Z.to_nat (healthCheckRetries (deployment (config o)))) w serviceName 0
                  (healthCheckRetries (deployment (config o))) o) as Hf.
    destruct (healthCheck_attempts _ _ _ _ _ _) as [o1 [msg|]]; cbn [fst] in *.
    + exact Hf.
    + eapply Frame_trans; [exact Hf | apply IH].
Qed.

Lemma run_step_frame w s o : Frame o (fst (run_step w s o)).
Proof.
  destruct s; cbn [run_step fst].
  - apply Frame_refl.
  - apply Frame_refl.
  - apply deployServices_loop_frame.
  - apply runHealthChecks_loop_frame.
  - apply Frame_refl.
  - unfold updateTrafficRouting. destruct (String.eqb _ _); frame.
  - unfold runPostDeploymentTasks, createDeploymentRecord, sendDeploymentNotifications.
    destruct (slack _); destruct (webhook _); frame.
Qed.

(** ** Rollback *)

Lemma rollback_fold names : forall o,
  let o' :=
    fold_left
      (fun o serviceName =>
         match Js.map_get serviceName (services (deploymentState o)) with
         | Some service =>
             match status service with
             | Deployed => rollbackService serviceName o
             | Failed => o
             end
         | None => o
         end) names o in
  environment o' = environment o /\ config o' = config o
  /\ deploymentState o' = deploymentState o /\ history o' = history o
  /\ trace o' = trace o
                ++ List.map EvRollbackService
                     (filter (recorded_deployed (services (deploymentState o))) names).
Proof.
  induction names as [|n names IH]; intros o; cbn [fold_left filter List.map].
  - rewrite app_nil_r. auto.
  - unfold recorded_deployed at 1, is_deployed.
    destruct (Js.map_get n (services (deploymentState o))) as [r|].
    + destruct (status r).
      * specialize (IH (rollbackService n o)). cbv zeta in IH.
        destruct IH as (He & Hc & Hd & Hh & Ht).
        rewrite He, Hc, Hd, Hh, Ht. unfold rollbackService, emit; simpl.
        rewrite <- app_assoc. auto.
      * apply IH.
    + apply IH.
Qed.

Lemma rollback_spec o :
  environment (rollback o) = environment o /\ config (rollback o) = config o
  /\ deploymentState (rollback o) = deploymentState o
  /\ history (rollback o) = history o
  /\ trace (rollback o)
     = trace o ++ EvRollbackInitiated
         :: List.map EvRollbackService
              (filter (recorded_deployed (services (deploymentState o)))
                      (rev (Js.map_keys (services (deploymentState o))))).
Proof.
  unfold rollback.
  pose proof (rollback_fold
                (rev (Js.map_keys (services (deploymentState (emit EvRollbackInitiated o)))))
                (emit EvRollbackInitiated o)) as H.
  cbv zeta in H. destruct H as (He & Hc & Hd & Hh & Ht).
  rewrite He, Hc, Hd, Hh, Ht. unfold emit; simpl.
  rewrite <- app_assoc. auto.
Qed.

Lemma map_get_In {V} (m : Js.map V) k v :
  NoDup (Js.map_keys m) -> In (k, v) m -> Js.map_get k m = Some v.
Proof.
  unfold Js.map_keys.
  induction m as [|[k' v'] rest IH]; simpl; intros Hnd Hin; [contradiction|].
  inversion Hnd as [|? ? Hnotin Hnd']; subst.
  destruct Hin as [Heq | Hin].
  - injection Heq as -> ->. rewrite String.eqb_refl. reflexivity.
  - destruct (String.eqb k' k) eqn:E.
    + apply String.eqb_eq in E. subst k'. exfalso. apply Hnotin.
      apply (in_map fst) in Hin. exact Hin.
    + apply IH; assumption.
Qed.

(** On a map without repeated keys, looking each key up selects the
    entries whose status is [deployed]. *)
Lemma filter_recorded_deployed (m : Js.map ServiceRecord) :
  NoDup (Js.map_keys m) ->
  filter (recorded_deployed m) (Js.map_keys m) = deployed_names m.
Proof.
  intros Hnd. unfold deployed_names, Js.map_keys.
  assert (H : forall l, (forall kv, In kv l -> In kv m) ->
              filter (recorded_deployed m) (List.map fst l)
              = List.map fst (filter (fun kv => is_deployed (snd kv)) l)).
  { induction l as [|[k v] l IH]; intros Hsub; simpl; [reflexivity|].
    unfold recorded_deployed at 1.
    rewrite (map_get_In m k v Hnd (Hsub (k, v) (or_introl eq_refl))).
    rewrite IH by (intros kv Hkv; apply Hsub; right; exact Hkv).
    destruct (is_deployed v); reflexivity. }
  apply H. auto.
Qed.

Lemma rollback_calls_app t1 t2 :
  rollback_calls (t1 ++ t2) = rollback_calls t1 ++ rollback_calls t2.
Proof. apply flat_map_app. Qed.

Lemma rollback_calls_services l : rollback_calls (List.map EvRollbackService l) = l.
Proof. induction l as [|n l IH]; simpl; [reflexivity | f_equal; exact IH]. Qed.

Lemma rollback_calls_step_events evs :
  forallb step_event evs = true -> rollback_calls evs = [].
Proof.
  induction evs as [|e evs IH]; simpl; intros H; [reflexivity|].
  apply andb_prop in H as [He H]. rewrite (IH H).
  destruct e; simpl in *; (reflexivity || discriminate).
Qed.

(** [rollback] calls [rollbackService] for the recorded services whose
    status is [deployed], last recorded first. *)
Lemma rollback_calls_rollback o :
  NoDup (Js.map_keys (services (deploymentState o))) ->
  rollback_calls (trace (rollback o))
  = rollback_calls (trace o) ++ rev (deployed_names (services (deploymentState o))).
Proof.
  intros Hnd. destruct (rollback_spec o) as (_ & _ & _ & _ & ->).
  rewrite rollback_calls_app. f_equal.
  change (EvRollbackInitiated :: ?l) with ([EvRollbackInitiated] ++ l).
  rewrite rollback_calls_app. simpl. rewrite rollback_calls_services.
  rewrite filter_rev, filter_recorded_deployed by exact Hnd. reflexivity.
Qed.

(** ** The pipeline loop *)

Lemma header_eq d d' :
  header d = header d' ->
  phase d = phase d' /\ currentStep d = currentStep d' /\ totalSteps d = totalSteps d'.
Proof. unfold header. intros H. injection H as H1 H2 H3. auto. Qed.

Lemma handleDeploymentFailure_spec j o :
  let o' := handleDeploymentFailure j o in
  environment o' = environment o /\ config o' = config o
  /\ deploymentState o' = deploymentState o /\ history o' = history o
  /\ (j < 2 -> o' = o)
  /\ (2 <= j ->
      trace o'
      = trace o ++ EvRollbackInitiated
          :: List.map EvRollbackService
               (filter (recorded_deployed (services (deploymentState o)))
                       (rev (Js.map_keys (services (deploymentState o)))))).
Proof.
  unfold handleDeploymentFailure. destruct (2 <=? j) eqn:E.
  - apply Z.leb_le in E. destruct (rollback_spec o) as (He & Hc & Hd & Hh & Ht).
    repeat split; auto. intros; lia.
  - apply Z.leb_gt in E. repeat split; auto. intros; lia.
Qed.

(** Progress fields during the loop: [phase] and [totalSteps] stay, and
    every state passed through has [currentStep] among the indices of the
    steps run. *)
Lemma deploy_loop_progress w todo : forall i o,
  let o' := fst (deploy_loop w i todo o) in
  environment o' = environment o /\ config o' = config o
  /\ phase (deploymentState o') = phase (deploymentState o)
  /\ totalSteps (deploymentState o') = totalSteps (deploymentState o)
  /\ exists added,
       history o' = history o ++ added
       /\ Forall (fun d => phase d = phase (deploymentState o)
                           /\ totalSteps d = totalSteps (deploymentState o)
                           /\ i < currentStep d <= i + Js.len todo) added.
Proof.
  induction todo as [|s rest IH]; intros i o; cbn [deploy_loop fst].
  - repeat split; try reflexivity. exists []. rewrite app_nil_r. split; [reflexivity|constructor].
  - set (o1 := update (set_currentStep (i + 1)) o).
    pose proof (run_step_frame w s o1) as (He & Hc & Hh & (a & Ha & Hf) & _).
    apply header_eq in Hh. destruct Hh as (Hp & Hcs & Hts).
    assert (Hlen : Js.len (s :: rest) = Js.len rest + 1)
      by (unfold Js.len; simpl List.length; lia).
    assert (Hrest : 0 <= Js.len rest) by (unfold Js.len; lia).
    assert (Hadded : Forall (fun d => phase d = phase (deploymentState o)
                                      /\ totalSteps d = totalSteps (deploymentState o)
                                      /\ i < currentStep d <= i + Js.len (s :: rest))
                            (deploymentState o1 :: a)).
    { rewrite Hlen. constructor.
      - unfold o1, update. cbn [deploymentState set_currentStep phase totalSteps currentStep].
        split; [reflexivity | split; [reflexivity | lia]].
      - eapply Forall_impl; [|exact Hf]. intros d Hd. apply header_eq in Hd.
        destruct Hd as (-> & -> & ->). unfold o1, update.
        cbn [deploymentState set_currentStep phase totalSteps currentStep].
        split; [reflexivity | split; [reflexivity | lia]]. }
    destruct (run_step w s o1) as [o2 [msg|]]; cbn [fst] in *.
    + destruct (handleDeploymentFailure_spec i o2) as (He' & Hc' & Hd' & Hh' & _).
      rewrite He', Hc', Hd', Hh', He, Hc, Hp, Hts, Ha.
      repeat split; try reflexivity.
      exists (deploymentState o1 :: a). split; [|exact Hadded].
      unfold o1, update; simpl. rewrite <- app_assoc. reflexivity.
    + specialize (IH (i + 1) o2). cbv zeta in IH.
      destruct IH as (He' & Hc' & Hp' & Hts' & (a' & Ha' & Hf')).
      rewrite He', Hc', Hp', Hts', He, Hc, Hp, Hts, Ha', Ha.
      repeat split; try reflexivity.
      exists ((deploymentState o1 :: a) ++ a'). split.
      * unfold o1, update; simpl. rewrite <- !app_assoc. reflexivity.
      * apply Forall_app. split; [exact Hadded|].
        eapply Forall_impl; [|exact Hf']. intros d (Hd1 & Hd2 & Hd3).
        rewrite Hd1, Hd2, Hp, Hts. simpl. repeat split; lia.
Qed.

(** How the loop ends.  Either every step returned, or the step of index
    [j] threw: then [handleDeploymentFailure] ran with [j], and
    [currentStep] stays at [j + 1]. *)
Lemma deploy_loop_outcome w todo : forall i o o' r,
  deploy_loop w i todo o = (o', r) ->
  exists oa evs,
    trace oa = trace o ++ evs /\ forallb step_event evs = true
    /\ match r with
       | None => o' = oa
       | Some (j, msg) =>
           i <= j < i + Js.len todo
           /\ currentStep (deploymentState o') = j + 1
           /\ o' = handleDeploymentFailure j oa
           /\ exists s ob,
                nth_error todo (Z.to_nat (j - i)) = Some s
                /\ run_step w s ob = (oa, Some msg)
       end.
Proof.
  induction todo as [|s rest IH]; intros i o o' r; cbn [deploy_loop].
  - intros H. injection H as <- <-. exists o, []. rewrite app_nil_r. auto.
  - set (o1 := update (set_currentStep (i + 1)) o).
    pose proof (run_step_frame w s o1) as (_ & _ & Hh & _ & (evs & Ht & Hs)).
    apply header_eq in Hh. destruct Hh as (_ & Hcs & _).
    assert (Hlen : Js.len (s :: rest) = Js.len rest + 1)
      by (unfold Js.len; simpl List.length; lia).
    assert (Hrest : 0 <= Js.len rest) by (unfold Js.len; lia).
    destruct (run_step w s o1) as [o2 [msg|]] eqn:Hstep; cbn [fst] in *.
    + intros H. injection H as <- <-.
      exists o2, evs. split; [exact Ht|]. split; [exact Hs|].
      destruct (handleDeploymentFailure_spec i o2) as (_ & _ & Hd & _).
      split; [lia|]. split; [rewrite Hd, Hcs; reflexivity|]. split; [reflexivity|].
      exists s, o1. rewrite Z.sub_diag. split; [reflexivity | exact Hstep].
    + intros H. destruct (IH (i + 1) o2 o' r H) as (oa & evs' & Ht' & Hs' & Hr).
      exists oa, (evs ++ evs'). split; [rewrite Ht', Ht, app_assoc; reflexivity|].
      split; [rewrite forallb_app, Hs, Hs'; reflexivity|].
      destruct r as [[j msg]|]; [|exact Hr].
      destruct Hr as (Hj & Hcur & Ho' & (s' & ob & Hnth & Hrun)).
      split; [lia|]. split; [exact Hcur|]. split; [exact Ho'|].
      exists s', ob. split; [|exact Hrun].
      replace (Z.to_nat (j - i)) with (S (Z.to_nat (j - (i + 1)))) by lia.
      exact Hnth.
Qed.

Lemma step_events_no_rollback evs :
  forallb step_event evs = true -> ~ In EvRollbackInitiated evs.
Proof.
  intros H Hin. rewrite forallb_forall in H. specialize (H _ Hin). discriminate.
Qed.

(** The end of [deploy], from the end of its loop. *)
Lemma deploy_outcome w o :
  match deploy_loop w 0 steps (started o) with
  | (o', None) => deploy w o = (o', None)
  | (o', Some (_, msg)) => deploy w o = (deploymentFailure msg o', Some msg)
  end.
Proof.
  unfold deploy, started.
  destruct (deploy_loop w 0 steps _) as [o' [[j msg]|]]; reflexivity.
Qed.

(** In a world whose configuration file is absent or parses, the
    constructor returns the orchestrator that the runs start from. *)
Lemma new_orchestrator_constructor w env :
  new_orchestrator (config_file w) env = inl (constructor w env).
Proof.
  unfold new_orchestrator, config_file, constructor.
  destruct (loaded_config w); reflexivity.
Qed.

Lemma main_outcome w args :
  includes validEnvironments (main_environment args) = true ->
  let r := deploy w (constructor w (Some (main_environment args))) in
  ran (main w args) = Some (fst r)
  /\ exit_code (main w args) = match snd r with None => 0 | Some _ => 1 end.
Proof.
  intros Hvalid. unfold main, cli. rewrite Hvalid, new_orchestrator_constructor. cbn [negb].
  destruct (deploy w _) as [o [msg|]]; auto.
Qed.

(** What [deploy] does with the outcome of its loop, for an orchestrator
    that has emitted nothing yet. *)
Lemma deploy_result w o0 :
  trace o0 = [] ->
  let final := fst (deploy w o0) in
  match snd (deploy_loop w 0 steps (started o0)) with
  | None => snd (deploy w o0) = None /\ ~ rollback_invoked final
  | Some (j, msg) =>
      1 <= j + 1 <= 7
      /\ (exists s ob oa,
            nth_error steps (Z.to_nat j) = Some s /\ run_step w s ob = (oa, Some msg))
      /\ (rollback_invoked final <-> 3 <= j + 1)
      /\ snd (deploy w o0) = Some msg
      /\ last (trace final) EvRollbackInitiated
         = EvFailureRecord msg (services (deploymentState final))
  end.
Proof.
  intros Htrace0 final. subst final.
  pose proof (deploy_outcome w o0) as Hdeploy.
  assert (Hstarted : trace (started o0) = []) by exact Htrace0.
  destruct (deploy_loop w 0 steps (started o0)) as [o' r] eqn:Hloop.
  destruct (deploy_loop_outcome w steps 0 (started o0) o' r Hloop)
    as (oa & evs & Ht & Hs & Hr).
  rewrite Hstarted in Ht. cbn [app] in Ht. cbn [snd].
  destruct r as [[j msg]|]; rewrite Hdeploy; cbn [fst snd].
  - destruct Hr as (Hj & _ & Ho' & (s & ob & Hnth & Hrun)).
    change (Js.len steps) with 7 in Hj. rewrite Z.sub_0_r in Hnth.
    destruct (handleDeploymentFailure_spec j oa) as (_ & _ & _ & _ & Hlow & Hhigh).
    rewrite <- Ho' in Hlow, Hhigh.
    split; [lia|]. split; [exists s, ob, oa; auto|].
    split; [|split; [reflexivity|]].
    + unfold rollback_invoked, deploymentFailure, createFailureRecord, emit.
      cbn [trace]. split.
      * intros Hin. destruct (Z.lt_ge_cases j 2) as [Hlt|Hge]; [|lia].
        exfalso. rewrite (Hlow Hlt), Ht in Hin.
        apply in_app_or in Hin as [Hin | [Hin | []]]; [|discriminate].
        exact (step_events_no_rollback evs Hs Hin).
      * intros Hge. rewrite Hhigh by lia.
        apply in_or_app. left. apply in_or_app. right. left. reflexivity.
    + unfold deploymentFailure, createFailureRecord, emit.
      cbn [trace deploymentState]. apply last_last.
  - subst o'. split; [reflexivity|].
    unfold rollback_invoked. rewrite Ht. apply step_events_no_rollback. exact Hs.
Qed.

(** ** Failure handling *)

(** C3. Rollback is invoked exactly when a step threw and its 1-based index
    is at least 3.  A failure of validate-environment (step 1) or of
    pre-deployment-checks (step 2) invokes no rollback.  Whatever step
    threw, [deploy] throws the same error after writing the failure record,
    and the process exits with code 1. *)
Theorem C3_rollback_iff_failed_step_at_least_3 w args :
  includes validEnvironments (main_environment args) = true ->
  let o0 := constructor w (Some (main_environment args)) in
  let final := fst (deploy w o0) in
  match snd (deploy_loop w 0 steps (started o0)) with
  | None =>
      snd (deploy w o0) = None /\ ~ rollback_invoked final /\ exit_code (main w args) = 0
  | Some (j, msg) =>
      1 <= j + 1 <= 7
      /\ (exists s ob oa,
            nth_error steps (Z.to_nat j) = Some s /\ run_step w s ob = (oa, Some msg))
      /\ (rollback_invoked final <-> 3 <= j + 1)
      /\ snd (deploy w o0) = Some msg
      /\ last (trace final) EvRollbackInitiated
         = EvFailureRecord msg (services (deploymentState final))
      /\ exit_code (main w args) = 1
  end
  /\ (validateEnvironment_outcome w <> None -> ~ rollback_invoked final)
  /\ (validateEnvironment_outcome w = None ->
      runPreDeploymentChecks_outcome w <> None -> ~ rollback_invoked final).
Proof.
  intros Hvalid o0 final.
  destruct (main_outcome w args Hvalid) as [_ Hexit]. fold o0 in Hexit.
  pose proof (deploy_result w o0 eq_refl) as Hres. cbv zeta in Hres. fold final in Hres.
  split; [|split].
  - destruct (snd (deploy_loop w 0 steps (started o0))) as [[j msg]|].
    + destruct Hres as (Hj & Hstep & Hiff & Hthrown & Hrecord).
      rewrite Hthrown in Hexit. auto 10.
    + destruct Hres as (Hnone & Hno). rewrite Hnone in Hexit. auto.
  - intros Hfail. destruct (validateEnvironment_outcome w) as [msg|] eqn:E; [|congruence].
    assert (Hloop : snd (deploy_loop w 0 steps (started o0)) = Some (0, msg))
      by (cbn [deploy_loop steps run_step]; rewrite E; reflexivity).
    rewrite Hloop in Hres. destruct Hres as (_ & _ & Hiff & _).
    intros Hin. apply Hiff in Hin. lia.
  - intros Hok Hfail.
    destruct (runPreDeploymentChecks_outcome w) as [msg|] eqn:E; [|congruence].
    assert (Hloop : snd (deploy_loop w 0 steps (started o0)) = Some (1, msg))
      by (cbn [deploy_loop steps run_step]; rewrite Hok, E; reflexivity).
    rewrite Hloop in Hres. destruct Hres as (_ & _ & Hiff & _).
    intros Hin. apply Hiff in Hin. lia.
Qed.

(** A production run whose frontend build fails (step 3), and a run that
    fails in step 1. *)
Lemma C3_rollback_witness :
  includes validEnvironments (main_environment ["production"]) = true
  /\ snd (deploy frontend_build_fails (constructor frontend_build_fails (Some "production")))
     = Some "Failed to deploy frontend: Command failed: cd frontend && npm run build"
  /\ rollback_invoked
       (fst (deploy frontend_build_fails (constructor frontend_build_fails (Some "production"))))
  /\ exit_code (main frontend_build_fails ["production"]) = 1
  /\ ~ rollback_invoked (fst (deploy tool_missing (constructor tool_missing (Some "staging")))).
Proof.
  assert (Hprod : includes validEnvironments (main_environment ["production"]) = true)
    by reflexivity.
  assert (Hdefault : includes validEnvironments (main_environment []) = true)
    by reflexivity.
  destruct (C3_rollback_iff_failed_step_at_least_3 frontend_build_fails ["production"] Hprod)
    as (Hmain & _).
  destruct (C3_rollback_iff_failed_step_at_least_3 tool_missing [] Hdefault)
    as (_ & Hfirst & _).
  assert (Hloop :
    snd (deploy_loop frontend_build_fails 0 steps
           (started (constructor frontend_build_fails (Some (main_environment ["production"])))))
    = Some (2, "Failed to deploy frontend: Command failed: cd frontend && npm run build"))
    by (vm_compute; reflexivity).
  rewrite Hloop in Hmain. destruct Hmain as (_ & _ & Hiff & Hthrown & _ & Hexit).
  split; [exact Hprod|]. split; [exact Hthrown|].
  split; [apply Hiff; lia|]. split; [exact Hexit|].
  apply Hfirst. discriminate.
Defined.

(** ** Progress tracking *)

Lemma nondecreasing_from_weaken lo lo' l :
  lo' <= lo -> nondecreasing_from lo l -> nondecreasing_from lo' l.
Proof. destruct l as [|x l]; simpl; [auto|]. intros Hle [Hx Hl]. split; [lia | exact Hl]. Qed.

Lemma nondecreasing_from_app l1 : forall lo hi l2,
  nondecreasing_from lo l1 -> (forall x, In x l1 -> x <= hi) -> lo <= hi ->
  nondecreasing_from hi l2 -> nondecreasing_from lo (l1 ++ l2).
Proof.
  induction l1 as [|x l1 IH]; intros lo hi l2 H1 Hhi Hle H2; simpl in *.
  - apply (nondecreasing_from_weaken hi); assumption.
  - destruct H1 as [Hx H1]. split; [exact Hx|].
    apply (IH x hi); auto.
Qed.

Lemma nondecreasing_from_constant c (l : list DeploymentState) :
  Forall (fun d => currentStep d = c) l -> nondecreasing_from c (List.map currentStep l).
Proof.
  induction 1 as [|d l Hd Hl IH]; simpl; [exact I|].
  rewrite Hd. split; [lia | exact IH].
Qed.

(** [currentStep] never goes back during the loop. *)
Lemma deploy_loop_monotone w todo : forall i o,
  exists added,
    history (fst (deploy_loop w i todo o)) = history o ++ added
    /\ nondecreasing_from (i + 1) (List.map currentStep added)
    /\ forall x, In x (List.map currentStep added) -> i + 1 <= x.
Proof.
  induction todo as [|s rest IH]; intros i o; cbn [deploy_loop fst].
  - exists []. rewrite app_nil_r. simpl. split; [reflexivity|split; [exact I|tauto]].
  - set (o1 := update (set_currentStep (i + 1)) o).
    pose proof (run_step_frame w s o1) as (_ & _ & _ & (a & Ha & Hf) & _).
    assert (Hconst : Forall (fun d => currentStep d = i + 1) (deploymentState o1 :: a)).
    { constructor; [reflexivity|].
      eapply Forall_impl; [|exact Hf]. intros d Hd. apply header_eq in Hd.
      destruct Hd as (_ & -> & _). reflexivity. }
    assert (Hin : forall x, In x (List.map currentStep (deploymentState o1 :: a)) -> x = i + 1).
    { intros x Hx. apply in_map_iff in Hx as (d & <- & Hd).
      rewrite Forall_forall in Hconst. apply Hconst. exact Hd. }
    assert (Hhist : history o1 = history o ++ [deploymentState o1]) by reflexivity.
    destruct (run_step w s o1) as [o2 [msg|]]; cbn [fst] in *.
    + destruct (handleDeploymentFailure_spec i o2) as (_ & _ & _ & Hh & _).
      exists (deploymentState o1 :: a). rewrite Hh, Ha, Hhist, <- app_assoc.
      split; [reflexivity|]. split; [apply nondecreasing_from_constant; exact Hconst|].
      intros x Hx. rewrite (Hin x Hx). lia.
    + destruct (IH (i + 1) o2) as (a' & Ha' & Hnd & Hlow).
      exists ((deploymentState o1 :: a) ++ a').
      rewrite Ha', Ha, Hhist, <- !app_assoc. split; [reflexivity|].
      rewrite map_app. split.
      * apply (nondecreasing_from_app _ (i + 1) (i + 1)).
        -- apply nondecreasing_from_constant. exact Hconst.
        -- intros x Hx. rewrite (Hin x Hx). lia.
        -- lia.
        -- apply (nondecreasing_from_weaken (i + 1 + 1)); [lia | exact Hnd].
      * intros x Hx. apply in_app_or in Hx as [Hx | Hx].
        -- rewrite (Hin x Hx). lia.
        -- specialize (Hlow x Hx). lia.
Qed.

Lemma deploy_loop_completed w todo : forall i o o',
  deploy_loop w i todo o = (o', None) -> todo <> [] ->
  currentStep (deploymentState o') = i + Js.len todo.
Proof.
  induction todo as [|s rest IH]; intros i o o' Hloop Hne; [congruence|].
  cbn [deploy_loop] in Hloop.
  set (o1 := update (set_currentStep (i + 1)) o) in *.
  pose proof (run_step_frame w s o1) as (_ & _ & Hh & _).
  apply header_eq in Hh. destruct Hh as (_ & Hcs & _).
  destruct (run_step w s o1) as [o2 [msg|]]; [discriminate|]. cbn [fst] in *.
  assert (Hlen : Js.len (s :: rest) = Js.len rest + 1)
    by (unfold Js.len; simpl List.length; lia).
  destruct rest as [|s' rest'].
  - cbn [deploy_loop] in Hloop. injection Hloop as <-. rewrite Hcs. reflexivity.
  - rewrite (IH (i + 1) o2 o' Hloop) by discriminate. lia.
Qed.

Lemma step_method_not_started s : "started" <> step_method s.
Proof. destruct s; discriminate. Qed.

Lemma step_method_not_initialized s : "initialized" <> step_method s.
Proof. destruct s; discriminate. Qed.

(** C9, as the code has it.  Throughout a run [currentStep] never exceeds
    [totalSteps], which is 0 until [deploy] sets it to 7 before the first
    step, and [currentStep] never decreases.  [phase] is "initialized" after
    construction and "started" from the beginning of [deploy] to the end of
    the run: it never names a pipeline stage.  At the end of the run [phase]
    is "started" and [totalSteps] is 7; [currentStep] is the 1-based index of
    the step that threw, or 7 when every step returned. *)
Theorem C9_current_step_bounded_phase_started w env :
  let o0 := constructor w env in
  let final := fst (deploy w o0) in
  Forall well_tracked (history final)
  /\ nondecreasing_from 0 (List.map currentStep (history final))
  /\ Forall (fun d => forall s, phase d <> step_method s) (history final)
  /\ phase (deploymentState final) = "started"
  /\ totalSteps (deploymentState final) = 7
  /\ currentStep (deploymentState final)
     = match snd (deploy_loop w 0 steps (started o0)) with
       | Some (j, _) => j + 1
       | None => 7
       end.
Proof.
  intros o0 final.
  pose proof (deploy_outcome w o0) as Hdeploy.
  pose proof (deploy_loop_progress w steps 0 (started o0)) as Hprog.
  destruct (deploy_loop_monotone w steps 0 (started o0)) as (added' & Hhist' & Hnd & _).
  cbv zeta in Hprog. destruct Hprog as (_ & _ & Hp & Hts & (added & Hhist & Hall)).
  rewrite Hhist in Hhist'. apply app_inv_head in Hhist'. subst added'.
  change (Js.len steps) with 7 in Hall.
  change (phase (deploymentState (started o0))) with "started" in *.
  change (totalSteps (deploymentState (started o0))) with 7 in *.
  change (history (started o0))
    with [initial_state; set_phase "started" initial_state;
          set_totalSteps 7 (set_phase "started" initial_state)] in *.
  assert (Hfinal : deploymentState final = deploymentState (fst (deploy_loop w 0 steps (started o0)))
                   /\ history final = history (fst (deploy_loop w 0 steps (started o0)))).
  { subst final. destruct (deploy_loop w 0 steps (started o0)) as [o' [[j msg]|]];
      rewrite Hdeploy; split; reflexivity. }
  destruct Hfinal as [Hds Hh]. rewrite Hds, Hh, Hhist.
  split; [|split; [|split; [|split; [exact Hp|split; [exact Hts|]]]]].
  - apply Forall_app. split.
    + repeat constructor; simpl; auto; lia.
    + eapply Forall_impl; [|exact Hall]. intros d (Hd1 & Hd2 & Hd3).
      unfold well_tracked. rewrite Hd1, Hd2. repeat split; auto; lia.
  - rewrite map_app. apply (nondecreasing_from_app _ 0 0).
    + simpl. repeat split; lia.
    + simpl. intros x [<-|[<-|[<-|[]]]]; lia.
    + lia.
    + apply (nondecreasing_from_weaken (0 + 1)); [lia | exact Hnd].
  - apply Forall_app. split.
    + repeat constructor; simpl; intros s;
        (apply step_method_not_initialized || apply step_method_not_started).
    + eapply Forall_impl; [|exact Hall]. intros d (Hd1 & _) s. rewrite Hd1.
      apply step_method_not_started.
  - destruct (deploy_loop w 0 steps (started o0)) as [o' [[j msg]|]] eqn:Hloop; cbn [fst snd].
    + destruct (deploy_loop_outcome w steps 0 (started o0) o' _ Hloop)
        as (oa & evs & _ & _ & (_ & Hcur & _)). exact Hcur.
    + rewrite (deploy_loop_completed w steps 0 (started o0) o' Hloop) by discriminate.
      reflexivity.
Qed.

(** C9 as stated fails: in a run whose fourth stage, the health checks,
    fails, [phase] reads "started" at the end, as it did during each of the
    four stages, while [currentStep] advanced from 1 to 4; "started" is not
    the name of the stage that failed. *)
Lemma C9_phase_does_not_name_the_stage :
  let final := fst (deploy frontend_unhealthy (constructor frontend_unhealthy (Some "staging"))) in
  snd (deploy frontend_unhealthy (constructor frontend_unhealthy (Some "staging")))
    = Some "Health check failed for frontend after 3 attempts"
  /\ currentStep (deploymentState final) = 4
  /\ nth_error steps 3 = Some RunHealthChecks
  /\ phase (deploymentState final) = "started"
  /\ phase (deploymentState final) <> step_method RunHealthChecks
  /\ List.map (fun d => (phase d, currentStep d)) (history final)
     = [ ("initialized", 0); ("started", 0); ("started", 0); ("started", 1);
         ("started", 2); ("started", 3); ("started", 3); ("started", 3); ("started", 4) ].
Proof. vm_compute. repeat split; discriminate. Qed.

(** ** Command line *)

Lemma includes_In l x : includes l x = true <-> In x l.
Proof.
  unfold includes. rewrite existsb_exists. split.
  - intros (y & Hin & Heq). apply String.eqb_eq in Heq. subst. exact Hin.
  - intros Hin. exists x. split; [exact Hin | apply String.eqb_refl].
Qed.




(** ** Deployment order and rollback order *)

Lemma map_keys_set_new {V} k (v : V) (m : Js.map V) :
  ~ In k (Js.map_keys m) -> Js.map_keys (Js.map_set k v m) = Js.map_keys m ++ [k].
Proof.
  unfold Js.map_keys.
  induction m as [|[k' v'] rest IH]; simpl; intros Hnotin; [reflexivity|].
  destruct (String.eqb k' k) eqn:E.
  - apply String.eqb_eq in E. exfalso. apply Hnotin. left. exact E.
  - simpl. f_equal. apply IH. intros Hin. apply Hnotin. right. exact Hin.
Qed.

(** Closes the goals of [deployService_quiet]: the deployment state is the
    same and the trace grew by shell commands only. *)
Ltac only_commands :=
  split; [reflexivity|];
  first [ exists []; rewrite app_nil_r; split; reflexivity
        | eexists; split; [unfold emit; cbn [trace]; rewrite <- ?app_assoc; reflexivity
                          | reflexivity] ].

Lemma deployService_quiet w serviceName o :
  let o' := fst (deployService w serviceName o) in
  deploymentState o' = deploymentState o
  /\ exists evs, trace o' = trace o ++ evs /\ deploy_calls evs = [].
Proof.
  unfold deployService, deployBackend, deployFrontend, deployBackendToProduction,
    deployFrontendToProduction, execSync, is_production.
  cbv zeta.
  destruct (String.eqb serviceName "backend").
  - destruct (execSync_outcome w "cd backend && npm ci --production"); cbn [fst];
      [only_commands|].
    destruct (execSync_outcome w "cd backend && npm test");
      cbn [environment emit]; destruct (String.eqb (environment o) "production");
      cbn [fst]; only_commands.
  - destruct (String.eqb serviceName "frontend"); [|cbn [fst]; only_commands].
    destruct (execSync_outcome w "cd frontend && npm ci"); cbn [fst]; [only_commands|].
    destruct (execSync_outcome w "cd frontend && npm run build"); cbn [fst];
      [only_commands|].
    cbn [environment emit]. destruct (String.eqb (environment o) "production");
      cbn [fst]; only_commands.
Qed.

Lemma deploy_calls_app t1 t2 : deploy_calls (t1 ++ t2) = deploy_calls t1 ++ deploy_calls t2.
Proof. apply flat_map_app. Qed.

(** The services that [deployServices] records are those whose deployment
    it started, in that order; each is an enabled entry of the
    configuration. *)
Lemma deployServices_loop_order w entries : forall o,
  NoDup (List.map fst entries) ->
  (forall n, In n (List.map fst entries) ->
             ~ In n (Js.map_keys (services (deploymentState o)))) ->
  let o' := fst (deployServices_loop w entries o) in
  exists order,
    deploy_calls (trace o') = deploy_calls (trace o) ++ order
    /\ Js.map_keys (services (deploymentState o'))
       = Js.map_keys (services (deploymentState o)) ++ order
    /\ forall n, In n order -> exists sc, In (n, sc) entries /\ enabled sc = true.
Proof.
  induction entries as [|[serviceName serviceConfig] rest IH]; intros o Hnd Hfresh;
    cbn [deployServices_loop].
  - exists []. rewrite !app_nil_r. cbn [fst]. split; [reflexivity|split; [reflexivity|]].
    intros n [].
  - cbn [List.map fst] in Hnd, Hfresh. inversion Hnd as [|? ? Hnotin Hnd']; subst.
    destruct (enabled serviceConfig) eqn:Hen; cbn [negb].
    + pose proof (deployService_quiet w serviceName (emit (EvDeployingService serviceName) o))
        as Hq. cbv zeta in Hq.
      destruct (deployService w serviceName _) as [o1 r]; cbn [fst] in Hq.
      destruct Hq as (Hds & evs & Ht & Hcalls).
      cbn [deploymentState emit trace] in Hds, Ht.
      assert (Hnew : ~ In serviceName (Js.map_keys (services (deploymentState o1))))
        by (rewrite Hds; apply Hfresh; left; reflexivity).
      destruct r as [msg|].
      * exists [serviceName]. cbn [fst update deploymentState set_service services trace].
        rewrite (map_keys_set_new _ _ _ Hnew), Hds, Ht, !deploy_calls_app, Hcalls.
        cbn. rewrite app_nil_r.
        split; [reflexivity|split; [reflexivity|]].
        intros n [<-|[]]. exists serviceConfig. split; [left; reflexivity|exact Hen].
      * match goal with
        | |- context [deployServices_loop w rest ?o2] =>
            destruct (IH o2 Hnd') as (order & Hcalls' & Hkeys & Hen')
        end.
        { intros n Hn. cbn [update deploymentState set_service services].
          rewrite (map_keys_set_new _ _ _ Hnew), Hds. intros Hin.
          apply in_app_or in Hin as [Hin | [<- | []]].
          - exact (Hfresh n (or_intror Hn) Hin).
          - exact (Hnotin Hn). }
        exists (serviceName :: order). rewrite Hcalls', Hkeys.
        cbn [update deploymentState set_service services trace].
        rewrite (map_keys_set_new _ _ _ Hnew), Hds, Ht, !deploy_calls_app, Hcalls.
        cbn. rewrite app_nil_r, <- !app_assoc.
        split; [reflexivity|split; [reflexivity|]].
        intros n [<-|Hn].
        -- exists serviceConfig. split; [left; reflexivity|exact Hen].
        -- destruct (Hen' n Hn) as (sc & Hin & Hsc). exists sc. split; [right; exact Hin|exact Hsc].
    + destruct (IH o Hnd') as (order & Hcalls' & Hkeys & Hen').
      { intros n Hn. apply Hfresh. right. exact Hn. }
      exists order. split; [exact Hcalls'|split; [exact Hkeys|]].
      intros n Hn. destruct (Hen' n Hn) as (sc & Hin & Hsc).
      exists sc. split; [right; exact Hin|exact Hsc].
Qed.

(** Rollback run on the record that the deploy phase leaves: it goes through
    the recorded services in the reverse of the order in which they were
    deployed and calls the per-service rollback for those, and only those,
    whose recorded status is [deployed]. *)
Lemma rollback_after_deploy_phase w o o2 :
  services (deploymentState o) = [] ->
  NoDup (List.map fst (cfg_services (config o))) ->
  let o1 := fst (deployServices w o) in
  services (deploymentState o2) = services (deploymentState o1) ->
  exists order,
    deploy_calls (trace o1) = deploy_calls (trace o) ++ order
    /\ Js.map_keys (services (deploymentState o1)) = order
    /\ trace (rollback o2)
       = trace o2 ++ EvRollbackInitiated
           :: List.map EvRollbackService
                (rev (filter (recorded_deployed (services (deploymentState o1))) order))
    /\ forall n,
         In n (rev (filter (recorded_deployed (services (deploymentState o1))) order))
         <-> In n order
             /\ exists r, Js.map_get n (services (deploymentState o1)) = Some r
                          /\ status r = Deployed.
Proof.
  intros Hempty Hnd o1 Hsame.
  destruct (deployServices_loop_order w (cfg_services (config o)) o Hnd) as
    (order & Hcalls & Hkeys & _).
  { rewrite Hempty. intros n _ []. }
  fold (deployServices w o) in Hcalls, Hkeys. fold o1 in Hcalls, Hkeys.
  rewrite Hempty in Hkeys. cbn [Js.map_keys List.map app] in Hkeys.
  exists order. split; [exact Hcalls|]. split; [exact Hkeys|]. split.
  - destruct (rollback_spec o2) as (_ & _ & _ & _ & ->).
    rewrite Hsame, Hkeys, filter_rev. reflexivity.
  - intros n. rewrite <- in_rev, filter_In. unfold recorded_deployed, is_deployed.
    split; intros [Hin H]; (split; [exact Hin|]).
    + destruct (Js.map_get n (services (deploymentState o1))) as [r|]; [|discriminate].
      exists r. destruct (status r); [auto|discriminate].
    + destruct H as (r & -> & ->). reflexivity.
Qed.

(** ** Health checks with retries *)

(** The loop for one service needs no more fuel than
    [maxAttempts - attempts]. *)
Lemma healthCheck_attempts_fuel w serviceName maxAttempts : forall fuel attempts o,
  (Z.to_nat (maxAttempts - attempts) <= fuel)%nat ->
  healthCheck_attempts fuel w serviceName attempts maxAttempts o
  = healthCheck_attempts (Z.to_nat (maxAttempts - attempts)) w serviceName attempts
      maxAttempts o.
Proof.
  induction fuel as [|fuel IH]; intros attempts o Hfuel.
  - replace (Z.to_nat (maxAttempts - attempts)) with 0%nat by lia. reflexivity.
  - destruct (attempts <? maxAttempts) eqn:E.
    + assert (Hlt : attempts < maxAttempts) by (apply Z.ltb_lt; exact E).
      replace (Z.to_nat (maxAttempts - attempts))
        with (S (Z.to_nat (maxAttempts - (attempts + 1)))) by lia.
      cbn [healthCheck_attempts]. rewrite E.
      destruct (healthCheckService w serviceName (attempts + 1)); [|reflexivity].
      destruct (attempts + 1 =? maxAttempts); [reflexivity|].
      apply IH. lia.
    + cbn [healthCheck_attempts]. rewrite E.
      apply Z.ltb_ge in E.
      replace (Z.to_nat (maxAttempts - attempts)) with 0%nat by lia. reflexivity.
Qed.

Lemma attempts_exhausted w serviceName maxAttempts : forall fuel attempts o,
  0 <= attempts < maxAttempts ->
  (Z.to_nat (maxAttempts - attempts) <= fuel)%nat ->
  (forall k, attempts < k <= maxAttempts -> healthCheckService w serviceName k <> None) ->
  snd (healthCheck_attempts fuel w serviceName attempts maxAttempts o)
  = Some ("Health check failed for " +++ serviceName +++ " after "
            +++ string_of_Z maxAttempts +++ " attempts").
Proof.
  induction fuel as [|fuel IH]; intros attempts o Hrange Hfuel Hfail; [lia|].
  cbn [healthCheck_attempts].
  replace (attempts <? maxAttempts) with true by (symmetry; apply Z.ltb_lt; lia).
  destruct (healthCheckService w serviceName (attempts + 1)) as [msg|] eqn:Hcheck.
  - destruct (attempts + 1 =? maxAttempts) eqn:E; [reflexivity|].
    apply Z.eqb_neq in E. apply IH; [lia | lia |].
    intros k Hk. apply Hfail. lia.
  - exfalso. apply (Hfail (attempts + 1)); [lia | exact Hcheck].
Qed.

Lemma attempts_pass w serviceName maxAttempts : forall fuel attempts o,
  (exists k, attempts < k <= maxAttempts /\ healthCheckService w serviceName k = None) ->
  (Z.to_nat (maxAttempts - attempts) <= fuel)%nat ->
  snd (healthCheck_attempts fuel w serviceName attempts maxAttempts o) = None.
Proof.
  induction fuel as [|fuel IH]; intros attempts o (k & Hk & Hok) Hfuel; [lia|].
  cbn [healthCheck_attempts].
  replace (attempts <? maxAttempts) with true by (symmetry; apply Z.ltb_lt; lia).
  destruct (healthCheckService w serviceName (attempts + 1)) as [msg|] eqn:Hcheck;
    [|reflexivity].
  assert (Hnext : k <> attempts + 1) by (intros ->; congruence).
  destruct (attempts + 1 =? maxAttempts) eqn:E.
  - apply Z.eqb_eq in E. lia.
  - apply IH; [|lia]. exists k. split; [lia | exact Hok].
Qed.

(** The phase stops at the first service that exhausts its attempts, when
    the services before it pass (every name being a configured, enabled
    service). *)
Lemma runHealthChecks_loop_fails w failing after : forall before o,
  let maxAttempts := healthCheckRetries (deployment (config o)) in
  1 <= maxAttempts ->
  (forall n, In n (before ++ failing :: after) ->
             exists sc, service_config (config o) n = Some sc /\ enabled sc = true) ->
  (forall n, In n before -> passes w n maxAttempts) ->
  exhausts w failing maxAttempts ->
  snd (runHealthChecks_loop w (before ++ failing :: after) o)
  = Some ("Health check failed for " +++ failing +++ " after "
            +++ string_of_Z maxAttempts +++ " attempts").
Proof.
  induction before as [|n before IH]; intros o maxAttempts Hmax Hcfg Hpass Hfail;
    cbn [app runHealthChecks_loop].
  - destruct (Hcfg failing (or_introl eq_refl)) as (sc & -> & ->). cbn [negb].
    fold maxAttempts.
    pose proof (attempts_exhausted w failing maxAttempts (Z.to_nat maxAttempts) 0 o) as H.
    destruct (healthCheck_attempts _ _ _ _ _ _) as [o1 r]. cbn [snd] in H.
    rewrite H; [reflexivity | lia | lia |].
    intros k Hk. apply Hfail. lia.
  - destruct (Hcfg n (or_introl eq_refl)) as (sc & -> & ->). cbn [negb].
    fold maxAttempts.
    pose proof (attempts_pass w n maxAttempts (Z.to_nat maxAttempts) 0 o) as H.
    pose proof (healthCheck_attempts_frame (Z.to_nat maxAttempts) w n 0 maxAttempts o)
      as (_ & Hc & _).
    destruct (healthCheck_attempts _ _ _ _ _ _) as [o1 r]. cbn [fst snd] in H, Hc.
    rewrite H.
    + specialize (IH o1). cbv zeta in IH. rewrite Hc in IH.
      apply IH;
        [ exact Hmax
        | intros m Hm; apply Hcfg; right; exact Hm
        | intros m Hm; apply Hpass; right; exact Hm
        | exact Hfail ].
    + destruct (Hpass n (or_introl eq_refl)) as (k & Hk & Hok).
      exists k. split; [lia | exact Hok].
    + lia.
Qed.

Lemma runHealthChecks_loop_passes w : forall names o,
  let maxAttempts := healthCheckRetries (deployment (config o)) in
  (forall n, In n names ->
             (exists sc, service_config (config o) n = Some sc) /\ passes w n maxAttempts) ->
  snd (runHealthChecks_loop w names o) = None.
Proof.
  induction names as [|n names IH]; intros o maxAttempts Hall; cbn [runHealthChecks_loop];
    [reflexivity|].
  destruct (Hall n (or_introl eq_refl)) as ((sc & ->) & (k & Hk & Hok)).
  destruct (negb (enabled sc)).
  - apply IH. intros m Hm. apply Hall. right. exact Hm.
  - fold maxAttempts.
    pose proof (attempts_pass w n maxAttempts (Z.to_nat maxAttempts) 0 o) as H.
    pose proof (healthCheck_attempts_frame (Z.to_nat maxAttempts) w n 0 maxAttempts o)
      as (_ & Hc & _).
    destruct (healthCheck_attempts _ _ _ _ _ _) as [o1 r]. cbn [fst snd] in H, Hc.
    rewrite H.
    + specialize (IH o1). cbv zeta in IH. rewrite Hc in IH.
      apply IH. intros m Hm. apply Hall. right. exact Hm.
    + exists k. split; [lia | exact Hok].
    + lia.
Qed.

Lemma deploy_loop_app w l1 l2 : forall i o,
  deploy_loop w i (l1 ++ l2) o
  = match deploy_loop w i l1 o with
    | (o', None) => deploy_loop w (i + Js.len l1) l2 o'
    | (o', Some e) => (o', Some e)
    end.
Proof.
  induction l1 as [|s l1 IH]; intros i o; cbn [app deploy_loop].
  - change (Js.len (@nil Step)) with 0. rewrite Z.add_0_r. reflexivity.
  - destruct (run_step w s _) as [o2 [msg|]]; [reflexivity|].
    rewrite IH. replace (i + Js.len (s :: l1)) with (i + 1 + Js.len l1)
      by (unfold Js.len; simpl List.length; lia).
    reflexivity.
Qed.

(** After the first three steps have returned, the recorded services are
    configured and enabled, and the configuration is the one loaded. *)
Lemma after_deploy_phase w o0 o3 :
  services (deploymentState o0) = [] ->
  NoDup (List.map fst (cfg_services (config o0))) ->
  deploy_loop w 0 [ValidateEnvironment; RunPreDeploymentChecks; DeployServices] (started o0)
    = (o3, None) ->
  config o3 = config o0
  /\ forall n, In n (Js.map_keys (services (deploymentState o3))) ->
               exists sc, service_config (config o0) n = Some sc /\ enabled sc = true.
Proof.
  intros Hempty Hnd Hloop. cbn [deploy_loop run_step] in Hloop.
  destruct (validateEnvironment_outcome w); [discriminate|].
  destruct (runPreDeploymentChecks_outcome w); [discriminate|].
  unfold deployServices in Hloop.
  match type of Hloop with
  | context [deployServices_loop w ?entries ?o2] =>
      pose proof (deployServices_loop_frame w entries o2) as (_ & Hc & _);
      destruct (deployServices_loop_order w (cfg_services (config o0)) o2 Hnd)
        as (order & _ & Hkeys & Hen);
      [cbn; rewrite Hempty; intros n _ [] |];
      change entries with (cfg_services (config o0)) in *;
      destruct (deployServices_loop w (cfg_services (config o0)) o2) as [o3' [msg|]];
      [discriminate|]
  end.
  cbn [deploy_loop] in Hloop. injection Hloop as <-. cbn [fst] in *.
  split; [exact Hc|].
  cbn [update deploymentState set_currentStep services started set_totalSteps set_phase]
    in Hkeys.
  rewrite Hempty in Hkeys. cbn in Hkeys. rewrite Hkeys.
  intros n Hn. destruct (Hen n Hn) as (sc & Hin & Hsc).
  exists sc. split; [|exact Hsc].
  apply (map_get_In (cfg_services (config o0)) n sc Hnd Hin).
Qed.

(** C8. Let the health-checks phase start with at least one attempt
    configured.  If the services checked before some service pass and every
    attempt for that service fails, the phase throws "Health check failed
    for <service> after <N> attempts", with N the configured maximum:
    [deploy] throws that error, the failing step is the one of 1-based index
    4, [currentStep] stays at 4, and rollback runs.  A service one of whose
    first N attempts succeeds passes without error, and when every recorded
    service passes, the phase returns. *)
Theorem C8_exhausted_health_checks_abort_and_roll_back w env o3 before failing after :
  let o0 := constructor w env in
  let maxAttempts := healthCheckRetries (deployment (config o0)) in
  let thrown := "Health check failed for " +++ failing +++ " after "
                   +++ string_of_Z maxAttempts +++ " attempts" in
  1 <= maxAttempts ->
  NoDup (List.map fst (cfg_services (config o0))) ->
  deploy_loop w 0 [ValidateEnvironment; RunPreDeploymentChecks; DeployServices] (started o0)
    = (o3, None) ->
  Js.map_keys (services (deploymentState o3)) = before ++ failing :: after ->
  (forall n, In n before -> passes w n maxAttempts) ->
  exhausts w failing maxAttempts ->
  snd (deploy w o0) = Some thrown
  /\ snd (deploy_loop w 0 steps (started o0)) = Some (3, thrown)
  /\ currentStep (deploymentState (fst (deploy w o0))) = 4
  /\ rollback_invoked (fst (deploy w o0))
  /\ (forall n o, passes w n maxAttempts ->
        snd (healthCheck_attempts (Z.to_nat maxAttempts) w n 0 maxAttempts o) = None)
  /\ (forall w',
        (forall n, In n (before ++ failing :: after) -> passes w' n maxAttempts) ->
        snd (runHealthChecks w' (update (set_currentStep 4) o3)) = None).
Proof.
  intros o0 maxAttempts thrown Hmax Hnd Hprefix Hkeys Hpass Hfail.
  destruct (after_deploy_phase w o0 o3 eq_refl Hnd Hprefix) as (Hc & Hcfg).
  assert (Hphase : snd (runHealthChecks w (update (set_currentStep 4) o3)) = Some thrown).
  { unfold runHealthChecks. cbn [update deploymentState set_currentStep services].
    rewrite Hkeys.
    pose proof (runHealthChecks_loop_fails w failing after before
                  (update (set_currentStep 4) o3)) as H.
    cbv zeta in H. cbn [update config] in H. rewrite Hc in H.
    apply H; auto. intros n Hn. apply Hcfg. rewrite Hkeys. exact Hn. }
  assert (Hloop : snd (deploy_loop w 0 steps (started o0)) = Some (3, thrown)).
  { change steps
      with ([ValidateEnvironment; RunPreDeploymentChecks; DeployServices]
              ++ [RunHealthChecks; RunSmokeTests; UpdateTrafficRouting;
                  RunPostDeploymentTasks]).
    rewrite deploy_loop_app, Hprefix.
    change (0 + Js.len [ValidateEnvironment; RunPreDeploymentChecks; DeployServices]) with 3.
    cbn [deploy_loop run_step]. change (3 + 1) with 4.
    destruct (runHealthChecks w (update (set_currentStep 4) o3)) as [o4 r].
    cbn [snd] in Hphase. subst r. reflexivity. }
  pose proof (deploy_result w o0 eq_refl) as Hres. cbv zeta in Hres.
  rewrite Hloop in Hres. destruct Hres as (_ & _ & Hiff & Hthrown & _).
  split; [exact Hthrown|]. split; [exact Hloop|]. split; [|split; [apply Hiff; lia|split]].
  - pose proof (deploy_outcome w o0) as Hd.
    destruct (deploy_loop w 0 steps (started o0)) as [o' r] eqn:E.
    cbn [snd] in Hloop. subst r. rewrite Hd. cbn [fst].
    destruct (deploy_loop_outcome w steps 0 (started o0) o' _ E)
      as (oa & evs & _ & _ & (_ & Hcur & _)).
    exact Hcur.
  - intros n o (k & Hk & Hok). apply attempts_pass; [|lia].
    exists k. split; [lia | exact Hok].
  - intros w' Hall. unfold runHealthChecks.
    cbn [update deploymentState set_currentStep services]. rewrite Hkeys.
    apply runHealthChecks_loop_passes. cbn [update config]. rewrite Hc.
    intros n Hn. split.
    + destruct (Hcfg n) as (sc & Hsc & _); [rewrite Hkeys; exact Hn|].
      exists sc. exact Hsc.
    + apply Hall. exact Hn.
Qed.

(** Three attempts without delay, a frontend that answers HTTP 503 to each. *)
Lemma C8_health_checks_witness :
  let o0 := constructor frontend_unhealthy (Some "staging") in
  1 <= healthCheckRetries (deployment (config o0))
  /\ passes frontend_unhealthy "backend" 3
  /\ exhausts frontend_unhealthy "frontend" 3
  /\ snd (deploy frontend_unhealthy o0)
     = Some "Health check failed for frontend after 3 attempts"
  /\ currentStep (deploymentState (fst (deploy frontend_unhealthy o0))) = 4
  /\ rollback_invoked (fst (deploy frontend_unhealthy o0)).
Proof.
  cbv zeta.
  assert (Hmax : 1 <= healthCheckRetries
                        (deployment (config (constructor frontend_unhealthy (Some "staging")))))
    by (vm_compute; discriminate).
  assert (Hnd : NoDup (List.map fst
                         (cfg_services (config (constructor frontend_unhealthy
                                                  (Some "staging")))))).
  { repeat constructor; simpl; intuition discriminate. }
  assert (Hpass : passes frontend_unhealthy "backend" 3).
  { exists 1. split; [lia | reflexivity]. }
  assert (Hfail : exhausts frontend_unhealthy "frontend" 3).
  { intros k _. unfold healthCheckService. simpl. discriminate. }
  destruct (C8_exhausted_health_checks_abort_and_roll_back frontend_unhealthy (Some "staging")
              (fst (deploy_loop frontend_unhealthy 0
                      [ValidateEnvironment; RunPreDeploymentChecks; DeployServices]
                      (started (constructor frontend_unhealthy (Some "staging")))))
              ["backend"] "frontend" [] Hmax Hnd)
    as (Hthrown & _ & Hcur & Hrollback & _).
  - vm_compute. reflexivity.
  - vm_compute. reflexivity.
  - intros n [<- | []]. exact Hpass.
  - exact Hfail.
  - split; [exact Hmax|]. split; [exact Hpass|]. split; [exact Hfail|].
    split; [exact Hthrown|]. split; [exact Hcur | exact Hrollback].
Defined.

(** ** Rollback order in a run of the pipeline *)

Lemma Quiet_refl o : Quiet o o.
Proof. split; [reflexivity|]. exists []. rewrite app_nil_r. split; reflexivity. Qed.

Lemma Quiet_trans o1 o2 o3 : Quiet o1 o2 -> Quiet o2 o3 -> Quiet o1 o3.
Proof.
  intros (Hs1 & e1 & Ht1 & Hc1) (Hs2 & e2 & Ht2 & Hc2). split; [congruence|].
  exists (e1 ++ e2). split.
  - rewrite Ht2, Ht1, app_assoc. reflexivity.
  - rewrite deploy_calls_app, Hc1, Hc2. reflexivity.
Qed.

Lemma Quiet_emit e o : deploy_calls [e] = [] -> Quiet o (emit e o).
Proof. intros He. split; [reflexivity|]. exists [e]. split; [reflexivity | exact He]. Qed.

Lemma Quiet_currentStep v o : Quiet o (update (set_currentStep v) o).
Proof. split; [reflexivity|]. exists []. rewrite app_nil_r. split; reflexivity. Qed.

Lemma Quiet_tracks o o' :
  Quiet o o' ->
  Js.map_keys (services (deploymentState o)) = deploy_calls (trace o) ->
  Js.map_keys (services (deploymentState o')) = deploy_calls (trace o').
Proof.
  intros (Hs & evs & Ht & Hc) H.
  rewrite Hs, Ht, deploy_calls_app, Hc, app_nil_r. exact H.
Qed.

Lemma healthCheck_attempts_quiet fuel w serviceName attempts maxAttempts o :
  Quiet o (fst (healthCheck_attempts fuel w serviceName attempts maxAttempts o)).
Proof.
  revert attempts o. induction fuel as [|fuel IH]; intros attempts o; simpl.
  - apply Quiet_refl.
  - destruct (attempts <? maxAttempts); [|apply Quiet_refl].
    destruct (healthCheckService w serviceName (attempts + 1)); [|apply Quiet_refl].
    destruct (attempts + 1 =? maxAttempts); [apply Quiet_refl|].
    eapply Quiet_trans; [|apply IH]. apply Quiet_emit. reflexivity.
Qed.

Lemma runHealthChecks_loop_quiet w names o :
  Quiet o (fst (runHealthChecks_loop w names o)).
Proof.
  revert o. induction names as [|serviceName rest IH]; intros o; simpl.
  - apply Quiet_refl.
  - destruct (service_config (config o) serviceName) as [serviceConfig|]; [|apply Quiet_refl].
    destruct (negb (enabled serviceConfig)); [apply IH|].
    pose proof (healthCheck_attempts_quiet
                  (Z.to_nat (healthCheckRetries (deployment (config o)))) w serviceName 0
                  (healthCheckRetries (deployment (config o))) o) as Hq.
    destruct (healthCheck_attempts _ _ _ _ _ _) as [o1 [msg|]]; cbn [fst] in *.
    + exact Hq.
    + eapply Quiet_trans; [exact Hq | apply IH].
Qed.

Lemma run_step_quiet w s o : s <> DeployServices -> Quiet o (fst (run_step w s o)).
Proof.
  intros Hs. destruct s; cbn [run_step fst]; try apply Quiet_refl.
  - congruence.
  - apply runHealthChecks_loop_quiet.
  - unfold updateTrafficRouting. destruct (String.eqb _ _);
      [apply Quiet_emit; reflexivity | apply Quiet_refl].
  - unfold runPostDeploymentTasks, createDeploymentRecord, sendDeploymentNotifications.
    destruct (slack _); destruct (webhook _); cbn [config emit];
      repeat (eapply Quiet_trans; [|apply Quiet_emit; reflexivity]); apply Quiet_refl.
Qed.

Lemma deploy_calls_rollback_events l :
  deploy_calls (EvRollbackInitiated :: List.map EvRollbackService l) = [].
Proof. simpl. induction l as [|n l IH]; simpl; auto. Qed.

Lemma handleDeploymentFailure_quiet j o : Quiet o (handleDeploymentFailure j o).
Proof.
  destruct (handleDeploymentFailure_spec j o) as (_ & _ & Hd & _ & Hlow & Hhigh).
  destruct (Z.lt_ge_cases j 2) as [Hlt | Hge].
  - rewrite (Hlow Hlt). apply Quiet_refl.
  - split; [rewrite Hd; reflexivity|].
    eexists. split; [apply Hhigh; exact Hge | apply deploy_calls_rollback_events].
Qed.

Lemma deployServices_tracks w o :
  NoDup (List.map fst (cfg_services (config o))) ->
  services (deploymentState o) = [] ->
  Js.map_keys (services (deploymentState o)) = deploy_calls (trace o) ->
  Js.map_keys (services (deploymentState (fst (deployServices w o))))
  = deploy_calls (trace (fst (deployServices w o))).
Proof.
  intros Hnd Hempty Htracks.
  destruct (deployServices_loop_order w (cfg_services (config o)) o Hnd)
    as (order & Hcalls & Hkeys & _).
  { rewrite Hempty. intros n _ []. }
  unfold deployServices. rewrite Hcalls, Hkeys, Htracks. reflexivity.
Qed.

(** In a loop that runs the deploy phase at most once, and on an empty
    record, the recorded services stay the services whose deployment was
    started, in that order. *)
Lemma deploy_loop_tracks w todo : forall i o,
  NoDup todo ->
  NoDup (List.map fst (cfg_services (config o))) ->
  (In DeployServices todo -> services (deploymentState o) = []) ->
  Js.map_keys (services (deploymentState o)) = deploy_calls (trace o) ->
  let o' := fst (deploy_loop w i todo o) in
  Js.map_keys (services (deploymentState o')) = deploy_calls (trace o').
Proof.
  induction todo as [|s rest IH]; intros i o Hnd Hcfg Hfresh Htracks;
    cbn [deploy_loop fst]; [exact Htracks|].
  inversion Hnd as [|? ? Hnotin Hnd']; subst.
  set (o1 := update (set_currentStep (i + 1)) o).
  assert (Htracks1 : Js.map_keys (services (deploymentState o1)) = deploy_calls (trace o1))
    by exact Htracks.
  pose proof (run_step_frame w s o1) as (_ & Hc & _).
  assert (Hstep : Js.map_keys (services (deploymentState (fst (run_step w s o1))))
                  = deploy_calls (trace (fst (run_step w s o1)))
                  /\ (In DeployServices rest ->
                      services (deploymentState (fst (run_step w s o1))) = [])).
  { assert (Hdec : s = DeployServices \/ s <> DeployServices)
      by (destruct s; (left; reflexivity) || (right; discriminate)).
    destruct Hdec as [-> | Hother].
    - split; [|intros Hin; contradiction].
      cbn [run_step]. apply deployServices_tracks; [exact Hcfg | | exact Htracks1].
      apply Hfresh. left. reflexivity.
    - pose proof (run_step_quiet w s o1 Hother) as Hq. split.
      + exact (Quiet_tracks _ _ Hq Htracks1).
      + intros Hin. destruct Hq as (-> & _). apply Hfresh. right. exact Hin. }
  destruct (run_step w s o1) as [o2 [msg|]]; cbn [fst] in *.
  - destruct Hstep as [Hstep _].
    exact (Quiet_tracks _ _ (handleDeploymentFailure_quiet i o2) Hstep).
  - destruct Hstep as [Hstep Hfresh2].
    apply IH; [exact Hnd' | rewrite Hc; exact Hcfg | exact Hfresh2 | exact Hstep].
Qed.

Lemma map_get_Some_keys {V} (m : Js.map V) k v :
  Js.map_get k m = Some v -> In k (Js.map_keys m).
Proof.
  unfold Js.map_keys. induction m as [|[k' v'] rest IH]; simpl; [discriminate|].
  destruct (String.eqb k' k) eqn:E.
  - apply String.eqb_eq in E. intros _. left. exact E.
  - intros H. right. apply IH. exact H.
Qed.

(** C5. In a run of the pipeline the services are recorded in the order in
    which their deployment is started, and when rollback is invoked it calls
    the per-service rollback in exactly the reverse of that order, for the
    services whose recorded status is [deployed] and for no other: a service
    recorded as [failed] is passed over.  Without rollback no service is
    rolled back. *)
Theorem C5_rollback_reverses_deployment_order w env :
  let o0 := constructor w env in
  let final := fst (deploy w o0) in
  let recorded := services (deploymentState final) in
  NoDup (List.map fst (cfg_services (config o0))) ->
  Js.map_keys recorded = deploy_calls (trace final)
  /\ (rollback_invoked final ->
      rollback_calls (trace final)
      = rev (filter (recorded_deployed recorded) (deploy_calls (trace final))))
  /\ (~ rollback_invoked final -> rollback_calls (trace final) = [])
  /\ forall n,
       In n (rollback_calls (trace final))
       <-> rollback_invoked final
           /\ exists r, Js.map_get n recorded = Some r /\ status r = Deployed.
Proof.
  intros o0 final recorded Hnd.
  assert (Hsteps : NoDup steps) by (repeat constructor; simpl; intuition discriminate).
  pose proof (deploy_loop_tracks w steps 0 (started o0) Hsteps Hnd
                (fun _ => eq_refl) eq_refl) as Htracks.
  cbv zeta in Htracks.
  pose proof (deploy_outcome w o0) as Hdeploy.
  pose proof (deploy_result w o0 eq_refl) as Hres. cbv zeta in Hres. fold final in Hres.
  destruct (deploy_loop w 0 steps (started o0)) as [o' r] eqn:Hloop.
  destruct (deploy_loop_outcome w steps 0 (started o0) o' r Hloop)
    as (oa & evs & Ht & Hs & Hr).
  change (trace (started o0)) with (@nil Event) in Ht. cbn [app] in Ht.
  cbn [fst snd] in *.
  assert (Hkeys : Js.map_keys recorded = deploy_calls (trace final)).
  { subst recorded final. destruct r as [[j msg]|]; rewrite Hdeploy; cbn [fst].
    - apply (Quiet_tracks o'); [|exact Htracks].
      apply Quiet_emit. reflexivity.
    - exact Htracks. }
  assert (Hcalls :
    (rollback_invoked final ->
     rollback_calls (trace final)
     = rev (filter (recorded_deployed recorded) (deploy_calls (trace final))))
    /\ (~ rollback_invoked final -> rollback_calls (trace final) = [])).
  { rewrite <- Hkeys. subst recorded.
    destruct r as [[j msg]|].
    - destruct Hr as (_ & _ & Ho' & _). destruct Hres as (_ & _ & Hiff & _).
      destruct (handleDeploymentFailure_spec j oa) as (_ & _ & Hd & _ & Hlow & Hhigh).
      rewrite <- Ho' in Hd, Hlow, Hhigh.
      assert (Hfinal : final = deploymentFailure msg o')
        by (subst final; rewrite Hdeploy; reflexivity).
      assert (Hds : deploymentState final = deploymentState oa)
        by (rewrite Hfinal; exact Hd).
      assert (Htr : trace final = trace o' ++ [EvFailureRecord msg (services (deploymentState o'))])
        by (rewrite Hfinal; reflexivity).
      rewrite Hds, Htr, rollback_calls_app. cbn [rollback_calls flat_map].
      rewrite app_nil_r. split.
      + intros Hinv. apply Hiff in Hinv. rewrite Hhigh by lia.
        rewrite Ht, rollback_calls_app, (rollback_calls_step_events evs Hs).
        change (EvRollbackInitiated :: ?l) with ([EvRollbackInitiated] ++ l).
        rewrite rollback_calls_app, rollback_calls_services, filter_rev. reflexivity.
      + intros Hno. assert (Hlt : j < 2).
        { destruct (Z.lt_ge_cases j 2) as [Hlt|Hge]; [exact Hlt|].
          exfalso. apply Hno. apply Hiff. lia. }
        rewrite (Hlow Hlt), Ht. apply rollback_calls_step_events. exact Hs.
    - destruct Hres as (_ & Hno).
      assert (Hfinal : final = o') by (subst final; rewrite Hdeploy; reflexivity).
      split; [intros Hinv; contradiction|]. intros _.
      rewrite Hfinal, Hr, Ht. apply rollback_calls_step_events. exact Hs. }
  assert (Hdec : rollback_invoked final \/ ~ rollback_invoked final).
  { destruct r as [[j msg]|].
    - destruct Hres as (_ & _ & Hiff & _).
      destruct (Z.lt_ge_cases (j + 1) 3) as [Hlt | Hge].
      + right. intros Hinv. apply Hiff in Hinv. lia.
      + left. apply Hiff. exact Hge.
    - right. apply Hres. }
  destruct Hcalls as [Hrev Hnone].
  split; [exact Hkeys|]. split; [exact Hrev|]. split; [exact Hnone|].
  intros n. split.
  - intros Hin.
    assert (Hinv : rollback_invoked final).
    { destruct Hdec as [Hyes | Hno]; [exact Hyes|].
      rewrite (Hnone Hno) in Hin. contradiction. }
    split; [exact Hinv|].
    rewrite (Hrev Hinv), <- in_rev, filter_In in Hin. destruct Hin as [_ Hdep].
    unfold recorded_deployed, is_deployed in Hdep.
    destruct (Js.map_get n recorded) as [rec|]; [|discriminate].
    exists rec. destruct (status rec); [auto | discriminate].
  - intros (Hinv & rec & Hget & Hst).
    rewrite (Hrev Hinv), <- in_rev, filter_In. split.
    + rewrite <- Hkeys. exact (map_get_Some_keys _ _ _ Hget).
    + unfold recorded_deployed, is_deployed. rewrite Hget, Hst. reflexivity.
Qed.

(** A production run whose frontend build fails, and a staging run whose
    frontend fails its health checks. *)
Lemma C5_rollback_order_witness :
  let build_fails := fst (deploy frontend_build_fails
                            (constructor frontend_build_fails (Some "production"))) in
  let unhealthy := fst (deploy frontend_unhealthy
                          (constructor frontend_unhealthy (Some "staging"))) in
  NoDup (List.map fst (cfg_services default_config))
  /\ deploy_calls (trace build_fails) = ["backend"; "frontend"]
  /\ rollback_calls (trace build_fails) = ["backend"]
  /\ deploy_calls (trace unhealthy) = ["backend"; "frontend"]
  /\ rollback_calls (trace unhealthy) = ["frontend"; "backend"].
Proof.
  cbv zeta.
  assert (Hnd : NoDup (List.map fst (cfg_services default_config))).
  { repeat constructor; simpl; intuition discriminate. }
  destruct (C5_rollback_reverses_deployment_order frontend_build_fails (Some "production") Hnd)
    as (Hkeys & Hrev & _).
  destruct (C5_rollback_reverses_deployment_order frontend_unhealthy (Some "staging") Hnd)
    as (Hkeys' & Hrev' & _).
  split; [exact Hnd|]. split; [|split; [|split]].
  - rewrite <- Hkeys. vm_compute. reflexivity.
  - rewrite Hrev.
    + vm_compute. reflexivity.
    + unfold rollback_invoked. vm_compute.
      repeat (first [left; reflexivity | right]).
  - rewrite <- Hkeys'. vm_compute. reflexivity.
  - rewrite Hrev'.
    + vm_compute. reflexivity.
    + unfold rollback_invoked. vm_compute.
      repeat (first [left; reflexivity | right]).
Defined.

End OrchestratorProofs.

(** * Further properties of the production monitor *)

Module MonitorFurther.
Import Monitor MonitorProofs.

(** ** The monitoring loop and the metrics objects *)

Lemma checkAlerts_service_metrics fmt cfg now serviceName m st :
  metrics (checkAlerts_service fmt cfg now serviceName m st) = metrics st.
Proof.
  unfold checkAlerts_service.
  repeat match goal with |- context [if ?c then _ else _] => destruct c end;
    rewrite ?createAlert_metrics; reflexivity.
Qed.

Lemma checkAlerts_metrics fmt cfg now st :
  metrics (checkAlerts fmt cfg now st) = metrics st.
Proof.
  unfold checkAlerts. generalize (metrics st) at 1 as l. intros l. revert st.
  induction l as [|kv l IH]; intros st; simpl; [reflexivity|].
  rewrite IH. apply checkAlerts_service_metrics.
Qed.

(** A property of metrics objects that holds of a fresh object and is kept
    by every check holds of every object throughout the monitoring loop. *)
Lemma startMonitoring_invariant (P : ServiceMetrics -> Prop) :
  P initial_metrics ->
  (forall cfg svc o m st, P m -> P (fst (checkServiceHealth_metrics cfg svc o (m, st)))) ->
  forall fmt cfg first ticks serviceName m,
    Js.map_get serviceName (metrics (startMonitoring fmt cfg first ticks)) = Some m -> P m.
Proof.
  intros Hinit Hcheck fmt cfg first ticks serviceName m Hget.
  apply (map_get_Forall P serviceName (metrics (startMonitoring fmt cfg first ticks)));
    [|exact Hget].
  unfold startMonitoring.
  assert (H : forall l st, all_metrics P st ->
              all_metrics P (fold_left (fun st t => tick fmt cfg t st) l st)).
  { induction l as [|t l IH]; simpl; intros st Hall; [exact Hall|].
    apply IH. unfold tick, all_metrics. rewrite checkAlerts_metrics.
    apply (runHealthChecks_all P Hcheck). exact Hall. }
  apply H. apply (runHealthChecks_all P Hcheck). apply (constructor_all P Hinit).
Qed.

(** X1. The buffer of a service holds one sample for each request counted
    in [totalRequests], up to 100: its length is the smaller of
    [totalRequests] and 100. *)
Theorem buffer_length_is_requests_capped fmt cfg first ticks serviceName m :
  Js.map_get serviceName (metrics (startMonitoring fmt cfg first ticks)) = Some m ->
  Js.len (responseTime m) = Z.min (totalRequests m) 100.
Proof.
  apply (startMonitoring_invariant
           (fun m => Js.len (responseTime m) = Z.min (totalRequests m) 100)).
  - reflexivity.
  - intros cfg' svc o m0 st Hm0.
    pose proof (check_metrics_buffer cfg' svc o m0 st) as Hb.
    pose proof (check_metrics_counters cfg' svc o m0 st) as Hc. cbv zeta in Hc.
    rewrite Hb.
    assert (Hpush : Js.len (responseTime (recordResponse (elapsed o) m0))
                    = Z.min (totalRequests m0 + 1) 100).
    { rewrite recordResponse_buffer. unfold Js.len in *.
      destruct (100 <? Z.of_nat (List.length (responseTime m0 ++ [elapsed o]))) eqn:E.
      - apply Z.ltb_lt in E. rewrite length_app in E. simpl in E.
        destruct (responseTime m0) as [|y l]; simpl in *; [lia|].
        rewrite length_app. simpl. lia.
      - apply Z.ltb_ge in E. rewrite length_app in *. simpl in *. lia. }
    destruct (reply o) as [msg | [|] code]; destruct Hc as (Ht & _); rewrite Ht;
      [exact Hm0 | exact Hpush | exact Hpush].
Qed.

Lemma three_rounds_frontend :
  Js.map_get "frontend"
    (metrics (startMonitoring integer_part default_config (always reply_ok) two_bad_ticks))
  = Some frontend_after_three_rounds.
Proof. vm_compute. reflexivity. Qed.

Lemma buffer_length_witness :
  Js.map_get "frontend"
    (metrics (startMonitoring integer_part default_config (always reply_ok) two_bad_ticks))
  = Some frontend_after_three_rounds
  /\ Js.len (responseTime frontend_after_three_rounds)
     = Z.min (totalRequests frontend_after_three_rounds) 100.
Proof.
  split; [exact three_rounds_frontend|].
  exact (buffer_length_is_requests_capped _ _ _ _ _ _ three_rounds_frontend).
Defined.

(** X2. For every service, at any time of the monitoring loop:
    [consecutiveFailures] lies between 0 and [errorCount], [totalRequests]
    is not negative, and [availability] is at most 1; it is at least 0
    whenever the errors do not outnumber the requests. *)
Theorem counters_are_coherent fmt cfg first ticks serviceName m :
  Js.map_get serviceName (metrics (startMonitoring fmt cfg first ticks)) = Some m ->
  0 <= consecutiveFailures m <= errorCount m
  /\ 0 <= totalRequests m
  /\ (availability m <= 1)%Q
  /\ (errorCount m <= totalRequests m -> (0 <= availability m)%Q).
Proof.
  intros Hget.
  assert (Hc : 0 <= consecutiveFailures m <= errorCount m /\ 0 <= totalRequests m
               /\ availability m = calculateAvailability m).
  { revert Hget.
    apply (startMonitoring_invariant
             (fun m => 0 <= consecutiveFailures m <= errorCount m /\ 0 <= totalRequests m
                       /\ availability m = calculateAvailability m)).
    - simpl. repeat split; lia.
    - intros cfg' svc o m0 st (Hcf & Ht & _).
      pose proof (check_metrics_counters cfg' svc o m0 st) as Hc. cbv zeta in Hc.
      pose proof (check_metrics_availability cfg' svc o m0 st) as Ha. cbv zeta in Ha.
      destruct (reply o) as [msg | [|] code]; destruct Hc as (H1 & H2 & H3 & _);
        rewrite H1, H2, H3; (split; [lia | split; [lia | exact Ha]]). }
  destruct Hc as (Hcf & Ht & Ha).
  split; [exact Hcf|]. split; [exact Ht|].
  rewrite Ha. unfold calculateAvailability.
  destruct (totalRequests m =? 0) eqn:E.
  - split; [apply Qle_refl | intros _; discriminate].
  - apply Z.eqb_neq in E.
    assert (Hpos : (0 < inject_Z (totalRequests m))%Q)
      by (change 0%Q with (inject_Z 0); rewrite <- Zlt_Qlt; lia).
    split.
    + apply Qle_shift_div_r; [exact Hpos|]. rewrite Qmult_1_l, <- Zle_Qle. lia.
    + intros He. apply Qle_shift_div_l; [exact Hpos|]. rewrite Qmult_0_l.
      change 0%Q with (inject_Z 0). rewrite <- Zle_Qle. lia.
Qed.

Lemma counters_coherent_witness :
  Js.map_get "frontend"
    (metrics (startMonitoring integer_part default_config (always reply_ok) two_bad_ticks))
  = Some frontend_after_three_rounds
  /\ 0 <= consecutiveFailures frontend_after_three_rounds
       <= errorCount frontend_after_three_rounds
  /\ (availability frontend_after_three_rounds <= 1)%Q.
Proof.
  split; [exact three_rounds_frontend|].
  destruct (counters_are_coherent _ _ _ _ _ _ three_rounds_frontend) as (H1 & _ & H2 & _).
  split; [exact H1 | exact H2].
Defined.

(** X3. The status of a service tells its history: it is unknown exactly as
    long as the service has never been checked ([lastCheck] is null), and the
    object is then as constructed; it is healthy exactly when the last check
    got a 2xx reply, in which case [consecutiveFailures] is 0; when it is
    unhealthy, [consecutiveFailures] is at least 1. *)
Theorem status_tells_last_check fmt cfg first ticks serviceName m :
  Js.map_get serviceName (metrics (startMonitoring fmt cfg first ticks)) = Some m ->
  (status m = StUnknown <-> lastCheck m = None)
  /\ (status m = StUnknown -> m = initial_metrics)
  /\ (status m = StHealthy -> consecutiveFailures m = 0)
  /\ (status m = StUnhealthy -> 1 <= consecutiveFailures m).
Proof.
  intros Hget.
  assert (H : ((status m = StUnknown <-> lastCheck m = None)
               /\ (status m = StUnknown -> m = initial_metrics)
               /\ (status m = StHealthy -> consecutiveFailures m = 0)
               /\ (status m = StUnhealthy -> 1 <= consecutiveFailures m))
              /\ 0 <= consecutiveFailures m); [|exact (proj1 H)].
  revert Hget.
  apply (startMonitoring_invariant
           (fun m => ((status m = StUnknown <-> lastCheck m = None)
                      /\ (status m = StUnknown -> m = initial_metrics)
                      /\ (status m = StHealthy -> consecutiveFailures m = 0)
                      /\ (status m = StUnhealthy -> 1 <= consecutiveFailures m))
                     /\ 0 <= consecutiveFailures m)).
  - simpl. repeat split; intros; try reflexivity; try discriminate; lia.
  - intros cfg' svc o m0 st (_ & Hcf).
    destruct (check_metrics_shape cfg' svc o m0 st) as [_ [core [Hfst _]]].
    assert (Hlast : lastCheck (fst (checkServiceHealth_metrics cfg' svc o (m0, st)))
                    = Some (now o)) by (rewrite Hfst; reflexivity).
    pose proof (check_metrics_counters cfg' svc o m0 st) as Hc. cbv zeta in Hc.
    destruct (reply o) as [msg | [|] code]; destruct Hc as (_ & _ & H3 & H4);
      rewrite Hlast, H3, H4;
      repeat split; intros; try discriminate; try reflexivity; lia.
Qed.

Lemma status_tells_last_check_witness :
  Js.map_get "frontend"
    (metrics (startMonitoring integer_part default_config (always reply_ok) two_bad_ticks))
  = Some frontend_after_three_rounds
  /\ (status frontend_after_three_rounds = StUnhealthy ->
      1 <= consecutiveFailures frontend_after_three_rounds).
Proof.
  split; [exact three_rounds_frontend|].
  exact (proj2 (proj2 (proj2
           (status_tells_last_check _ _ _ _ _ _ three_rounds_frontend)))).
Defined.

(** ** The map of metrics objects *)

Lemma map_keys_set_present {V} k (v : V) (m : Js.map V) :
  In k (Js.map_keys m) -> Js.map_keys (Js.map_set k v m) = Js.map_keys m.
Proof.
  unfold Js.map_keys.
  induction m as [|[k' v'] rest IH]; simpl; intros Hin; [contradiction|].
  destruct (String.eqb k' k) eqn:E.
  - apply String.eqb_eq in E. subst. reflexivity.
  - simpl. f_equal. apply IH. destruct Hin as [Heq | Hin]; [|exact Hin].
    apply String.eqb_neq in E. congruence.
Qed.

Lemma map_get_set_same {V} k (v : V) (m : Js.map V) :
  Js.map_get k (Js.map_set k v m) = Some v.
Proof.
  induction m as [|[k' v'] rest IH]; simpl.
  - rewrite String.eqb_refl. reflexivity.
  - destruct (String.eqb k' k) eqn:E; simpl.
    + rewrite String.eqb_refl. reflexivity.
    + rewrite E. exact IH.
Qed.

Lemma map_get_set_other {V} k n (v : V) (m : Js.map V) :
  n <> k -> Js.map_get n (Js.map_set k v m) = Js.map_get n m.
Proof.
  intros Hne. induction m as [|[k' v'] rest IH]; simpl.
  - destruct (String.eqb k n) eqn:E; [|reflexivity].
    apply String.eqb_eq in E. congruence.
  - destruct (String.eqb k' k) eqn:E; simpl.
    + apply String.eqb_eq in E. subst k'.
      destruct (String.eqb k n) eqn:E'; [|reflexivity].
      apply String.eqb_eq in E'. congruence.
    + destruct (String.eqb k' n); [reflexivity | exact IH].
Qed.

Lemma map_get_None_keys {V} (m : Js.map V) k :
  Js.map_get k m = None <-> ~ In k (Js.map_keys m).
Proof.
  unfold Js.map_keys. induction m as [|[k' v'] rest IH]; simpl.
  - split; [intros _ [] | reflexivity].
  - destruct (String.eqb k' k) eqn:E.
    + apply String.eqb_eq in E. split; [discriminate|]. intros H. exfalso. apply H. left. exact E.
    + apply String.eqb_neq in E. rewrite IH. split.
      * intros H [Heq | Hin]; [congruence | exact (H Hin)].
      * intros H Hin. apply H. right. exact Hin.
Qed.

(** The keys after the [forEach] of the constructor. *)
Lemma constructor_keys (l : list Service) : forall acc : Js.map ServiceMetrics,
  NoDup (Js.map_keys acc) ->
  let m := fold_left (fun m s => Js.map_set (name s) initial_metrics m) l acc in
  NoDup (Js.map_keys m)
  /\ (forall n, In n (Js.map_keys m) <-> In n (Js.map_keys acc) \/ In n (List.map name l)).
Proof.
  induction l as [|s l IH]; intros acc Hnd; cbn [fold_left List.map].
  - split; [exact Hnd|]. intros n; simpl; tauto.
  - assert (Hkeys : (In (name s) (Js.map_keys acc)
                     /\ Js.map_keys (Js.map_set (name s) initial_metrics acc) = Js.map_keys acc)
                    \/ (~ In (name s) (Js.map_keys acc)
                        /\ Js.map_keys (Js.map_set (name s) initial_metrics acc)
                           = Js.map_keys acc ++ [name s])).
    { destruct (in_dec string_dec (name s) (Js.map_keys acc)) as [Hin | Hnot].
      - left. split; [exact Hin|]. apply map_keys_set_present. exact Hin.
      - right. split; [exact Hnot|].
        apply OrchestratorProofs.map_keys_set_new. exact Hnot. }
    assert (Hnd' : NoDup (Js.map_keys (Js.map_set (name s) initial_metrics acc))).
    { destruct Hkeys as [[_ ->] | [Hnot ->]]; [exact Hnd|].
      apply NoDup_app; [exact Hnd | repeat constructor; simpl; tauto |].
      intros x Hx [<- | []]. exact (Hnot Hx). }
    assert (Hin' : forall n, In n (Js.map_keys (Js.map_set (name s) initial_metrics acc))
                             <-> In n (Js.map_keys acc) \/ n = name s).
    { intros n. destruct Hkeys as [[Hin Hk] | [Hnot Hk]]; rewrite Hk.
      - split; [tauto|]. intros [H | ->]; assumption.
      - rewrite in_app_iff. simpl. intuition congruence. }
    destruct (IH _ Hnd') as (H1 & H2). cbv zeta.
    split; [exact H1|].
    intros n. rewrite H2, Hin'. simpl. intuition congruence.
Qed.

Lemma checkServiceHealth_keys cfg svc o st :
  Js.map_keys (metrics (checkServiceHealth cfg svc o st)) = Js.map_keys (metrics st).
Proof.
  unfold checkServiceHealth.
  destruct (Js.map_get (name svc) (metrics st)) as [m|] eqn:Hget; [|reflexivity].
  pose proof (check_metrics_shape cfg svc o m st) as [Hst _].
  destruct (checkServiceHealth_metrics cfg svc o (m, st)) as [m' st'].
  cbn [fst snd metrics] in *. rewrite Hst.
  apply map_keys_set_present. exact (OrchestratorProofs.map_get_Some_keys _ _ _ Hget).
Qed.

Lemma runHealthChecks_keys cfg world st :
  Js.map_keys (metrics (runHealthChecks cfg world st)) = Js.map_keys (metrics st).
Proof.
  unfold runHealthChecks. generalize (services cfg) as l. intros l. revert st.
  induction l as [|svc l IH]; intros st; simpl; [reflexivity|].
  rewrite IH. apply checkServiceHealth_keys.
Qed.

(** X4. The monitored services are the configured ones, each name once: the
    constructor gives every configured name a fresh metrics object, and
    neither the checks nor the alert rules ever add or remove one.  A name
    that is not configured has no metrics object. *)
Theorem monitored_services_are_the_configured_names fmt cfg first ticks :
  let st := startMonitoring fmt cfg first ticks in
  Js.map_keys (metrics st) = Js.map_keys (metrics (constructor cfg))
  /\ NoDup (Js.map_keys (metrics st))
  /\ (forall n, In n (Js.map_keys (metrics st)) <-> In n (List.map name (services cfg)))
  /\ (forall n, Js.map_get n (metrics st) = None <-> ~ In n (List.map name (services cfg)))
  /\ (forall n, In n (List.map name (services cfg)) ->
                Js.map_get n (metrics (constructor cfg)) = Some initial_metrics).
Proof.
  cbv zeta.
  assert (Hkeys : Js.map_keys (metrics (startMonitoring fmt cfg first ticks))
                  = Js.map_keys (metrics (constructor cfg))).
  { unfold startMonitoring.
    assert (H : forall l st,
              Js.map_keys (metrics (fold_left (fun st t => tick fmt cfg t st) l st))
              = Js.map_keys (metrics st)).
    { induction l as [|t l IH]; intros st; simpl; [reflexivity|].
      rewrite IH. unfold tick. rewrite checkAlerts_metrics. apply runHealthChecks_keys. }
    rewrite H. apply runHealthChecks_keys. }
  destruct (constructor_keys (services cfg) [] (NoDup_nil _)) as (Hnd & Hin).
  cbv zeta in Hnd, Hin.
  change (fold_left (fun m s => Js.map_set (name s) initial_metrics m) (services cfg) [])
    with (metrics (constructor cfg)) in Hnd, Hin.
  assert (Hin' : forall n, In n (Js.map_keys (metrics (constructor cfg)))
                           <-> In n (List.map name (services cfg))).
  { intros n. rewrite Hin. simpl. tauto. }
  split; [exact Hkeys|]. rewrite Hkeys. split; [exact Hnd|]. split; [exact Hin'|]. split.
  - intros n. rewrite map_get_None_keys, Hkeys, Hin'. tauto.
  - intros n Hn.
    destruct (Js.map_get n (metrics (constructor cfg))) as [m|] eqn:Hget.
    + f_equal.
      exact (map_get_Forall (fun m => m = initial_metrics) n _ m
               (constructor_all (fun m => m = initial_metrics) eq_refl cfg) Hget).
    + exfalso. apply map_get_None_keys in Hget. apply Hget. apply Hin'. exact Hn.
Qed.

(** X5. A check reads and writes the metrics object of the checked service
    only: the objects of all other services are left as they are, and the
    checked service's object becomes the one that the check computes. *)
Theorem check_touches_one_metrics_object cfg svc o st n m :
  n <> name svc ->
  Js.map_get (name svc) (metrics st) = Some m ->
  let st' := checkServiceHealth cfg svc o st in
  Js.map_get n (metrics st') = Js.map_get n (metrics st)
  /\ Js.map_get (name svc) (metrics st')
     = Some (fst (checkServiceHealth_metrics cfg svc o (m, st))).
Proof.
  intros Hne Hget. unfold checkServiceHealth. rewrite Hget.
  pose proof (check_metrics_shape cfg svc o m st) as [Hst _].
  destruct (checkServiceHealth_metrics cfg svc o (m, st)) as [m' st'].
  cbn [fst snd metrics] in *. rewrite Hst. split.
  - apply map_get_set_other. exact Hne.
  - apply map_get_set_same.
Qed.

Lemma check_touches_one_witness :
  let st := checkServiceHealth default_config frontend reply_http_error
              (constructor default_config) in
  "backend" <> name frontend
  /\ Js.map_get (name frontend) (metrics (constructor default_config)) = Some initial_metrics
  /\ Js.map_get "backend" (metrics st) = Some initial_metrics
  /\ Js.map_get "frontend" (metrics st)
     = Some (mkMetrics StUnhealthy [80] 0 1 1 (Some 2000) 1 DhUnknown).
Proof.
  cbv zeta.
  assert (Hne : "backend" <> name frontend) by discriminate.
  assert (Hget : Js.map_get (name frontend) (metrics (constructor default_config))
                 = Some initial_metrics) by reflexivity.
  destruct (check_touches_one_metrics_object default_config frontend reply_http_error
              (constructor default_config) "backend" initial_metrics Hne Hget)
    as [Hother Hsame].
  split; [exact Hne|]. split; [exact Hget|]. split.
  - rewrite Hother. reflexivity.
  - etransitivity; [exact Hsame | vm_compute; reflexivity].
Defined.

(** ** Reachability and deep health *)

Lemma checkApiHealth_deploymentHealth cfg svc h now m st :
  deploymentHealth (fst (checkApiHealth cfg svc h now (m, st))) = deep_health_of h.
Proof.
  unfold checkApiHealth, apiHealthFailed, deep_health_of.
  destruct h as [msg | [|] code body]; cbn [fst]; try reflexivity.
  destruct (String.eqb (hd_status body) "healthy");
    destruct (performance body) as [perf|]; reflexivity.
Qed.

Lemma recordResponse_deploymentHealth x m :
  deploymentHealth (recordResponse x m) = deploymentHealth m.
Proof.
  unfold recordResponse. destruct (100 <? _); reflexivity.
Qed.

(** X6. Reachability and deep health are separate axes.  The answer of the
    [/health] endpoint decides [deploymentHealth] of an API service whose
    base URL answered 2xx; of the rest of the metrics object it can move
    only [lastCheck], which is the reading of the clock at the end of the
    check, after the [/health] call.  The same check with another [/health]
    answer, other clock readings and another alert list leaves the same
    status, buffer, counters and availability; in particular the status
    stays healthy when the deep check fails.  A check that gets no 2xx
    reply, or of a service that is not of type "api", leaves
    [deploymentHealth] as it is. *)
Theorem deep_health_is_a_separate_axis cfg svc o1 o2 m st1 st2 :
  reply o1 = reply o2 -> elapsed o1 = elapsed o2 ->
  let m1 := fst (checkServiceHealth_metrics cfg svc o1 (m, st1)) in
  let m2 := fst (checkServiceHealth_metrics cfg svc o2 (m, st2)) in
  set_lastCheck None (set_deploymentHealth DhUnknown m1)
  = set_lastCheck None (set_deploymentHealth DhUnknown m2)
  /\ lastCheck m1 = Some (now o1)
  /\ deploymentHealth m1
     = (if negb (failed o1) && String.eqb (type svc) "api"
        then deep_health_of (health_reply o1) else deploymentHealth m).
Proof.
  intros Hr He. cbv zeta. unfold failed.
  unfold checkServiceHealth_metrics. rewrite <- Hr, <- He.
  destruct (reply o1) as [msg | [|] code]; cbn [negb andb fst snd].
  - destruct (checkFailed_frame cfg svc msg (clock o1) m st1) as [H1 _].
    destruct (checkFailed_frame cfg svc msg (clock o2) m st2) as [H2 _].
    destruct (checkFailed cfg svc msg (clock o1) (m, st1)) as [m1 s1].
    destruct (checkFailed cfg svc msg (clock o2) (m, st2)) as [m2 s2].
    cbn [fst] in *. subst m1 m2. repeat split; reflexivity.
  - destruct (String.eqb (type svc) "api").
    + set (base := set_consecutiveFailures 0
                     (set_status StHealthy (recordResponse (elapsed o1) m))).
      destruct (checkApiHealth_frame cfg svc (health_reply o1) (clock o1) base st1)
        as [[d1 H1] _].
      destruct (checkApiHealth_frame cfg svc (health_reply o2) (clock o2) base st2)
        as [[d2 H2] _].
      pose proof (checkApiHealth_deploymentHealth cfg svc (health_reply o1) (clock o1) base st1)
        as Hd.
      destruct (checkApiHealth cfg svc (health_reply o1) (clock o1) (base, st1)) as [m1 s1].
      destruct (checkApiHealth cfg svc (health_reply o2) (clock o2) (base, st2)) as [m2 s2].
      cbn [fst] in *. subst m1 m2. split; [reflexivity|]. split; [reflexivity | exact Hd].
    + split; [reflexivity|]. split; [reflexivity|]. cbn. apply recordResponse_deploymentHealth.
  - destruct (checkFailed_frame cfg svc ("HTTP " +++ string_of_Z code) (clock o1)
                (recordResponse (elapsed o1) m) st1) as [H1 _].
    destruct (checkFailed_frame cfg svc ("HTTP " +++ string_of_Z code) (clock o2)
                (recordResponse (elapsed o1) m) st2) as [H2 _].
    destruct (checkFailed cfg svc _ (clock o1) (_, st1)) as [m1 s1].
    destruct (checkFailed cfg svc _ (clock o2) (_, st2)) as [m2 s2].
    cbn [fst] in *. subst m1 m2. split; [reflexivity|]. split; [reflexivity|].
    cbn. apply recordResponse_deploymentHealth.
Qed.

(** The [/health] endpoint answers 500 after five seconds, or 200 at once:
    only [deploymentHealth] and [lastCheck] differ. *)
Lemma deep_health_witness :
  let st := constructor default_config in
  let down := fst (checkServiceHealth_metrics default_config api_service
                     reply_ok_health_down (initial_metrics, st)) in
  let up := fst (checkServiceHealth_metrics default_config api_service
                   reply_ok_health_up (initial_metrics, st)) in
  reply reply_ok_health_down = reply reply_ok_health_up
  /\ status down = StHealthy /\ deploymentHealth down = DhUnhealthy
  /\ deploymentHealth up = DhHealthy
  /\ lastCheck down = Some 6000 /\ lastCheck up = Some 1000
  /\ set_lastCheck None (set_deploymentHealth DhUnknown down)
     = set_lastCheck None (set_deploymentHealth DhUnknown up).
Proof.
  cbv zeta.
  destruct (deep_health_is_a_separate_axis default_config api_service
              reply_ok_health_down reply_ok_health_up initial_metrics
              (constructor default_config) (constructor default_config)
              eq_refl eq_refl) as (Hsame & Hlast_down & Hdown).
  destruct (deep_health_is_a_separate_axis default_config api_service
              reply_ok_health_up reply_ok_health_down initial_metrics
              (constructor default_config) (constructor default_config)
              eq_refl eq_refl) as (_ & Hlast_up & Hup).
  split; [reflexivity|]. split; [reflexivity|].
  split; [exact Hdown|]. split; [exact Hup|].
  split; [exact Hlast_down|]. split; [exact Hlast_up | exact Hsame].
Defined.

(** ** Invariants of the alert list *)

(** A property of the alert list and the emitted events that every
    [createAlert] keeps, for an alert stamped and tested at readings that
    satisfy [G], and that logging an error keeps, holds throughout the
    monitoring loop when all the readings of the clock satisfy [G]. *)
Section AlertInvariant.
Variable G : Readings -> Prop.
Variable I : list Alert -> list Event -> Prop.
Hypothesis I_create :
  forall cfg r a st,
    G r -> timestamp a = stamped r -> I (alerts st) (emitted st) ->
    I (alerts (createAlert cfg (tested r) a st)) (emitted (createAlert cfg (tested r) a st)).
Hypothesis I_log :
  forall serviceName msg st,
    I (alerts st) (emitted st) ->
    I (alerts (logError serviceName msg st)) (emitted (logError serviceName msg st)).

Local Notation "'holds' st" := (I (alerts st) (emitted st)) (at level 10, st at level 9).

Ltac alert_steps Hg :=
  repeat first [ assumption
               | apply I_create; [apply Hg | reflexivity |]
               | apply I_log ].

Lemma checkApiHealth_holds cfg svc h clock m st :
  (forall rule, G (clock rule)) ->
  holds st -> holds (snd (checkApiHealth cfg svc h clock (m, st))).
Proof.
  intros Hg Hst. unfold checkApiHealth, apiHealthFailed.
  destruct h as [msg | [|] code body]; cbn [fst snd]; try (alert_steps Hg; fail).
  destruct (String.eqb (hd_status body) "healthy");
    destruct (performance body) as [perf|]; cbn [snd];
    try destruct (avg_response_time_ms perf) as [avg|];
    try destruct (heap_used_mb perf) as [heap|];
    repeat match goal with |- context [if ?c then _ else _] => destruct c end;
    alert_steps Hg.
Qed.

Lemma checkFailed_holds cfg svc msg clock m st :
  (forall rule, G (clock rule)) ->
  holds st -> holds (snd (checkFailed cfg svc msg clock (m, st))).
Proof.
  intros Hg Hst. unfold checkFailed. cbn [snd].
  match goal with |- context [if ?c then _ else _] => destruct c end; alert_steps Hg.
Qed.

Lemma check_metrics_holds cfg svc o m st :
  (forall rule, G (clock o rule)) ->
  holds st -> holds (snd (checkServiceHealth_metrics cfg svc o (m, st))).
Proof.
  intros Hg Hst. unfold checkServiceHealth_metrics.
  destruct (reply o) as [msg | [|] code]; cbn [fst snd].
  - pose proof (checkFailed_holds cfg svc msg (clock o) m st Hg Hst) as H.
    destruct (checkFailed _ _ _ _ _) as [m' st']. exact H.
  - destruct (String.eqb (type svc) "api"); [|exact Hst].
    match goal with
    | |- context [checkApiHealth cfg svc ?h ?n (?b, st)] =>
        pose proof (checkApiHealth_holds cfg svc h n b st Hg Hst) as H;
        destruct (checkApiHealth cfg svc h n (b, st)) as [m' st']
    end.
    exact H.
  - match goal with
    | |- context [checkFailed cfg svc ?msg ?n (?b, st)] =>
        pose proof (checkFailed_holds cfg svc msg n b st Hg Hst) as H;
        destruct (checkFailed cfg svc msg n (b, st)) as [m' st']
    end.
    exact H.
Qed.

Lemma checkServiceHealth_holds cfg svc o st :
  (forall rule, G (clock o rule)) ->
  holds st -> holds (checkServiceHealth cfg svc o st).
Proof.
  intros Hg Hst. unfold checkServiceHealth.
  destruct (Js.map_get (name svc) (metrics st)) as [m|]; [|exact Hst].
  pose proof (check_metrics_holds cfg svc o m st Hg Hst) as H.
  destruct (checkServiceHealth_metrics cfg svc o (m, st)) as [m' st']. exact H.
Qed.

Lemma runHealthChecks_holds cfg world st :
  round_readings G world -> holds st -> holds (runHealthChecks cfg world st).
Proof.
  intros Hg. unfold runHealthChecks. generalize (services cfg) as l. intros l. revert st.
  induction l as [|svc l IH]; intros st Hst; simpl; [exact Hst|].
  apply IH. apply checkServiceHealth_holds; [apply Hg | exact Hst].
Qed.

Lemma checkAlerts_holds fmt cfg clock st :
  (forall serviceName rule, G (clock serviceName rule)) ->
  holds st -> holds (checkAlerts fmt cfg clock st).
Proof.
  intros Hg. unfold checkAlerts. generalize (metrics st) as l. intros l. revert st.
  induction l as [|kv l IH]; intros st Hst; simpl; [exact Hst|].
  apply IH. unfold checkAlerts_service.
  pose proof (Hg (fst kv)) as Hkv.
  repeat match goal with |- context [if ?c then _ else _] => destruct c end;
    alert_steps Hkv.
Qed.

Lemma startMonitoring_holds fmt cfg first ticks :
  round_readings G first ->
  (forall t, In t ticks -> tick_readings G t) ->
  I [] [] -> holds (startMonitoring fmt cfg first ticks).
Proof.
  intros Hfirst Hticks Hinit. unfold startMonitoring.
  assert (H : forall l st, (forall t, In t l -> tick_readings G t) -> holds st ->
                           holds (fold_left (fun st t => tick fmt cfg t st) l st)).
  { induction l as [|t l IH]; intros st Hl Hst; simpl; [exact Hst|].
    destruct (Hl t (or_introl eq_refl)) as [Hround Hrules].
    apply IH; [intros t' Ht'; apply Hl; right; exact Ht'|].
    unfold tick. apply checkAlerts_holds; [exact Hrules|].
    apply runHealthChecks_holds; assumption. }
  apply H; [exact Hticks|]. apply runHealthChecks_holds; assumption.
Qed.

End AlertInvariant.

Lemma saved_alerts_app e1 e2 : saved_alerts (e1 ++ e2) = saved_alerts e1 ++ saved_alerts e2.
Proof. apply flat_map_app. Qed.

Lemma saved_alerts_sendAlert cfg a : saved_alerts (sendAlert cfg a) = [a].
Proof.
  unfold sendAlert. destruct (slack (notifications cfg));
    destruct (webhook (notifications cfg)); reflexivity.
Qed.

(** X7. At any time of the monitoring loop the alert list is the most
    recent part of the sequence of alerts written to the alert log: it holds
    the last 50 of them, in order, or all of them while there are fewer. *)
Theorem alert_list_is_the_latest_saved_alerts fmt cfg first ticks :
  let st := startMonitoring fmt cfg first ticks in
  exists evicted,
    saved_alerts (emitted st) = evicted ++ alerts st
    /\ Js.len (alerts st) = Z.min (Js.len (saved_alerts (emitted st))) 50.
Proof.
  cbv zeta.
  assert (H : exists evicted,
            saved_alerts (emitted (startMonitoring fmt cfg first ticks))
            = evicted ++ alerts (startMonitoring fmt cfg first ticks)
            /\ Js.len (alerts (startMonitoring fmt cfg first ticks)) <= 50
            /\ (evicted <> [] -> Js.len (alerts (startMonitoring fmt cfg first ticks)) = 50)).
  { apply (startMonitoring_holds (fun _ => True)
             (fun al evs => exists evicted,
                  saved_alerts evs = evicted ++ al /\ Js.len al <= 50
                  /\ (evicted <> [] -> Js.len al = 50))).
    - intros cfg' r a st _ _ (evicted & Hsaved & Hlen & Hfull). unfold createAlert.
      destruct (isDuplicate (tested r) a (alerts st)); [exists evicted; auto|].
      cbn [alerts emitted]. rewrite saved_alerts_app, saved_alerts_sendAlert, Hsaved.
      unfold Js.push, Js.shift.
      destruct (50 <? Js.len (alerts st ++ [a])) eqn:E.
      + apply Z.ltb_lt in E. unfold Js.len in *. rewrite length_app in E. simpl in E.
        destruct (alerts st) as [|oldest rest] eqn:Hal; [simpl in E; lia|].
        exists (evicted ++ [oldest]). cbn [tl app].
        split; [rewrite <- !app_assoc; reflexivity|].
        rewrite length_app. simpl in *. split; [lia|]. intros _. lia.
      + apply Z.ltb_ge in E. exists evicted. split; [rewrite app_assoc; reflexivity|].
        split; [exact E|]. intros Hne. specialize (Hfull Hne).
        unfold Js.len in *. rewrite length_app in *. simpl in *. lia.
    - intros n msg st (evicted & Hsaved & Hlen & Hfull). exists evicted.
      unfold logError. cbn [alerts emitted]. rewrite saved_alerts_app. simpl.
      rewrite app_nil_r. auto.
    - intros svc rule. exact I.
    - intros t _. split; [intros svc rule|intros n rule]; exact I.
    - exists []. simpl. unfold Js.len. simpl. split; [reflexivity|]. split; [lia|]. congruence. }
  destruct H as (evicted & Hsaved & Hlen & Hfull).
  exists evicted. split; [exact Hsaved|].
  rewrite Hsaved. unfold Js.len in *. rewrite length_app.
  destruct evicted as [|e evicted]; simpl in *; [lia|].
  specialize (Hfull ltac:(discriminate)). lia.
Qed.

Lemma spaced_by_tl gap l : spaced_by gap l -> spaced_by gap (tl l).
Proof. destruct l as [|a l]; simpl; [auto | intros [_ H]; exact H]. Qed.

Lemma spaced_by_push gap l a :
  spaced_by gap l ->
  (forall ex, In ex l -> service a = service ex -> message a = message ex ->
              gap <= timestamp a - timestamp ex) ->
  spaced_by gap (l ++ [a]).
Proof.
  induction l as [|e l IH]; simpl; intros Hl Hnew.
  - split; [intros later [] | exact I].
  - destruct Hl as [He Hl]. split.
    + intros later Hin Hs Hm. apply in_app_or in Hin as [Hin | [<- | []]].
      * apply He; assumption.
      * apply Hnew; auto.
    + apply IH; [exact Hl|]. intros ex Hex. apply Hnew. right. exact Hex.
Qed.

(** X8. An alert is stamped when it is built and tested against the alert
    list a moment later, at another reading of the clock.  If at most
    [delta] milliseconds pass between the two readings, then at any time of
    the monitoring loop two alerts of the alert list for the same service
    with the same message are at least five minutes less [delta] apart (five
    minutes when both readings are the same instant). *)
Theorem held_duplicates_are_spaced fmt cfg first ticks delta :
  round_readings (prompt delta) first ->
  (forall t, In t ticks -> tick_readings (prompt delta) t) ->
  spaced_by (300000 - delta) (alerts (startMonitoring fmt cfg first ticks)).
Proof.
  intros Hfirst Hticks.
  apply (startMonitoring_holds (prompt delta) (fun al _ => spaced_by (300000 - delta) al));
    [| |exact Hfirst|exact Hticks|exact I].
  - intros cfg' r a st Hprompt Hts Hsp. unfold createAlert.
    destruct (isDuplicate (tested r) a (alerts st)) eqn:Hdup; [exact Hsp|].
    cbn [alerts]. unfold Js.push, Js.shift.
    assert (Hpushed : spaced_by (300000 - delta) (alerts st ++ [a])).
    { apply spaced_by_push; [exact Hsp|].
      intros ex Hin Hs Hm.
      destruct (Z.lt_ge_cases (tested r - timestamp ex) 300000) as [Hlt | Hge].
      - exfalso. apply isDuplicate_not_recent in Hdup. apply Hdup.
        exists ex. auto.
      - unfold prompt in Hprompt. rewrite Hts. lia. }
    destruct (50 <? Js.len (alerts st ++ [a])); [apply spaced_by_tl|]; exact Hpushed.
  - intros n msg st Hsp. exact Hsp.
Qed.

Lemma held_duplicates_witness :
  round_readings (prompt 0) (always reply_ok)
  /\ spaced_by 300000
       (alerts (startMonitoring integer_part default_config (always reply_ok) two_bad_ticks)).
Proof.
  assert (Hfirst : round_readings (prompt 0) (always reply_ok))
    by (intros svc rule; unfold prompt; cbn; lia).
  split; [exact Hfirst|].
  apply (held_duplicates_are_spaced integer_part default_config (always reply_ok)
           two_bad_ticks 0 Hfirst).
  intros t [<- | [<- | []]]; (split; [intros svc rule | intros n rule]);
    unfold prompt; cbn; lia.
Defined.

(** The bound of X8 is attained: an alert stamped 299999 ms after a held
    one with the same service and message, and tested one millisecond
    later, is held too. *)
Lemma held_duplicates_bound_is_attained :
  let alert t := mkAlert SevWarning "backend" "Low availability" t in
  alerts (create_all default_config [(0, alert 0); (300000, alert 299999)]
                     (constructor default_config))
  = [alert 0; alert 299999].
Proof. vm_compute. reflexivity. Qed.

(** After [createAlert] the alert is held, or an alert of the list matched
    it in the duplicate test. *)
Lemma createAlert_leaves_alert cfg now a st :
  In a (alerts (createAlert cfg now a st))
  \/ recent_duplicate now a (alerts (createAlert cfg now a st)).
Proof.
  unfold createAlert.
  destruct (isDuplicate now a (alerts st)) eqn:Hdup.
  - right. apply isDuplicate_recent. exact Hdup.
  - left. cbn [alerts]. unfold Js.push, Js.shift.
    destruct (capped_push_last (alerts st) a) as (kept & -> & _).
    apply in_or_app; right; left; reflexivity.
Qed.

(** An alert whose timestamp is less than five minutes old is, after
    [createAlert], matched by an alert of the list: itself or the one that
    suppressed it. *)
Lemma createAlert_leaves_recent cfg now a st :
  now - timestamp a < 300000 ->
  recent_duplicate now a (alerts (createAlert cfg now a st)).
Proof.
  intros Hfresh. destruct (createAlert_leaves_alert cfg now a st) as [Hin | Hrecent].
  - exists a. auto.
  - exact Hrecent.
Qed.

(** X9. A failed check that makes the count of consecutive failures reach
    3 or more leaves in the alert list an alert for that service naming the
    count: the one it built, or one that is less than five minutes old at
    the time of the duplicate test and suppressed it.  When less than five
    minutes pass between the stamping of the alert and the duplicate test,
    as when both read the same instant, the alert left is in either case
    less than five minutes old at the time of the test. *)
Theorem repeated_failure_leaves_a_recent_alert cfg svc o m st :
  failed o = true ->
  2 <= consecutiveFailures m ->
  let c := clock o ConsecutiveFailures in
  let alert :=
    mkAlert SevCritical (name svc)
            ("Service has failed " +++ string_of_Z (consecutiveFailures m + 1)
               +++ " consecutive health checks")
            (stamped c) in
  let r := checkServiceHealth_metrics cfg svc o (m, st) in
  consecutiveFailures (fst r) = consecutiveFailures m + 1
  /\ (In alert (alerts (snd r)) \/ recent_duplicate (tested c) alert (alerts (snd r)))
  /\ (tested c - stamped c < 300000 -> recent_duplicate (tested c) alert (alerts (snd r))).
Proof.
  intros Hfailed Hcf. cbv zeta.
  pose proof (check_metrics_counters cfg svc o m st) as Hc. cbv zeta in Hc.
  unfold failed in Hfailed. unfold checkServiceHealth_metrics in *.
  destruct (recordResponse_counters (elapsed o) m) as (_ & _ & Hrc).
  destruct (reply o) as [msg | [|] code]; [| discriminate |];
    destruct Hc as (_ & _ & Hcount & _); (split; [exact Hcount|]);
    unfold checkFailed; cbn [fst snd set_status set_errorCount set_consecutiveFailures
                             consecutiveFailures];
    rewrite ?Hrc;
    (replace (3 <=? consecutiveFailures m + 1) with true
       by (symmetry; apply Z.leb_le; lia));
    cbn [snd];
    (split; [apply createAlert_leaves_alert
            | intros Hprompt; apply createAlert_leaves_recent; cbn [timestamp];
              exact Hprompt]).
Qed.

Lemma repeated_failure_witness :
  let r := checkServiceHealth_metrics default_config frontend reply_network_error
             (frontend_after_three_rounds, constructor default_config) in
  failed reply_network_error = true
  /\ 2 <= consecutiveFailures frontend_after_three_rounds
  /\ consecutiveFailures (fst r) = 3
  /\ List.map message (alerts (snd r)) = ["Service has failed 3 consecutive health checks"].
Proof.
  cbv zeta.
  assert (Hf : failed reply_network_error = true) by reflexivity.
  assert (Hcf : 2 <= consecutiveFailures frontend_after_three_rounds)
    by (vm_compute; discriminate).
  destruct (repeated_failure_leaves_a_recent_alert default_config frontend
              reply_network_error frontend_after_three_rounds (constructor default_config)
              Hf Hcf) as [Hcount _].
  split; [exact Hf|]. split; [exact Hcf|]. split; [exact Hcount|].
  vm_compute. reflexivity.
Defined.

(** ** Response-time statistics *)

Lemma sum_bounds lo hi (l : list Z) : forall acc,
  (forall x, In x l -> lo <= x <= hi) ->
  acc + Js.len l * lo <= fold_left (fun a b => a + b) l acc <= acc + Js.len l * hi.
Proof.
  unfold Js.len. induction l as [|x l IH]; intros acc Hb; simpl fold_left.
  - simpl. lia.
  - specialize (IH (acc + x) (fun y Hy => Hb y (or_intror Hy))).
    specialize (Hb x (or_introl eq_refl)).
    simpl List.length. rewrite Nat2Z.inj_succ. nia.
Qed.

(** X10. The average response time is 0 for an empty buffer; otherwise it
    is the mean of the samples rounded to the nearest integer, and lies
    between the smallest and the largest sample. *)
Theorem average_lies_between_the_samples m lo hi :
  (forall x, In x (responseTime m) -> lo <= x <= hi) ->
  (responseTime m = [] -> calculateAverageResponseTime m = 0)
  /\ (responseTime m <> [] -> lo <= calculateAverageResponseTime m <= hi).
Proof.
  intros Hb. unfold calculateAverageResponseTime, round_div. split.
  - intros ->. reflexivity.
  - intros Hne.
    assert (Hn : 0 < Js.len (responseTime m)).
    { unfold Js.len. destruct (responseTime m); [congruence | simpl; lia]. }
    replace (Js.len (responseTime m) =? 0) with false by (symmetry; apply Z.eqb_neq; lia).
    pose proof (sum_bounds lo hi (responseTime m) 0 Hb) as Hs. cbv zeta.
    set (sum := fold_left (fun a b => a + b) (responseTime m) 0) in *.
    set (n := Js.len (responseTime m)) in *.
    split.
    + apply Z.div_le_lower_bound; [lia | nia].
    + apply Z.lt_succ_r. apply Z.div_lt_upper_bound; [lia | nia].
Qed.

Lemma average_witness :
  (forall x, In x (responseTime frontend_after_three_rounds) -> 80 <= x <= 120)
  /\ calculateAverageResponseTime frontend_after_three_rounds = 100.
Proof.
  assert (Hb : forall x, In x (responseTime frontend_after_three_rounds) -> 80 <= x <= 120).
  { intros x [<- | [<- | []]]; lia. }
  split; [exact Hb|].
  destruct (average_lies_between_the_samples frontend_after_three_rounds 80 120 Hb)
    as [_ Hin].
  reflexivity.
Defined.

Lemma insert_ascending_perm x l : Permutation (insert_ascending x l) (x :: l).
Proof.
  induction l as [|y l IH]; simpl; [reflexivity|].
  destruct (x <=? y); [reflexivity|].
  rewrite IH. apply perm_swap.
Qed.

Lemma sort_ascending_perm l : Permutation (sort_ascending l) l.
Proof.
  induction l as [|x l IH]; simpl; [reflexivity|].
  rewrite insert_ascending_perm. constructor. exact IH.
Qed.

Lemma insert_ascending_sorted x l :
  StronglySorted Z.le l -> StronglySorted Z.le (insert_ascending x l).
Proof.
  induction 1 as [|y l Hl IH Hy]; simpl.
  - repeat constructor.
  - destruct (x <=? y) eqn:E.
    + apply Z.leb_le in E. constructor; [constructor; assumption|].
      constructor; [exact E|]. eapply Forall_impl; [|exact Hy]. intros z Hz. lia.
    + apply Z.leb_gt in E. constructor; [exact IH|].
      rewrite Forall_forall. intros z Hz.
      apply (Permutation_in _ (insert_ascending_perm x l)) in Hz.
      destruct Hz as [<- | Hz]; [lia|]. rewrite Forall_forall in Hy. apply Hy. exact Hz.
Qed.

Lemma sort_ascending_sorted l : StronglySorted Z.le (sort_ascending l).
Proof.
  induction l as [|x l IH]; simpl; [constructor|]. apply insert_ascending_sorted. exact IH.
Qed.

Lemma count_samples_perm p l l' :
  Permutation l l' -> count_samples p l = count_samples p l'.
Proof.
  unfold count_samples, Js.len. intros H. f_equal.
  induction H; simpl.
  - reflexivity.
  - destruct (p x); simpl; congruence.
  - destruct (p x); destruct (p y); reflexivity.
  - congruence.
Qed.

(** In a sorted list the element at position [i] is at least each of the
    first [i + 1] elements and at most each of the others. *)
Lemma sorted_rank (l : list Z) : StronglySorted Z.le l ->
  forall i, (i < List.length l)%nat ->
    Z.of_nat (S i) <= count_samples (fun x => x <=? nth i l 0) l
    /\ Z.of_nat (List.length l - i) <= count_samples (fun x => nth i l 0 <=? x) l.
Proof.
  unfold count_samples, Js.len.
  induction 1 as [|y l Hl IH Hy]; intros i Hi; [simpl in Hi; lia|].
  rewrite Forall_forall in Hy.
  destruct i as [|i]; cbn [nth filter].
  - rewrite Z.leb_refl. cbn [List.length]. split; [lia|].
    assert (Hall : filter (fun x => y <=? x) l = l).
    { clear - Hy. induction l as [|z l IH]; simpl; [reflexivity|].
      replace (y <=? z) with true
        by (symmetry; apply Z.leb_le; apply Hy; left; reflexivity).
      f_equal. apply IH. intros w Hw. apply Hy. right. exact Hw. }
    rewrite Hall. lia.
  - simpl in Hi. destruct (IH i ltac:(lia)) as [Hle Hge].
    assert (Hyn : y <= nth i l 0) by (apply Hy; apply nth_In; lia).
    replace (y <=? nth i l 0) with true by (symmetry; apply Z.leb_le; exact Hyn).
    cbn [List.length]. split; [lia|].
    destruct (nth i l 0 <=? y); cbn [List.length]; simpl Nat.sub; lia.
Qed.

(** X11. The 95th-percentile response time is 0 for an empty buffer.
    Otherwise it is one of the samples, the one at position
    [floor(0.95 * n)] of the buffer sorted in ascending order: more than 95%
    of the [n] samples are at most as large, and at least 5% (one at least)
    are at least as large. *)
Theorem p95_is_a_sample_of_high_rank m :
  let l := responseTime m in
  let p95 := calculateP95ResponseTime m in
  (l = [] -> p95 = 0)
  /\ (l <> [] ->
      In p95 l
      /\ 19 * Js.len l < 20 * count_samples (fun x => x <=? p95) l
      /\ Js.len l <= 20 * count_samples (fun x => p95 <=? x) l
      /\ 1 <= count_samples (fun x => p95 <=? x) l).
Proof.
  cbv zeta. unfold calculateP95ResponseTime. split.
  - intros ->. reflexivity.
  - intros Hne.
    assert (Hn : 0 < Js.len (responseTime m)).
    { unfold Js.len. destruct (responseTime m); [congruence | simpl; lia]. }
    replace (Js.len (responseTime m) =? 0) with false by (symmetry; apply Z.eqb_neq; lia).
    pose proof (sort_ascending_perm (responseTime m)) as Hperm.
    pose proof (sort_ascending_sorted (responseTime m)) as Hsorted.
    assert (Hlen : Js.len (sort_ascending (responseTime m)) = Js.len (responseTime m))
      by (unfold Js.len; f_equal; apply Permutation_length; exact Hperm).
    rewrite Hlen.
    set (n := Js.len (responseTime m)) in *.
    set (index := 19 * n / 20).
    assert (Hidx : 0 <= index /\ 20 * index <= 19 * n /\ 19 * n < 20 * index + 20).
    { unfold index. pose proof (Z.div_mod (19 * n) 20 ltac:(lia)) as Hdm.
      pose proof (Z.mod_pos_bound (19 * n) 20 ltac:(lia)) as Hmod.
      split; [apply Z.div_pos; lia | lia]. }
    assert (Hi : (Z.to_nat index < List.length (sort_ascending (responseTime m)))%nat).
    { unfold Js.len in Hlen. unfold n, Js.len in *. lia. }
    destruct (sorted_rank _ Hsorted (Z.to_nat index) Hi) as [Hle Hge].
    rewrite (count_samples_perm _ _ _ Hperm) in Hle.
    rewrite (count_samples_perm _ _ _ Hperm) in Hge.
    assert (Hlen' : Z.of_nat (List.length (sort_ascending (responseTime m))) = n)
      by exact Hlen.
    split; [|split; [|split]].
    + apply (Permutation_in _ Hperm). apply nth_In. exact Hi.
    + lia.
    + lia.
    + lia.
Qed.

(** ** A healthy fleet *)

Lemma sum_upper hi (l : list Z) : forall acc,
  Forall (fun x => x <= hi) l ->
  fold_left (fun a b => a + b) l acc <= acc + Js.len l * hi.
Proof.
  unfold Js.len. induction l as [|x l IH]; intros acc Hb; simpl fold_left.
  - simpl. lia.
  - inversion Hb as [|? ? Hx Hl]; subst. specialize (IH (acc + x) Hl).
    simpl List.length. rewrite Nat2Z.inj_succ. nia.
Qed.

Lemma average_upper hi m :
  0 <= hi -> Forall (fun x => x <= hi) (responseTime m) ->
  calculateAverageResponseTime m <= hi.
Proof.
  intros Hhi Hb. unfold calculateAverageResponseTime, round_div.
  destruct (Js.len (responseTime m) =? 0) eqn:E; [exact Hhi|].
  apply Z.eqb_neq in E.
  assert (Hn : 0 < Js.len (responseTime m)) by (unfold Js.len in *; lia).
  pose proof (sum_upper hi (responseTime m) 0 Hb) as Hs. cbv zeta.
  set (sum := fold_left (fun a b => a + b) (responseTime m) 0) in *.
  set (n := Js.len (responseTime m)) in *.
  apply Z.lt_succ_r. apply Z.div_lt_upper_bound; [lia | nia].
Qed.

Lemma settled_initial cfg : settled cfg initial_metrics.
Proof.
  unfold settled, initial_metrics; cbn.
  repeat split; try reflexivity; try lia. constructor.
Qed.

Lemma unremarkable_check cfg svc o m st :
  unremarkable cfg svc o -> settled cfg m ->
  settled cfg (fst (checkServiceHealth_metrics cfg svc o (m, st)))
  /\ snd (checkServiceHealth_metrics cfg svc o (m, st)) = st.
Proof.
  intros ((code & Hreply) & Helapsed & Hapi) (Herr & Hcons & Htotal & Hav & Hbuf).
  destruct (recordResponse_counters (elapsed o) m) as (Ht & He & Hc).
  pose proof (recordResponse_buffer (elapsed o) m) as Hb.
  assert (Hbuf' : Forall (fun x => x <= thr_responseTime (alertThresholds cfg))
                         (responseTime (recordResponse (elapsed o) m))).
  { rewrite Hb.
    assert (Hpushed : Forall (fun x => x <= thr_responseTime (alertThresholds cfg))
                             (responseTime m ++ [elapsed o])).
    { apply Forall_app. split; [exact Hbuf|]. constructor; [exact Helapsed | constructor]. }
    destruct (100 <? _); [|exact Hpushed].
    destruct (responseTime m ++ [elapsed o]) as [|y rest]; [constructor|].
    inversion Hpushed; assumption. }
  assert (Hfinal : forall core,
            errorCount core = 0 -> consecutiveFailures core = 0 ->
            totalRequests core = totalRequests m + 1 ->
            responseTime core = responseTime (recordResponse (elapsed o) m) ->
            settled cfg
              (set_availability (calculateAvailability (set_lastCheck (Some (now o)) core))
                 (set_lastCheck (Some (now o)) core))).
  { intros core Hce Hcc Hct Hcb. unfold settled.
    cbn [set_availability set_lastCheck errorCount consecutiveFailures totalRequests
         availability responseTime].
    split; [exact Hce|]. split; [exact Hcc|]. split; [lia|]. split; [|rewrite Hcb; exact Hbuf'].
    unfold calculateAvailability. cbn [set_lastCheck totalRequests errorCount].
    replace (totalRequests core =? 0) with false by (symmetry; apply Z.eqb_neq; lia).
    rewrite Hce, Z.sub_0_r. unfold Qdiv. apply Qmult_inv_r.
    intros H0. unfold Qeq, inject_Z in H0. cbn [Qnum Qden] in H0. lia. }
  unfold checkServiceHealth_metrics. rewrite Hreply. cbn [fst snd].
  destruct (String.eqb (type svc) "api") eqn:Et.
  - apply String.eqb_eq in Et. destruct (Hapi Et) as (c & body & Hh & Hs & Hperf).
    rewrite Hh. unfold checkApiHealth. rewrite Hs. cbn [String.eqb Ascii.eqb Bool.eqb].
    destruct (performance body) as [perf|].
    + destruct Hperf as [Havg Hheap].
      assert (Havg' : match avg_response_time_ms perf with
                      | Some avg =>
                          if thr_responseTime (alertThresholds cfg) <? avg
                          then createAlert cfg (tested (clock o SlowApi))
                                 (mkAlert SevWarning (name svc)
                                    ("High average response time: " +++ string_of_Z avg
                                       +++ "ms") (stamped (clock o SlowApi))) st
                          else st
                      | None => st
                      end = st).
      { destruct (avg_response_time_ms perf) as [avg|]; [|reflexivity].
        replace (thr_responseTime (alertThresholds cfg) <? avg) with false
          by (symmetry; apply Z.ltb_ge; exact Havg).
        reflexivity. }
      rewrite Havg'.
      assert (Hheap' : match heap_used_mb perf with
                       | Some heap =>
                           if 100 <? heap
                           then createAlert cfg (tested (clock o HighMemory))
                                  (mkAlert SevWarning (name svc)
                                     ("High memory usage: " +++ string_of_Z heap +++ "MB")
                                     (stamped (clock o HighMemory))) st
                           else st
                       | None => st
                       end = st).
      { destruct (heap_used_mb perf) as [heap|]; [|reflexivity].
        replace (100 <? heap) with false by (symmetry; apply Z.ltb_ge; exact Hheap).
        reflexivity. }
      rewrite Hheap'. cbn [fst snd]. split; [|reflexivity].
      apply Hfinal;
        cbn [set_deploymentHealth set_consecutiveFailures set_status errorCount
             consecutiveFailures totalRequests responseTime];
        congruence.
    + cbn [fst snd]. split; [|reflexivity]. apply Hfinal;
        cbn [set_deploymentHealth set_consecutiveFailures set_status errorCount
             consecutiveFailures totalRequests responseTime];
        congruence.
  - cbn [fst snd]. split; [|reflexivity]. apply Hfinal;
        cbn [set_deploymentHealth set_consecutiveFailures set_status errorCount
             consecutiveFailures totalRequests responseTime];
        congruence.
Qed.

Lemma unremarkable_round cfg world : forall l st,
  (forall svc, In svc l -> unremarkable cfg svc (world svc)) ->
  all_metrics (settled cfg) st ->
  let st' := fold_left (fun st svc => checkServiceHealth cfg svc (world svc) st) l st in
  all_metrics (settled cfg) st' /\ alerts st' = alerts st /\ emitted st' = emitted st.
Proof.
  induction l as [|svc l IH]; intros st Hall Hst; cbn [fold_left].
  - auto.
  - assert (Hone : all_metrics (settled cfg) (checkServiceHealth cfg svc (world svc) st)
                   /\ alerts (checkServiceHealth cfg svc (world svc) st) = alerts st
                   /\ emitted (checkServiceHealth cfg svc (world svc) st) = emitted st).
    { unfold checkServiceHealth.
      destruct (Js.map_get (name svc) (metrics st)) as [m|] eqn:Hget; [|auto].
      destruct (unremarkable_check cfg svc (world svc) m st (Hall svc (or_introl eq_refl))
                  (map_get_Forall (settled cfg) _ _ _ Hst Hget)) as [Hm Hs].
      destruct (checkServiceHealth_metrics cfg svc (world svc) (m, st)) as [m' st'].
      cbn [fst snd] in Hm, Hs. subst st'. cbn [alerts emitted].
      split; [|auto]. unfold all_metrics. cbn [metrics].
      apply map_set_Forall; assumption. }
    destruct Hone as (H1 & H2 & H3).
    destruct (IH (checkServiceHealth cfg svc (world svc) st)
                 (fun s Hs => Hall s (or_intror Hs)) H1) as (H4 & H5 & H6).
    split; [exact H4|]. split; congruence.
Qed.

Lemma settled_raises_nothing fmt cfg clock serviceName m st :
  0 <= thr_responseTime (alertThresholds cfg) ->
  (0 <= thr_errorRate (alertThresholds cfg))%Q ->
  (thr_availability (alertThresholds cfg) <= 1)%Q ->
  settled cfg m ->
  checkAlerts_service fmt cfg clock serviceName m st = st.
Proof.
  intros Hrt Her Hav (Herr & _ & _ & Havail & Hbuf). unfold checkAlerts_service. cbv zeta.
  replace (thr_responseTime (alertThresholds cfg) <? calculateAverageResponseTime m)
    with false
    by (symmetry; apply Z.ltb_ge; apply average_upper; assumption).
  replace (Qltb (thr_errorRate (alertThresholds cfg))
             (inject_Z (errorCount m) / inject_Z (Z.max (totalRequests m) 1)))
    with false.
  2:{ symmetry. apply Qltb_ge. rewrite Herr. unfold Qdiv. rewrite Qmult_0_l. exact Her. }
  replace (Qltb (availability m) (thr_availability (alertThresholds cfg))) with false.
  2:{ symmetry. apply Qltb_ge. rewrite Havail. exact Hav. }
  reflexivity.
Qed.

Lemma settled_checkAlerts fmt cfg clock st :
  0 <= thr_responseTime (alertThresholds cfg) ->
  (0 <= thr_errorRate (alertThresholds cfg))%Q ->
  (thr_availability (alertThresholds cfg) <= 1)%Q ->
  all_metrics (settled cfg) st ->
  checkAlerts fmt cfg clock st = st.
Proof.
  intros Hrt Her Hav. unfold checkAlerts, all_metrics.
  generalize (metrics st) as l. intros l; revert st.
  induction l as [|[n m] l IH]; intros st Hall; cbn [fold_left]; [reflexivity|].
  inversion Hall as [|? ? Hm Hl]; subst. cbn [fst snd] in *.
  rewrite (settled_raises_nothing fmt cfg (clock n) n m st Hrt Her Hav Hm). apply IH. exact Hl.
Qed.

(** X26. No false alarm.  With thresholds in their natural ranges, as long
    as every check of every configured service gets an OK response within
    the response-time threshold (and, for an API service, a healthy
    [/health] body with figures within limits), the monitor creates no
    alert, logs no error and sends nothing, however long it runs; every
    metrics object shows no error and an availability of 1. *)
Theorem healthy_fleet_raises_no_alert fmt cfg first ticks :
  0 <= thr_responseTime (alertThresholds cfg) ->
  (0 <= thr_errorRate (alertThresholds cfg))%Q ->
  (thr_availability (alertThresholds cfg) <= 1)%Q ->
  (forall svc, In svc (services cfg) -> unremarkable cfg svc (first svc)) ->
  (forall t svc, In t ticks -> In svc (services cfg) -> unremarkable cfg svc (fst t svc)) ->
  alerts (startMonitoring fmt cfg first ticks) = []
  /\ emitted (startMonitoring fmt cfg first ticks) = []
  /\ all_metrics (settled cfg) (startMonitoring fmt cfg first ticks).
Proof.
  intros Hrt Her Hav Hfirst Hticks. unfold startMonitoring.
  assert (Hstart : all_metrics (settled cfg) (runHealthChecks cfg first (constructor cfg))
                   /\ alerts (runHealthChecks cfg first (constructor cfg)) = []
                   /\ emitted (runHealthChecks cfg first (constructor cfg)) = []).
  { apply (unremarkable_round cfg first (services cfg) (constructor cfg) Hfirst).
    apply (constructor_all (settled cfg) (settled_initial cfg)). }
  revert Hstart Hticks. generalize (runHealthChecks cfg first (constructor cfg)) as st.
  induction ticks as [|t ticks IH]; intros st (Hm & Ha & He) Hticks; cbn [fold_left].
  - auto.
  - apply IH.
    + unfold tick.
      destruct (unremarkable_round cfg (fst t) (services cfg) st
                  (fun svc Hs => Hticks t svc (or_introl eq_refl) Hs) Hm)
        as (H1 & H2 & H3).
      fold (runHealthChecks cfg (fst t) st) in H1, H2, H3.
      rewrite (settled_checkAlerts fmt cfg (snd t) _ Hrt Her Hav H1).
      split; [exact H1|]. split; congruence.
    + intros t' svc Ht'. apply Hticks. right. exact Ht'.
Qed.

Lemma healthy_fleet_witness :
  alerts (startMonitoring integer_part default_config all_well
            [(all_well, fun _ => at_instant 30000); (all_well, fun _ => at_instant 60000)]) = []
  /\ emitted (startMonitoring integer_part default_config all_well
                [(all_well, fun _ => at_instant 30000); (all_well, fun _ => at_instant 60000)]) = [].
Proof.
  assert (Hwell : forall svc, unremarkable default_config svc (all_well svc)).
  { intros svc. split; [exists 200; reflexivity|]. split; [cbn; lia|].
    intros _. eexists _, _. split; [reflexivity|]. split; [reflexivity|].
    cbn. split; lia. }
  destruct (healthy_fleet_raises_no_alert integer_part default_config all_well
              [(all_well, fun _ => at_instant 30000); (all_well, fun _ => at_instant 60000)]) as (Ha & He & _).
  - cbn. lia.
  - cbn. unfold Qle. cbn. lia.
  - cbn. unfold Qle. cbn. lia.
  - intros svc _. apply Hwell.
  - intros t svc Ht _. destruct Ht as [<- | [<- | []]]; apply Hwell.
  - split; [exact Ha | exact He].
Defined.

End MonitorFurther.

(** * Further properties of the deployment orchestrator *)

Module OrchestratorFurther.
Import Orchestrator OrchestratorProofs.

(** ** The events of a run *)

Lemma Emits_refl ok o : Emits ok o o.
Proof.
  split; [reflexivity|]. split; [reflexivity|].
  exists []. rewrite app_nil_r. split; reflexivity.
Qed.

Lemma Emits_trans ok o1 o2 o3 : Emits ok o1 o2 -> Emits ok o2 o3 -> Emits ok o1 o3.
Proof.
  intros (He1 & Hc1 & e1 & Ht1 & Hk1) (He2 & Hc2 & e2 & Ht2 & Hk2).
  split; [congruence|]. split; [congruence|].
  exists (e1 ++ e2). split.
  - rewrite Ht2, Ht1, app_assoc. reflexivity.
  - rewrite forallb_app, Hk1, Hk2. reflexivity.
Qed.

Lemma Emits_emit ok e o : ok e = true -> Emits ok o (emit e o).
Proof.
  intros He. split; [reflexivity|]. split; [reflexivity|].
  exists [e]. simpl. rewrite He. split; reflexivity.
Qed.

Lemma Emits_update ok f o : Emits ok o (update f o).
Proof.
  split; [reflexivity|]. split; [reflexivity|].
  exists []. rewrite app_nil_r. split; reflexivity.
Qed.

Ltac emits tac :=
  lazymatch goal with
  | H : Emits ?ok ?o ?x |- Emits ?ok ?o ?x => exact H
  | |- Emits _ ?o ?o => apply Emits_refl
  | |- Emits ?ok ?o (emit ?e ?x) =>
      apply (Emits_trans ok o x); [emits tac | apply Emits_emit; tac]
  | |- Emits ?ok ?o (update _ ?x) =>
      apply (Emits_trans ok o x); [emits tac | apply Emits_update]
  end.

Section Emitted.

Variable ok : Event -> bool.
Variable env : string.
Hypothesis ok_exec : forall c, allowed_command env c = true -> ok (EvExec c) = true.
Hypothesis ok_deploying : forall n, ok (EvDeployingService n) = true.
Hypothesis ok_sleep : forall ms, ok (EvSleep ms) = true.
Hypothesis ok_switch : ok EvBlueGreenSwitch = true.

Lemma ok_publish c :
  String.eqb env "production" = true -> In c publish_commands -> ok (EvExec c) = true.
Proof.
  intros Hp Hin. apply ok_exec. unfold allowed_command. rewrite Hp.
  apply (proj2 (includes_In _ _)) in Hin. rewrite Hin. apply orb_true_r.
Qed.

Lemma deployBackend_emits w o :
  environment o = env -> Emits ok o (fst (deployBackend w o)).
Proof.
  intros He. unfold deployBackend, deployBackendToProduction, execSync, is_production.
  destruct (execSync_outcome w "cd backend && npm ci --production"); cbn [fst].
  - emits ltac:(apply ok_exec; reflexivity).
  - cbn [emit environment]. rewrite He.
    destruct (String.eqb env "production") eqn:Hp;
      destruct (execSync_outcome w "cd backend && npm test"); cbn [fst];
      emits ltac:(first [ apply ok_exec; reflexivity
                        | apply (ok_publish _ Hp); simpl; tauto ]).
Qed.

Lemma deployFrontend_emits w o :
  environment o = env -> Emits ok o (fst (deployFrontend w o)).
Proof.
  intros He. unfold deployFrontend, deployFrontendToProduction, execSync, is_production.
  destruct (execSync_outcome w "cd frontend && npm ci"); cbn [fst].
  - emits ltac:(apply ok_exec; reflexivity).
  - destruct (execSync_outcome w "cd frontend && npm run build"); cbn [fst].
    + emits ltac:(apply ok_exec; reflexivity).
    + cbn [emit environment]. rewrite He.
      destruct (String.eqb env "production") eqn:Hp; cbn [fst];
        emits ltac:(first [ apply ok_exec; reflexivity
                          | apply (ok_publish _ Hp); simpl; tauto ]).
Qed.

Lemma deployService_emits w serviceName o :
  environment o = env -> Emits ok o (fst (deployService w serviceName o)).
Proof.
  intros He. unfold deployService.
  destruct (String.eqb serviceName "backend"); [apply deployBackend_emits; exact He|].
  destruct (String.eqb serviceName "frontend"); [apply deployFrontend_emits; exact He|].
  apply Emits_refl.
Qed.

Lemma deployServices_loop_emits w entries : forall o,
  environment o = env -> Emits ok o (fst (deployServices_loop w entries o)).
Proof.
  induction entries as [|[serviceName serviceConfig] rest IH]; intros o He;
    cbn [deployServices_loop].
  - apply Emits_refl.
  - destruct (negb (enabled serviceConfig)); [apply IH; exact He|].
    pose proof (deployService_emits w serviceName (emit (EvDeployingService serviceName) o) He)
      as Hd.
    assert (H0 : Emits ok o (emit (EvDeployingService serviceName) o))
      by (apply Emits_emit, ok_deploying).
    destruct (deployService w serviceName _) as [o1 [msg|]]; cbn [fst] in *.
    + eapply Emits_trans; [exact H0|]. eapply Emits_trans; [exact Hd|]. apply Emits_update.
    + eapply Emits_trans; [exact H0|]. eapply Emits_trans; [exact Hd|].
      eapply Emits_trans; [apply Emits_update|]. apply IH.
      cbn [update environment]. destruct Hd as (Hd & _). rewrite Hd. exact He.
Qed.

Lemma healthCheck_attempts_emits fuel w serviceName maxAttempts : forall attempts o,
  Emits ok o (fst (healthCheck_attempts fuel w serviceName attempts maxAttempts o)).
Proof.
  induction fuel as [|fuel IH]; intros attempts o; cbn [healthCheck_attempts].
  - apply Emits_refl.
  - destruct (attempts <? maxAttempts); [|apply Emits_refl].
    destruct (healthCheckService w serviceName (attempts + 1)); [|apply Emits_refl].
    destruct (attempts + 1 =? maxAttempts); [apply Emits_refl|].
    eapply Emits_trans; [|apply IH]. apply Emits_emit, ok_sleep.
Qed.

Lemma runHealthChecks_loop_emits w names : forall o,
  Emits ok o (fst (runHealthChecks_loop w names o)).
Proof.
  induction names as [|serviceName rest IH]; intros o; cbn [runHealthChecks_loop].
  - apply Emits_refl.
  - destruct (service_config (config o) serviceName) as [serviceConfig|]; [|apply Emits_refl].
    destruct (negb (enabled serviceConfig)); [apply IH|].
    pose proof (healthCheck_attempts_emits
                  (Z.to_nat (healthCheckRetries (deployment (config o)))) w serviceName
                  (healthCheckRetries (deployment (config o))) 0 o) as Hq.
    destruct (healthCheck_attempts _ _ _ _ _ _) as [o1 [msg|]]; cbn [fst] in *.
    + exact Hq.
    + eapply Emits_trans; [exact Hq | apply IH].
Qed.

(** The first six steps. *)
Lemma run_step_emits w s o :
  s <> RunPostDeploymentTasks -> environment o = env -> Emits ok o (fst (run_step w s o)).
Proof.
  intros Hs He. destruct s; cbn [run_step fst]; try apply Emits_refl.
  - apply deployServices_loop_emits. exact He.
  - apply runHealthChecks_loop_emits.
  - unfold updateTrafficRouting. destruct (String.eqb _ _);
      [apply Emits_emit, ok_switch | apply Emits_refl].
  - congruence.
Qed.

(** The loop of [deploy] over steps other than the last: the events of the
    steps, then failure handling if one of them threw. *)
Lemma deploy_loop_emits w todo : forall i o,
  ~ In RunPostDeploymentTasks todo -> environment o = env ->
  exists oa,
    Emits ok o oa
    /\ match snd (deploy_loop w i todo o) with
       | None => fst (deploy_loop w i todo o) = oa
       | Some (j, msg) => fst (deploy_loop w i todo o) = handleDeploymentFailure j oa
       end.
Proof.
  induction todo as [|s rest IH]; intros i o Hlast He; cbn [deploy_loop].
  - exists o. split; [apply Emits_refl | reflexivity].
  - assert (Hs : s <> RunPostDeploymentTasks) by (intros ->; apply Hlast; left; reflexivity).
    pose proof (run_step_emits w s (update (set_currentStep (i + 1)) o) Hs He) as Hstep.
    destruct (run_step w s _) as [o1 [msg|]]; cbn [fst snd] in *.
    + exists o1. split; [|reflexivity].
      eapply Emits_trans; [apply Emits_update | exact Hstep].
    + destruct (IH (i + 1) o1) as (oa & Hoa & Hres).
      * intros Hin. apply Hlast. right. exact Hin.
      * destruct Hstep as (Hse & _). rewrite Hse. exact He.
      * exists oa. split; [|exact Hres].
        eapply Emits_trans; [apply Emits_update|].
        eapply Emits_trans; [exact Hstep | exact Hoa].
Qed.

(** A whole run: the events of the first six steps, then either the
    notifications and the deployment record of the seventh step, or failure
    handling and the failure record. *)
Lemma deploy_shape w o0 :
  environment o0 = env ->
  exists oa,
    Emits ok o0 oa
    /\ match snd (deploy w o0) with
       | None =>
           fst (deploy w o0)
           = runPostDeploymentTasks (update (set_currentStep 7) oa)
       | Some msg =>
           exists j, fst (deploy w o0)
                     = createFailureRecord msg (handleDeploymentFailure j oa)
       end.
Proof.
  intros He.
  pose proof (deploy_outcome w o0) as Hd.
  change steps
    with ([ValidateEnvironment; RunPreDeploymentChecks; DeployServices; RunHealthChecks;
           RunSmokeTests; UpdateTrafficRouting] ++ [RunPostDeploymentTasks]) in Hd.
  rewrite deploy_loop_app in Hd.
  destruct (deploy_loop_emits w
              [ValidateEnvironment; RunPreDeploymentChecks; DeployServices; RunHealthChecks;
               RunSmokeTests; UpdateTrafficRouting] 0 (started o0))
    as (oa & Hoa & Hres).
  { simpl. intuition discriminate. }
  { exact He. }
  exists oa. split.
  { eapply Emits_trans; [|exact Hoa]. unfold started.
    eapply Emits_trans; apply Emits_update. }
  destruct (deploy_loop w 0 _ (started o0)) as [o6 [[j msg]|]]; cbn [fst snd] in *.
  - rewrite Hd. cbn [fst snd]. exists j. rewrite Hres. reflexivity.
  - subst o6. cbn [deploy_loop run_step] in Hd. rewrite Hd. reflexivity.
Qed.

End Emitted.

Lemma runPostDeploymentTasks_spec o :
  let o' := runPostDeploymentTasks o in
  environment o' = environment o /\ config o' = config o
  /\ deploymentState o' = deploymentState o
  /\ trace o'
     = trace o ++ notification_events (config o)
         ++ [EvDeploymentRecord (services (deploymentState o))].
Proof.
  unfold runPostDeploymentTasks, createDeploymentRecord, sendDeploymentNotifications,
    notification_events.
  destruct (slack (notifications (config o)));
    cbn [emit config]; destruct (webhook (notifications (config o)));
    cbn [emit environment config deploymentState trace services];
    rewrite <- ?app_assoc; repeat split; reflexivity.
Qed.

Lemma failure_spec msg j o :
  let o' := createFailureRecord msg (handleDeploymentFailure j o) in
  environment o' = environment o /\ config o' = config o
  /\ deploymentState o' = deploymentState o
  /\ trace o'
     = trace o ++ rollback_events j (services (deploymentState o))
         ++ [EvFailureRecord msg (services (deploymentState o))].
Proof.
  cbv zeta. unfold createFailureRecord. cbn [emit environment config deploymentState trace].
  destruct (handleDeploymentFailure_spec j o) as (He & Hc & Hd & _ & Hlow & Hhigh).
  rewrite Hd. split; [exact He|]. split; [exact Hc|]. split; [reflexivity|].
  unfold rollback_events. destruct (2 <=? j) eqn:E.
  - apply Z.leb_le in E. rewrite (Hhigh E), <- app_assoc. reflexivity.
  - apply Z.leb_gt in E. rewrite (Hlow E). reflexivity.
Qed.

(** The trace of a run: events of the first six steps, then the
    notifications and the deployment record, or the rollback and the failure
    record.  The record holds the services as they are recorded at the
    end. *)
Lemma run_trace (ok : Event -> bool) w o0 :
  (forall c, allowed_command (environment o0) c = true -> ok (EvExec c) = true) ->
  (forall n, ok (EvDeployingService n) = true) ->
  (forall ms, ok (EvSleep ms) = true) ->
  ok EvBlueGreenSwitch = true ->
  let run := deploy w o0 in
  let m := services (deploymentState (fst run)) in
  environment (fst run) = environment o0 /\ config (fst run) = config o0
  /\ exists evs,
       forallb ok evs = true
       /\ match snd run with
          | None =>
              trace (fst run)
              = trace o0 ++ evs ++ notification_events (config o0) ++ [EvDeploymentRecord m]
          | Some msg =>
              exists j,
                trace (fst run)
                = trace o0 ++ evs ++ rollback_events j m ++ [EvFailureRecord msg m]
          end.
Proof.
  intros Hexec Hdep Hsleep Hswitch. cbv zeta.
  destruct (deploy_shape ok (environment o0) Hexec Hdep Hsleep Hswitch w o0 eq_refl)
    as (oa & (He & Hc & evs & Ht & Hok) & Hres).
  destruct (snd (deploy w o0)) as [msg|].
  - destruct Hres as (j & ->).
    destruct (failure_spec msg j oa) as (He' & Hc' & Hd' & Ht').
    split; [congruence|]. split; [congruence|].
    exists evs. split; [exact Hok|]. exists j.
    rewrite Hd', Ht', Ht, <- app_assoc. reflexivity.
  - rewrite Hres.
    destruct (runPostDeploymentTasks_spec (update (set_currentStep 7) oa))
      as (He' & Hc' & Hd' & Ht').
    cbv zeta in *. cbn [update environment config trace deploymentState] in *.
    split; [congruence|]. split; [congruence|].
    exists evs. split; [exact Hok|].
    rewrite Hd', Ht', Ht, Hc, <- app_assoc. reflexivity.
Qed.

Lemma notification_events_spec cfg e :
  In e (notification_events cfg) -> e = EvSlackNotification \/ e = EvWebhookNotification.
Proof.
  unfold notification_events. destruct (slack _); destruct (webhook _); simpl; intuition.
Qed.

Lemma rollback_events_spec j m e :
  In e (rollback_events j m) ->
  2 <= j
  /\ (e = EvRollbackInitiated
      \/ exists n, e = EvRollbackService n /\ recorded_deployed m n = true).
Proof.
  unfold rollback_events. destruct (2 <=? j) eqn:E; [|intros []].
  apply Z.leb_le in E. intros [<- | Hin]; (split; [exact E|]); [left; reflexivity|].
  right. apply in_map_iff in Hin as (n & <- & Hn). apply filter_In in Hn as [_ Hn].
  exists n. split; [reflexivity | exact Hn].
Qed.

(** X12. Whatever the outside world answers, the only commands that a run
    executes from the deploy phase on are the four commands that install,
    test and build the services, and, in the production environment only,
    the two publish commands.  (The commands of environment validation and
    of the pre-deployment checks are those of [validateEnvironment] and
    [runSecurityAudit].) *)
Theorem only_build_commands_and_production_publishes w env cmd :
  let final := fst (deploy w (constructor w env)) in
  In (EvExec cmd) (trace final) ->
  In cmd build_commands
  \/ (environment final = "production" /\ In cmd publish_commands).
Proof.
  cbv zeta. intros Hin.
  set (o0 := constructor w env) in *.
  destruct (run_trace
              (fun e => match e with
                        | EvExec c => allowed_command (environment o0) c
                        | _ => true
                        end) w o0)
    as (He & _ & evs & Hok & Hres); try (intros; reflexivity).
  { intros c Hc. exact Hc. }
  assert (Hevs : In (EvExec cmd) evs).
  { destruct (snd (deploy w o0)) as [msg|].
    - destruct Hres as (j & Ht). rewrite Ht in Hin. cbn [o0 constructor trace app] in Hin.
      apply in_app_or in Hin as [Hin | Hin]; [exact Hin|].
      apply in_app_or in Hin as [Hin | [Hin | []]]; [|discriminate].
      apply rollback_events_spec in Hin as (_ & [Hin | (n & Hin & _)]); discriminate.
    - rewrite Hres in Hin. cbn [o0 constructor trace app] in Hin.
      apply in_app_or in Hin as [Hin | Hin]; [exact Hin|].
      apply in_app_or in Hin as [Hin | [Hin | []]]; [|discriminate].
      apply notification_events_spec in Hin as [Hin | Hin]; discriminate. }
  rewrite forallb_forall in Hok. specialize (Hok _ Hevs). cbn beta iota in Hok.
  unfold allowed_command in Hok. apply orb_prop in Hok as [Hb | Hp].
  - left. apply includes_In. exact Hb.
  - apply andb_prop in Hp as [Hp Hc]. right. split.
    + rewrite He. apply String.eqb_eq. exact Hp.
    + apply includes_In. exact Hc.
Qed.

Lemma only_build_commands_witness :
  In (EvExec "cd backend && railway up")
     (trace (fst (deploy publish_fails (constructor publish_fails (Some "production")))))
  /\ environment (fst (deploy publish_fails (constructor publish_fails (Some "production"))))
     = "production".
Proof.
  assert (Hin : In (EvExec "cd backend && railway up")
                   (trace (fst (deploy publish_fails
                                  (constructor publish_fails (Some "production")))))).
  { vm_compute. tauto. }
  split; [exact Hin|].
  destruct (only_build_commands_and_production_publishes
              publish_fails (Some "production") "cd backend && railway up" Hin)
    as [Hbuild | [Henv _]].
  - exfalso. simpl in Hbuild. intuition discriminate.
  - exact Henv.
Defined.

(** X13. Every run writes exactly one record, and nothing but log lines
    comes after it: the deployment record when [deploy] returns, the failure
    record with the message of the error when [deploy] throws.  The record
    holds the services as they are recorded at the end of the run. *)
Theorem every_run_ends_with_its_one_record w env :
  let run := deploy w (constructor w env) in
  let m := services (deploymentState (fst run)) in
  exists before,
    trace (fst run)
    = before ++ [match snd run with
                 | None => EvDeploymentRecord m
                 | Some msg => EvFailureRecord msg m
                 end]
    /\ forallb (fun e => negb (is_record e)) before = true.
Proof.
  cbv zeta. set (o0 := constructor w env).
  destruct (run_trace (fun e => negb (is_record e)) w o0)
    as (_ & _ & evs & Hok & Hres); try (intros; reflexivity).
  destruct (snd (deploy w o0)) as [msg|].
  - destruct Hres as (j & Ht). rewrite Ht. cbn [o0 constructor trace app].
    exists (evs ++ rollback_events j (services (deploymentState (fst (deploy w o0))))).
    split; [rewrite <- app_assoc; reflexivity|].
    rewrite forallb_app, Hok. cbn [andb]. apply forallb_forall. intros e He.
    apply rollback_events_spec in He as (_ & [-> | (n & -> & _)]); reflexivity.
  - rewrite Hres. cbn [o0 constructor trace app].
    exists (evs ++ notification_events (config o0)).
    split; [rewrite <- app_assoc; reflexivity|].
    rewrite forallb_app, Hok. cbn [andb]. apply forallb_forall. intros e He.
    apply notification_events_spec in He as [-> | ->]; reflexivity.
Qed.

(** X14. Rollback never updates the recorded status: a service for which
    the per-service rollback was called is still recorded as [deployed] at
    the end of the run, and in the failure record that the run writes. *)
Theorem rolled_back_services_stay_recorded_as_deployed w env n :
  let run := deploy w (constructor w env) in
  let m := services (deploymentState (fst run)) in
  In (EvRollbackService n) (trace (fst run)) ->
  recorded_deployed m n = true
  /\ exists msg, snd run = Some msg /\ In (EvFailureRecord msg m) (trace (fst run)).
Proof.
  cbv zeta. set (o0 := constructor w env). intros Hin.
  destruct (run_trace
              (fun e => match e with EvRollbackService _ => false | _ => true end) w o0)
    as (_ & _ & evs & Hok & Hres); try (intros; reflexivity).
  rewrite forallb_forall in Hok.
  destruct (snd (deploy w o0)) as [msg|].
  - destruct Hres as (j & Ht). rewrite Ht in Hin |- *. cbn [o0 constructor trace app] in *.
    split.
    + apply in_app_or in Hin as [Hin | Hin]; [specialize (Hok _ Hin); discriminate|].
      apply in_app_or in Hin as [Hin | [Hin | []]]; [|discriminate].
      apply rollback_events_spec in Hin as (_ & [Hin | (n' & Hin & Hdep)]); [discriminate|].
      injection Hin as ->. exact Hdep.
    + exists msg. split; [reflexivity|].
      apply in_or_app. right. apply in_or_app. right. left. reflexivity.
  - exfalso. rewrite Hres in Hin. cbn [o0 constructor trace app] in Hin.
    apply in_app_or in Hin as [Hin | Hin]; [specialize (Hok _ Hin); discriminate|].
    apply in_app_or in Hin as [Hin | [Hin | []]]; [|discriminate].
    apply notification_events_spec in Hin as [Hin | Hin]; discriminate.
Qed.

Lemma rolled_back_witness :
  In (EvRollbackService "backend")
     (trace (fst (deploy frontend_unhealthy (constructor frontend_unhealthy (Some "staging")))))
  /\ recorded_deployed
       (services (deploymentState
                    (fst (deploy frontend_unhealthy
                            (constructor frontend_unhealthy (Some "staging"))))))
       "backend" = true.
Proof.
  assert (Hin : In (EvRollbackService "backend")
                   (trace (fst (deploy frontend_unhealthy
                                  (constructor frontend_unhealthy (Some "staging")))))).
  { vm_compute. tauto. }
  split; [exact Hin|].
  destruct (rolled_back_services_stay_recorded_as_deployed
              frontend_unhealthy (Some "staging") "backend" Hin) as [Hdep _].
  exact Hdep.
Defined.

(** ** What the deploy phase records *)

Lemma map_set_new {V} k (v : V) (m : Js.map V) :
  ~ In k (Js.map_keys m) -> Js.map_set k v m = m ++ [(k, v)].
Proof.
  unfold Js.map_keys.
  induction m as [|[k' v'] rest IH]; simpl; intros Hnotin; [reflexivity|].
  destruct (String.eqb k' k) eqn:E.
  - apply String.eqb_eq in E. exfalso. apply Hnotin. left. exact E.
  - f_equal. apply IH. intros Hin. apply Hnotin. right. exact Hin.
Qed.

Lemma deployService_known w serviceName o :
  snd (deployService w serviceName o) = None ->
  serviceName = "backend" \/ serviceName = "frontend".
Proof.
  unfold deployService.
  destruct (String.eqb serviceName "backend") eqn:Eb;
    [left; apply String.eqb_eq; exact Eb|].
  destruct (String.eqb serviceName "frontend") eqn:Ef;
    [right; apply String.eqb_eq; exact Ef|].
  discriminate.
Qed.

Lemma enabled_names_app l1 l2 : enabled_names (l1 ++ l2) = enabled_names l1 ++ enabled_names l2.
Proof. unfold enabled_names. rewrite filter_app, map_app. reflexivity. Qed.

Lemma enabled_names_In entries n :
  In n (enabled_names entries) -> In n (List.map fst entries).
Proof.
  unfold enabled_names. intros Hin. apply in_map_iff in Hin as ([k sc] & <- & Hin).
  apply filter_In in Hin as [Hin _]. apply in_map_iff. exists (k, sc). auto.
Qed.

(** [deployServices] from a record that holds none of the configured
    services.  When it returns, every enabled service is recorded as
    deployed, after those recorded before; when it throws, the enabled
    services up to the failing one are recorded, the failing one as failed
    with the message of its error. *)
Lemma deployServices_loop_services w entries : forall o,
  NoDup (List.map fst entries) ->
  (forall n, In n (List.map fst entries) ->
             ~ In n (Js.map_keys (services (deploymentState o)))) ->
  let o' := fst (deployServices_loop w entries o) in
  match snd (deployServices_loop w entries o) with
  | None =>
      services (deploymentState o')
      = services (deploymentState o)
          ++ List.map (fun n => (n, deployed_record w n)) (enabled_names entries)
      /\ Forall (fun n => n = "backend" \/ n = "frontend") (enabled_names entries)
  | Some msg =>
      exists before n sc after inner,
        entries = before ++ (n, sc) :: after
        /\ enabled sc = true
        /\ msg = "Failed to deploy " +++ n +++ ": " +++ inner
        /\ (n <> "backend" -> n <> "frontend" -> inner = "Unknown service: " +++ n)
        /\ services (deploymentState o')
           = services (deploymentState o)
               ++ List.map (fun n => (n, deployed_record w n)) (enabled_names before)
               ++ [(n, failed_record w n inner)]
        /\ Forall (fun n => n = "backend" \/ n = "frontend") (enabled_names before)
  end.
Proof.
  induction entries as [|[serviceName serviceConfig] rest IH]; intros o Hnd Hfresh;
    cbn [deployServices_loop].
  - cbn [fst snd enabled_names filter List.map]. rewrite app_nil_r. split; [reflexivity|constructor].
  - cbn [List.map fst] in Hnd, Hfresh. inversion Hnd as [|? ? Hnotin Hnd']; subst.
    destruct (enabled serviceConfig) eqn:Hen; cbn [negb].
    + pose proof (deployService_quiet w serviceName (emit (EvDeployingService serviceName) o))
        as Hq. cbv zeta in Hq.
      pose proof (deployService_known w serviceName (emit (EvDeployingService serviceName) o))
        as Hknown.
      assert (Hunknown : serviceName <> "backend" -> serviceName <> "frontend" ->
                snd (deployService w serviceName (emit (EvDeployingService serviceName) o))
                = Some ("Unknown service: " +++ serviceName)).
      { intros Hb Hf. unfold deployService.
        apply String.eqb_neq in Hb. apply String.eqb_neq in Hf. rewrite Hb, Hf. reflexivity. }
      destruct (deployService w serviceName _) as [o1 r]; cbn [fst snd] in Hq, Hknown, Hunknown.
      destruct Hq as (Hds & _). cbn [deploymentState emit] in Hds.
      assert (Hnew : ~ In serviceName (Js.map_keys (services (deploymentState o))))
        by (apply Hfresh; left; reflexivity).
      destruct r as [inner|].
      * cbn [fst snd]. exists [], serviceName, serviceConfig, rest, inner.
        split; [reflexivity|]. split; [exact Hen|]. split; [reflexivity|].
        split; [intros Hb Hf; specialize (Hunknown Hb Hf); congruence|].
        cbn [update deploymentState set_service services enabled_names filter List.map app].
        rewrite Hds, (map_set_new _ _ _ Hnew). split; [reflexivity|constructor].
      * match goal with
        | |- context [deployServices_loop w rest ?o2] =>
            specialize (IH o2 Hnd'); set (o2' := o2) in *
        end.
        assert (Hs2 : services (deploymentState o2')
                      = services (deploymentState o) ++ [(serviceName, deployed_record w serviceName)]).
        { unfold o2'. cbn [update deploymentState set_service services].
          rewrite Hds, (map_set_new _ _ _ Hnew). reflexivity. }
        cbv zeta in IH.
        assert (Hfresh2 : forall n, In n (List.map fst rest) ->
                                    ~ In n (Js.map_keys (services (deploymentState o2')))).
        { intros n Hn. rewrite Hs2. unfold Js.map_keys. rewrite map_app. intros Hin.
          apply in_app_or in Hin as [Hin | [<- | []]].
          - exact (Hfresh n (or_intror Hn) Hin).
          - exact (Hnotin Hn). }
        specialize (IH Hfresh2).
        assert (Hname : serviceName = "backend" \/ serviceName = "frontend")
          by (apply Hknown; reflexivity).
        destruct (snd (deployServices_loop w rest o2')) as [msg|].
        -- destruct IH as (before & n & sc & after & inner & -> & Hsc & -> & Hunk & Hserv & Hall).
           exists ((serviceName, serviceConfig) :: before), n, sc, after, inner.
           split; [reflexivity|]. split; [exact Hsc|]. split; [reflexivity|].
           split; [exact Hunk|].
           unfold enabled_names in *. cbn [filter snd]. rewrite Hen. cbn [List.map fst].
           rewrite Hserv, Hs2, <- !app_assoc. split; [reflexivity|].
           constructor; assumption.
        -- destruct IH as (Hserv & Hall).
           unfold enabled_names in *. cbn [filter snd]. rewrite Hen. cbn [List.map fst].
           rewrite Hserv, Hs2, <- !app_assoc. split; [reflexivity|].
           constructor; assumption.
    + specialize (IH o Hnd' (fun n Hn => Hfresh n (or_intror Hn))). cbv zeta in IH.
      destruct (snd (deployServices_loop w rest o)) as [msg|].
      * destruct IH as (before & n & sc & after & inner & -> & Hsc & -> & Hunk & Hserv & Hall).
        exists ((serviceName, serviceConfig) :: before), n, sc, after, inner.
        split; [reflexivity|]. split; [exact Hsc|]. split; [reflexivity|].
        split; [exact Hunk|].
        unfold enabled_names in *. cbn [filter snd]. rewrite Hen. split; assumption.
      * unfold enabled_names in *. cbn [filter snd]. rewrite Hen. exact IH.
Qed.

Lemma deploy_loop_quiet w todo : forall i o,
  ~ In DeployServices todo -> Quiet o (fst (deploy_loop w i todo o)).
Proof.
  induction todo as [|s rest IH]; intros i o Hnot; cbn [deploy_loop].
  - apply Quiet_refl.
  - assert (Hs : s <> DeployServices) by (intros ->; apply Hnot; left; reflexivity).
    pose proof (run_step_quiet w s (update (set_currentStep (i + 1)) o) Hs) as Hstep.
    destruct (run_step w s _) as [o1 [msg|]]; cbn [fst] in *.
    + eapply Quiet_trans; [apply Quiet_currentStep|].
      eapply Quiet_trans; [exact Hstep | apply handleDeploymentFailure_quiet].
    + eapply Quiet_trans; [apply Quiet_currentStep|].
      eapply Quiet_trans; [exact Hstep|]. apply IH.
      intros Hin. apply Hnot. right. exact Hin.
Qed.

(** How a run goes, by its first three steps.  The services recorded at
    the end are those that the deploy phase recorded, and the only services
    whose deployment was started are those that this phase started. *)
Lemma run_by_deploy_phase w o0 :
  let run := deploy w o0 in
  match validateEnvironment_outcome w, runPreDeploymentChecks_outcome w with
  | Some msg, _ =>
      run = (createFailureRecord msg (update (set_currentStep 1) (started o0)), Some msg)
  | None, Some msg =>
      run = (createFailureRecord msg
               (update (set_currentStep 2) (update (set_currentStep 1) (started o0))),
             Some msg)
  | None, None =>
      let phase := deployServices w (at_deploy_phase o0) in
      Quiet (fst phase) (fst run)
      /\ match snd phase with
         | Some msg => snd run = Some msg
         | None => True
         end
  end.
Proof.
  cbv zeta. pose proof (deploy_outcome w o0) as Hd.
  change steps
    with ([ValidateEnvironment; RunPreDeploymentChecks; DeployServices]
            ++ [RunHealthChecks; RunSmokeTests; UpdateTrafficRouting;
                RunPostDeploymentTasks]) in Hd.
  rewrite deploy_loop_app in Hd.
  remember [RunHealthChecks; RunSmokeTests; UpdateTrafficRouting; RunPostDeploymentTasks]
    as rest eqn:Hrest.
  cbn [deploy_loop run_step] in Hd.
  change (0 + 1) with 1 in Hd. change (1 + 1) with 2 in Hd. change (2 + 1) with 3 in Hd.
  destruct (validateEnvironment_outcome w) as [msg|].
  { cbn [handleDeploymentFailure] in Hd. exact Hd. }
  destruct (runPreDeploymentChecks_outcome w) as [msg|].
  { exact Hd. }
  fold (at_deploy_phase o0) in Hd.
  destruct (deployServices w (at_deploy_phase o0)) as [o3 [msg|]]; cbn [fst snd].
  - rewrite Hd. cbn [fst snd]. split; [|reflexivity].
    unfold deploymentFailure, createFailureRecord.
    eapply Quiet_trans; [apply handleDeploymentFailure_quiet|].
    apply Quiet_emit. reflexivity.
  - split; [|exact I].
    pose proof (deploy_loop_quiet w rest
                  (0 + Js.len [ValidateEnvironment; RunPreDeploymentChecks; DeployServices])
                  o3) as Hq.
    assert (Hnot : ~ In DeployServices rest) by (subst rest; simpl; intuition discriminate).
    specialize (Hq Hnot).
    destruct (deploy_loop w _ rest o3) as [o7 [[j msg]|]]; rewrite Hd; cbn [fst] in *.
    + unfold deploymentFailure, createFailureRecord.
      eapply Quiet_trans; [exact Hq|].
      apply Quiet_emit. reflexivity.
    + exact Hq.
Qed.

Lemma map_get_app {V} k (m1 m2 : Js.map V) :
  Js.map_get k (m1 ++ m2)
  = match Js.map_get k m1 with Some v => Some v | None => Js.map_get k m2 end.
Proof.
  induction m1 as [|[k' v'] m1 IH]; simpl; [reflexivity|].
  destruct (String.eqb k' k); [reflexivity | exact IH].
Qed.

Lemma map_get_named {V} (f : string -> V) k l r :
  Js.map_get k (List.map (fun n => (n, f n)) l) = Some r -> r = f k.
Proof.
  induction l as [|n l IH]; simpl; [discriminate|].
  destruct (String.eqb n k) eqn:E; [|exact IH].
  apply String.eqb_eq in E. subst n. intros H. injection H as <-. reflexivity.
Qed.

Lemma map_keys_named {V} (f : string -> V) l :
  Js.map_keys (List.map (fun n => (n, f n)) l) = l.
Proof.
  unfold Js.map_keys. rewrite map_map. cbn [fst]. apply map_id.
Qed.

(** The deploy phase of a run that starts from a new orchestrator. *)
Lemma deploy_phase_of_run w env :
  let o0 := constructor w env in
  let phase := deployServices w (at_deploy_phase o0) in
  NoDup (List.map fst (cfg_services (config o0))) ->
  deploy_calls (trace (fst phase)) = Js.map_keys (services (deploymentState (fst phase)))
  /\ match snd phase with
     | None =>
         services (deploymentState (fst phase))
         = List.map (fun n => (n, deployed_record w n))
                    (enabled_names (cfg_services (config o0)))
         /\ Forall (fun n => n = "backend" \/ n = "frontend")
                   (enabled_names (cfg_services (config o0)))
     | Some msg =>
         exists before n sc after inner,
           cfg_services (config o0) = before ++ (n, sc) :: after
           /\ enabled sc = true
           /\ msg = "Failed to deploy " +++ n +++ ": " +++ inner
           /\ (n <> "backend" -> n <> "frontend" -> inner = "Unknown service: " +++ n)
           /\ services (deploymentState (fst phase))
              = List.map (fun n => (n, deployed_record w n)) (enabled_names before)
                  ++ [(n, failed_record w n inner)]
           /\ Forall (fun n => n = "backend" \/ n = "frontend") (enabled_names before)
     end.
Proof.
  cbv zeta. intros Hnd. split.
  - symmetry. apply deployServices_tracks; [exact Hnd | reflexivity | reflexivity].
  - exact (deployServices_loop_services w (cfg_services (config (constructor w env)))
             (at_deploy_phase (constructor w env)) Hnd (fun n _ Hin => Hin)).
Qed.

(** X15. When a run returns, the services recorded are exactly the enabled
    services of the configuration, in configuration order, each recorded as
    deployed with the version found for it; their deployments were started
    in that order, and each of them is the backend or the frontend. *)
Theorem successful_run_deploys_every_enabled_service w env :
  let o0 := constructor w env in
  let run := deploy w o0 in
  let names := enabled_names (cfg_services (config o0)) in
  NoDup (List.map fst (cfg_services (config o0))) ->
  snd run = None ->
  services (deploymentState (fst run)) = List.map (fun n => (n, deployed_record w n)) names
  /\ deploy_calls (trace (fst run)) = names
  /\ Forall (fun n => n = "backend" \/ n = "frontend") names.
Proof.
  cbv zeta. intros Hnd Hok.
  pose proof (run_by_deploy_phase w (constructor w env)) as Hrun. cbv zeta in Hrun.
  pose proof (deploy_phase_of_run w env Hnd) as (Hcalls & Hphase).
  destruct (validateEnvironment_outcome w); [rewrite Hrun in Hok; discriminate|].
  destruct (runPreDeploymentChecks_outcome w); [rewrite Hrun in Hok; discriminate|].
  destruct Hrun as ((Hs & evs & Ht & Hquiet) & Hres).
  destruct (snd (deployServices w (at_deploy_phase (constructor w env)))) as [msg|];
    [congruence|].
  destruct Hphase as (Hserv & Hall).
  rewrite Hs, Ht, deploy_calls_app, Hquiet, app_nil_r, Hcalls, Hserv, map_keys_named.
  auto.
Qed.

Lemma successful_run_witness :
  snd (deploy publish_fails (constructor publish_fails (Some "production"))) = None
  /\ services (deploymentState
                 (fst (deploy publish_fails (constructor publish_fails (Some "production")))))
     = [ ("backend", mkRecord Deployed 1700000000000 (Some "1.0.0") None);
         ("frontend", mkRecord Deployed 1700000000000 (Some "1.0.0") None) ].
Proof.
  assert (Hnd : NoDup (List.map fst
                         (cfg_services (config (constructor publish_fails
                                                  (Some "production")))))).
  { repeat constructor; simpl; intuition discriminate. }
  assert (Hok : snd (deploy publish_fails (constructor publish_fails (Some "production")))
                = None) by (vm_compute; reflexivity).
  split; [exact Hok|].
  destruct (successful_run_deploys_every_enabled_service publish_fails (Some "production")
              Hnd Hok) as (Hserv & _).
  etransitivity; [exact Hserv | vm_compute; reflexivity].
Defined.

(** X16. A service is recorded as failed only by the deploy phase that
    stops at it: the run throws "Failed to deploy <service>: <message>", the
    record holds that message, every enabled service configured before it is
    recorded as deployed, and nothing configured after it is started or
    recorded.  A service other than the backend and the frontend fails with
    "Unknown service: <service>". *)
Theorem failed_service_ends_the_deploy_phase w env n r :
  let o0 := constructor w env in
  let run := deploy w o0 in
  NoDup (List.map fst (cfg_services (config o0))) ->
  Js.map_get n (services (deploymentState (fst run))) = Some r ->
  status r = Failed ->
  exists before sc after inner,
    cfg_services (config o0) = before ++ (n, sc) :: after
    /\ enabled sc = true
    /\ snd run = Some ("Failed to deploy " +++ n +++ ": " +++ inner)
    /\ error r = Some inner
    /\ (n <> "backend" -> n <> "frontend" -> inner = "Unknown service: " +++ n)
    /\ services (deploymentState (fst run))
       = List.map (fun n => (n, deployed_record w n)) (enabled_names before)
           ++ [(n, failed_record w n inner)]
    /\ deploy_calls (trace (fst run)) = enabled_names before ++ [n].
Proof.
  cbv zeta. intros Hnd Hget Hfailed.
  pose proof (run_by_deploy_phase w (constructor w env)) as Hrun. cbv zeta in Hrun.
  pose proof (deploy_phase_of_run w env Hnd) as (Hcalls & Hphase). cbv zeta in Hphase.
  destruct (validateEnvironment_outcome w); [rewrite Hrun in Hget; discriminate|].
  destruct (runPreDeploymentChecks_outcome w); [rewrite Hrun in Hget; discriminate|].
  destruct Hrun as ((Hs & evs & Ht & Hquiet) & Hres).
  rewrite Hs in Hget. rewrite Hs, Ht, deploy_calls_app, Hquiet, app_nil_r, Hcalls.
  destruct (snd (deployServices w (at_deploy_phase (constructor w env)))) as [msg|].
  - destruct Hphase as (before & n' & sc & after & inner & Hcfg & Hsc & -> & Hunk & Hserv & _).
    rewrite Hserv in Hget |- *. rewrite map_get_app in Hget.
    destruct (Js.map_get n (List.map _ (enabled_names before))) as [r'|] eqn:Hbefore.
    + injection Hget as ->. apply map_get_named in Hbefore. subst r. discriminate.
    + cbn [Js.map_get] in Hget. destruct (String.eqb n' n) eqn:E; [|discriminate].
      apply String.eqb_eq in E. subst n'. injection Hget as <-.
      exists before, sc, after, inner.
      split; [exact Hcfg|]. split; [exact Hsc|]. split; [exact Hres|].
      split; [reflexivity|]. split; [exact Hunk|]. split; [reflexivity|].
      unfold Js.map_keys. rewrite map_app. fold (Js.map_keys
        (List.map (fun n0 => (n0, deployed_record w n0)) (enabled_names before))).
      rewrite map_keys_named. reflexivity.
  - destruct Hphase as (Hserv & _). rewrite Hserv in Hget.
    apply map_get_named in Hget. subst r. discriminate.
Qed.

Lemma failed_service_witness :
  snd (deploy with_database (constructor with_database (Some "staging")))
  = Some "Failed to deploy database: Unknown service: database"
  /\ deploy_calls (trace (fst (deploy with_database
                                 (constructor with_database (Some "staging")))))
     = ["backend"; "database"].
Proof.
  assert (Hnd : NoDup (List.map fst
                         (cfg_services (config (constructor with_database
                                                  (Some "staging")))))).
  { repeat constructor; simpl; intuition discriminate. }
  destruct (failed_service_ends_the_deploy_phase with_database (Some "staging") "database"
              (mkRecord Failed 1700000000000 None (Some "Unknown service: database")) Hnd)
    as (before & sc & after & inner & _ & _ & Hthrown & Herr & _ & _ & Hcalls).
  - vm_compute. reflexivity.
  - reflexivity.
  - cbn [error] in Herr. injection Herr as <-. split; [exact Hthrown|].
    vm_compute. reflexivity.
Defined.

(** X17. When environment validation or the pre-deployment checks fail,
    the run throws their error and has started nothing: no install, build
    or publish command was executed, no service was recorded, no rollback
    was invoked; all it did was to write the failure record, with an empty
    list of services. *)
Theorem failed_validation_or_checks_start_nothing w env msg :
  let run := deploy w (constructor w env) in
  validateEnvironment_outcome w = Some msg
  \/ (validateEnvironment_outcome w = None /\ runPreDeploymentChecks_outcome w = Some msg) ->
  snd run = Some msg
  /\ trace (fst run) = [EvFailureRecord msg []]
  /\ services (deploymentState (fst run)) = []
  /\ currentStep (deploymentState (fst run))
     = match validateEnvironment_outcome w with Some _ => 1 | None => 2 end.
Proof.
  cbv zeta. intros Hfail.
  pose proof (run_by_deploy_phase w (constructor w env)) as Hrun. cbv zeta in Hrun.
  destruct Hfail as [Hv | [Hv Hp]].
  - rewrite Hv in Hrun |- *. rewrite Hrun. repeat split; reflexivity.
  - rewrite Hv, Hp in Hrun. rewrite Hv, Hrun. repeat split; reflexivity.
Qed.

Lemma failed_validation_witness :
  snd (deploy tool_missing (constructor tool_missing (Some "production")))
  = Some "Required tool 'git' is not available"
  /\ trace (fst (deploy tool_missing (constructor tool_missing (Some "production"))))
     = [EvFailureRecord "Required tool 'git' is not available" []].
Proof.
  destruct (failed_validation_or_checks_start_nothing tool_missing (Some "production")
              "Required tool 'git' is not available" (or_introl eq_refl))
    as (Hthrown & Htrace & _).
  split; [exact Hthrown | exact Htrace].
Defined.

(** ** Health checks: waits and attempts *)

Lemma waited_emit n o :
  waited n (emit (EvSleep (healthCheckInterval (deployment (config o)))) o) = waited (S n) o.
Proof.
  unfold waited, emit. cbn [environment config deploymentState history trace repeat].
  rewrite <- app_assoc. reflexivity.
Qed.

Lemma waited_0 o : waited 0 o = o.
Proof. unfold waited. cbn [repeat]. rewrite app_nil_r. destruct o; reflexivity. Qed.

Lemma attempts_until w serviceName maxAttempts k : forall fuel attempts o,
  0 <= attempts < k -> k <= maxAttempts ->
  (Z.to_nat (maxAttempts - attempts) <= fuel)%nat ->
  (forall j, attempts < j < k -> healthCheckService w serviceName j <> None) ->
  healthCheckService w serviceName k = None \/ k = maxAttempts ->
  healthCheck_attempts fuel w serviceName attempts maxAttempts o
  = (waited (Z.to_nat (k - 1 - attempts)) o,
     match healthCheckService w serviceName k with
     | None => None
     | Some _ => Some ("Health check failed for " +++ serviceName +++ " after "
                         +++ string_of_Z maxAttempts +++ " attempts")
     end).
Proof.
  induction fuel as [|fuel IH]; intros attempts o Hrange Hk Hfuel Hfail Hlast; [lia|].
  cbn [healthCheck_attempts].
  replace (attempts <? maxAttempts) with true by (symmetry; apply Z.ltb_lt; lia).
  destruct (Z.eq_dec (attempts + 1) k) as [Heq | Hne].
  - rewrite Heq. replace (k - 1 - attempts) with 0 by lia. cbn [Z.to_nat].
    rewrite waited_0.
    destruct (healthCheckService w serviceName k) as [msg|]; [|reflexivity].
    destruct Hlast as [Hlast | Hlast]; [discriminate|].
    replace (k =? maxAttempts) with true by (symmetry; apply Z.eqb_eq; exact Hlast).
    reflexivity.
  - destruct (healthCheckService w serviceName (attempts + 1)) as [msg|] eqn:Hcheck.
    + replace (attempts + 1 =? maxAttempts) with false by (symmetry; apply Z.eqb_neq; lia).
      rewrite IH; [|lia|lia|lia| |exact Hlast].
      * rewrite waited_emit. cbn [emit config].
        replace (S (Z.to_nat (k - 1 - (attempts + 1)))) with (Z.to_nat (k - 1 - attempts))
          by lia.
        reflexivity.
      * intros j Hj. apply Hfail. lia.
    + exfalso. apply (Hfail (attempts + 1)); [lia | exact Hcheck].
Qed.

(** X18. The health check of one service waits [healthCheckInterval]
    between attempts and not after the last: if the attempts before the
    [k]-th fail and the [k]-th succeeds, it returns after exactly [k - 1]
    waits; if all [maxAttempts] attempts fail, it throws after exactly
    [maxAttempts - 1] waits.  Nothing else is changed. *)
Theorem health_check_waits_between_attempts w serviceName maxAttempts k o :
  1 <= k <= maxAttempts ->
  (forall j, 1 <= j < k -> healthCheckService w serviceName j <> None) ->
  healthCheckService w serviceName k = None \/ k = maxAttempts ->
  healthCheck_attempts (Z.to_nat maxAttempts) w serviceName 0 maxAttempts o
  = (waited (Z.to_nat (k - 1)) o,
     match healthCheckService w serviceName k with
     | None => None
     | Some _ => Some ("Health check failed for " +++ serviceName +++ " after "
                         +++ string_of_Z maxAttempts +++ " attempts")
     end).
Proof.
  intros Hk Hfail Hlast.
  rewrite (attempts_until w serviceName maxAttempts k (Z.to_nat maxAttempts) 0 o);
    [|lia|lia|lia| |exact Hlast].
  - replace (k - 1 - 0) with (k - 1) by lia. reflexivity.
  - intros j Hj. apply Hfail. lia.
Qed.

Lemma health_check_waits_witness :
  trace (fst (healthCheck_attempts 5 backend_recovers "backend" 0 5
                (constructor backend_recovers (Some "staging"))))
  = [EvSleep 10000; EvSleep 10000]
  /\ snd (healthCheck_attempts 5 backend_recovers "backend" 0 5
            (constructor backend_recovers (Some "staging"))) = None.
Proof.
  assert (H : healthCheck_attempts (Z.to_nat 5) backend_recovers "backend" 0 5
                (constructor backend_recovers (Some "staging"))
              = (waited (Z.to_nat (3 - 1)) (constructor backend_recovers (Some "staging")),
                 match healthCheckService backend_recovers "backend" 3 with
                 | None => None
                 | Some _ => Some ("Health check failed for " +++ "backend" +++ " after "
                                     +++ string_of_Z 5 +++ " attempts")
                 end)).
  { apply (health_check_waits_between_attempts backend_recovers "backend" 5 3).
    - lia.
    - intros j Hj. assert (Hj' : j = 1 \/ j = 2) by lia.
      destruct Hj' as [-> | ->]; discriminate.
    - left. reflexivity. }
  change (Z.to_nat 5) with 5%nat in H. rewrite H. split; reflexivity.
Defined.

(** X19. With [healthCheckRetries] at 0 or below, the health-checks phase
    makes no attempt at all: it returns for every recorded, configured
    service whatever the services would answer, and changes nothing. *)
Theorem no_attempt_configured_passes_every_service w o :
  healthCheckRetries (deployment (config o)) <= 0 ->
  (forall n, In n (Js.map_keys (services (deploymentState o))) ->
             service_config (config o) n <> None) ->
  runHealthChecks w o = (o, None).
Proof.
  intros Hmax. unfold runHealthChecks.
  generalize (Js.map_keys (services (deploymentState o))) as names.
  induction names as [|n names IH]; intros Hcfg; cbn [runHealthChecks_loop]; [reflexivity|].
  destruct (service_config (config o) n) as [sc|] eqn:Hsc;
    [|exfalso; apply (Hcfg n); [left; reflexivity | exact Hsc]].
  assert (IH' : runHealthChecks_loop w names o = (o, None))
    by (apply IH; intros n' Hn'; apply Hcfg; right; exact Hn').
  destruct (negb (enabled sc)); [exact IH'|].
  replace (Z.to_nat (healthCheckRetries (deployment (config o)))) with 0%nat by lia.
  cbn [healthCheck_attempts]. exact IH'.
Qed.

Lemma no_attempt_witness :
  healthCheckRetries
    (deployment (config (fst (deployServices unreachable_without_retries
                                (at_deploy_phase (constructor unreachable_without_retries
                                                    (Some "staging"))))))) <= 0
  /\ snd (runHealthChecks unreachable_without_retries
            (fst (deployServices unreachable_without_retries
                    (at_deploy_phase (constructor unreachable_without_retries
                                        (Some "staging")))))) = None
  /\ snd (deploy unreachable_without_retries
            (constructor unreachable_without_retries (Some "staging"))) = None.
Proof.
  assert (Hmax : healthCheckRetries
                   (deployment (config (fst (deployServices unreachable_without_retries
                      (at_deploy_phase (constructor unreachable_without_retries
                                          (Some "staging"))))))) <= 0)
    by (vm_compute; discriminate).
  split; [exact Hmax|]. split.
  - rewrite (no_attempt_configured_passes_every_service unreachable_without_retries _ Hmax).
    + reflexivity.
    + intros n Hn. vm_compute in Hn. destruct Hn as [<- | [<- | []]]; discriminate.
  - vm_compute. reflexivity.
Defined.

(** ** Commands whose outcome does not matter *)

Section TwoWorlds.

Variables w1 w2 : World.
Variable env : string.
Hypothesis same : same_apart_from_commands w1 w2.
Hypothesis decisive :
  forall c, decisive_command env c = true -> execSync_outcome w1 c = execSync_outcome w2 c.

Lemma deployService_same serviceName o :
  environment o = env -> deployService w1 serviceName o = deployService w2 serviceName o.
Proof.
  intros He. unfold deployService, deployBackend, deployFrontend,
    deployBackendToProduction, deployFrontendToProduction, execSync, is_production.
  destruct (String.eqb serviceName "backend").
  - rewrite (decisive "cd backend && npm ci --production" eq_refl).
    destruct (execSync_outcome w2 "cd backend && npm ci --production"); [reflexivity|].
    cbn [emit environment fst]. rewrite He.
    destruct (String.eqb env "production") eqn:Hp.
    + rewrite (decisive "cd backend && npm test");
        [|unfold decisive_command; rewrite Hp; reflexivity].
      reflexivity.
    + destruct (execSync_outcome w1 "cd backend && npm test");
        destruct (execSync_outcome w2 "cd backend && npm test"); reflexivity.
  - destruct (String.eqb serviceName "frontend"); [|reflexivity].
    rewrite (decisive "cd frontend && npm ci" eq_refl).
    destruct (execSync_outcome w2 "cd frontend && npm ci"); [reflexivity|].
    rewrite (decisive "cd frontend && npm run build" eq_refl).
    reflexivity.
Qed.

Lemma deployServices_loop_same entries : forall o,
  environment o = env -> deployServices_loop w1 entries o = deployServices_loop w2 entries o.
Proof.
  destruct same as (_ & _ & _ & _ & Hversion & Hclock & _).
  induction entries as [|[serviceName serviceConfig] rest IH]; intros o He;
    cbn [deployServices_loop]; [reflexivity|].
  destruct (negb (enabled serviceConfig)); [apply IH; exact He|].
  rewrite (deployService_same serviceName (emit (EvDeployingService serviceName) o) He).
  pose proof (deployService_frame w2 serviceName (emit (EvDeployingService serviceName) o))
    as (He1 & _).
  destruct (deployService w2 serviceName _) as [o1 [msg|]]; cbn [fst] in He1.
  - rewrite Hclock. reflexivity.
  - rewrite Hclock, Hversion. apply IH. cbn [update environment]. rewrite He1. exact He.
Qed.

Lemma healthCheckService_same serviceName attempt :
  healthCheckService w1 serviceName attempt = healthCheckService w2 serviceName attempt.
Proof.
  destruct same as (_ & _ & _ & _ & _ & _ & Hreply).
  unfold healthCheckService. rewrite Hreply. reflexivity.
Qed.

Lemma healthCheck_attempts_same fuel serviceName maxAttempts : forall attempts o,
  healthCheck_attempts fuel w1 serviceName attempts maxAttempts o
  = healthCheck_attempts fuel w2 serviceName attempts maxAttempts o.
Proof.
  induction fuel as [|fuel IH]; intros attempts o; cbn [healthCheck_attempts]; [reflexivity|].
  rewrite healthCheckService_same.
  destruct (attempts <? maxAttempts); [|reflexivity].
  destruct (healthCheckService w2 serviceName (attempts + 1)); [|reflexivity].
  destruct (attempts + 1 =? maxAttempts); [reflexivity|]. apply IH.
Qed.

Lemma runHealthChecks_loop_same names : forall o,
  runHealthChecks_loop w1 names o = runHealthChecks_loop w2 names o.
Proof.
  induction names as [|n names IH]; intros o; cbn [runHealthChecks_loop]; [reflexivity|].
  destruct (service_config (config o) n) as [sc|]; [|reflexivity].
  destruct (negb (enabled sc)); [apply IH|].
  rewrite healthCheck_attempts_same.
  destruct (healthCheck_attempts _ w2 _ _ _ _) as [o1 [msg|]]; [reflexivity | apply IH].
Qed.

Lemma run_step_same s o : environment o = env -> run_step w1 s o = run_step w2 s o.
Proof.
  intros He. destruct same as (_ & Hv & Hp & Hs & _).
  destruct s; cbn [run_step]; try congruence.
  - unfold deployServices. apply deployServices_loop_same. exact He.
  - unfold runHealthChecks. apply runHealthChecks_loop_same.
Qed.

Lemma deploy_loop_same todo : forall i o,
  environment o = env -> deploy_loop w1 i todo o = deploy_loop w2 i todo o.
Proof.
  induction todo as [|s rest IH]; intros i o He; cbn [deploy_loop]; [reflexivity|].
  rewrite (run_step_same s (update (set_currentStep (i + 1)) o) He).
  pose proof (run_step_frame w2 s (update (set_currentStep (i + 1)) o)) as (He1 & _).
  destruct (run_step w2 s _) as [o1 [msg|]]; cbn [fst] in He1; [reflexivity|].
  apply IH. rewrite He1. exact He.
Qed.

Lemma deploy_same o : environment o = env -> deploy w1 o = deploy w2 o.
Proof.
  intros He. unfold deploy. rewrite deploy_loop_same; [reflexivity | exact He].
Qed.

End TwoWorlds.

(** X20. Of the commands of the deploy phase, a run looks at the outcome
    only of those that install and build (and, in production, of the backend
    tests).  Two runs in worlds that agree on those commands and on
    everything else are identical: same result, same recorded services, same
    sequence of commands, waits, rollbacks and records.  In particular a
    failed publish command ([railway up], [netlify deploy]) leaves the
    service recorded as deployed, and failed backend tests do not stop a
    staging deployment. *)
Theorem only_decisive_commands_matter w1 w2 env :
  same_apart_from_commands w1 w2 ->
  (forall c, decisive_command (environment (constructor w1 env)) c = true ->
             execSync_outcome w1 c = execSync_outcome w2 c) ->
  deploy w1 (constructor w1 env) = deploy w2 (constructor w2 env).
Proof.
  intros Hsame Hdec.
  assert (Hc : constructor w2 env = constructor w1 env).
  { unfold constructor. destruct Hsame as (-> & _). reflexivity. }
  rewrite Hc. apply (deploy_same w1 w2 (environment (constructor w1 env)) Hsame Hdec).
  reflexivity.
Qed.

Lemma only_decisive_commands_witness :
  deploy calm (constructor calm (Some "production"))
  = deploy publish_fails (constructor publish_fails (Some "production"))
  /\ execSync_outcome publish_fails "cd backend && railway up"
     = Some "Command failed: cd backend && railway up".
Proof.
  split; [|reflexivity].
  apply only_decisive_commands_matter.
  - repeat split; reflexivity.
  - intros c Hc. cbn [constructor environment String.eqb] in Hc.
    unfold decisive_command in Hc. cbn [calm publish_fails execSync_outcome].
    apply orb_prop in Hc as [Hc | Hc].
    + apply includes_In in Hc. simpl in Hc.
      destruct Hc as [<- | [<- | [<- | []]]]; reflexivity.
    + apply andb_prop in Hc as [_ Hc]. apply String.eqb_eq in Hc. subst c. reflexivity.
Defined.

(** ** The configuration file *)

(** X21. [loadConfig] falls back to the default configuration when the
    file is absent.  When the file exists but cannot be read or parsed, the
    constructor does not fall back: [loadConfig] logs its warning while
    [this.logs] is still unassigned, and the constructor throws the
    [TypeError] of [this.logs.push].  On an orchestrator already built the
    same call returns the defaults. *)
Theorem unreadable_config_file_is_fatal_in_the_constructor env :
  (forall msg,
     new_orchestrator (Unreadable msg) env
     = inr "Cannot read properties of undefined (reading 'push')")
  /\ (forall msg logs, loadConfig (Some logs) (Unreadable msg) = inl default_config)
  /\ (forall w,
        new_orchestrator
          (match loaded_config w with Some c => Parsed c | None => NoFile end) env
        = inl (constructor w env)).
Proof.
  split; [|split].
  - intros msg. reflexivity.
  - intros msg logs. reflexivity.
  - intros w. unfold new_orchestrator, constructor.
    destruct (loaded_config w); reflexivity.
Qed.

(** ** Environment validation *)

Lemma and_then_snd a b :
  snd (and_then a b) = match snd a with Some e => Some e | None => snd b end.
Proof. destruct a as [evs [e|]]; reflexivity. Qed.

Lemma and_then_fst a b :
  fst (and_then a b) = match snd a with Some _ => fst a | None => fst a ++ fst b end.
Proof. destruct a as [evs [e|]]; reflexivity. Qed.

Lemma check_tools_spec s tools :
  (snd (check_tools s tools) = None
   <-> forall tool, In tool tools -> run_command s (tool +++ " --version") = None)
  /\ (forall p, In p (fst (check_tools s tools)) ->
                exists tool, In tool tools /\ p = PrExec (tool +++ " --version")).
Proof.
  induction tools as [|tool rest [IHs IHp]]; cbn [check_tools].
  - split; [split; [intros _ tool [] | reflexivity] | intros p []].
  - destruct (run_command s (tool +++ " --version")) as [e|] eqn:E.
    + split.
      * split; [discriminate|]. intros H. rewrite (H tool (or_introl eq_refl)) in E.
        discriminate.
      * intros p [<- | []]. exists tool. split; [left|]; reflexivity.
    + rewrite and_then_snd, and_then_fst. cbn [fst snd]. split.
      * rewrite IHs. split.
        -- intros H t [<- | Ht]; [exact E | apply H; exact Ht].
        -- intros H t Ht. apply H. right. exact Ht.
      * intros p [<- | Hp].
        -- exists tool. split; [left|]; reflexivity.
        -- destruct (IHp p Hp) as (t & Ht & ->). exists t. split; [right; exact Ht | reflexivity].
Qed.

Lemma check_files_spec s files :
  (snd (check_files s files) = None
   <-> forall file, In file files -> existsSync s file = true)
  /\ (forall p, In p (fst (check_files s files)) -> exists file, p = PrExists file).
Proof.
  induction files as [|file rest [IHs IHp]]; cbn [check_files].
  - split; [split; [intros _ file [] | reflexivity] | intros p []].
  - destruct (existsSync s file) eqn:E.
    + rewrite and_then_snd, and_then_fst. cbn [fst snd]. split.
      * rewrite IHs. split.
        -- intros H f [<- | Hf]; [exact E | apply H; exact Hf].
        -- intros H f Hf. apply H. right. exact Hf.
      * intros p [<- | Hp]; [exists file; reflexivity | apply IHp; exact Hp].
    + split.
      * split; [discriminate|]. intros H. rewrite (H file (or_introl eq_refl)) in E.
        discriminate.
      * intros p [<- | []]. exists file. reflexivity.
Qed.

(** X22. Environment validation passes exactly when [node], [npm] and
    [git] answer [--version] and the three [package.json] files exist.  The
    state of the git working tree never fails it: [git status] is run only
    once everything else has passed, and its outcome is not looked at.  The
    tools are checked before the files. *)
Theorem validation_needs_the_tools_and_the_files s :
  let r := validateEnvironment s in
  (snd r = None
   <-> (forall tool, In tool requiredTools -> run_command s (tool +++ " --version") = None)
       /\ (forall file, In file requiredFiles -> existsSync s file = true))
  /\ (In (PrExec "git status --porcelain") (fst r) <-> snd r = None)
  /\ (snd (check_tools s requiredTools) <> None ->
      snd r = snd (check_tools s requiredTools)
      /\ forall file, ~ In (PrExists file) (fst r)).
Proof.
  cbv zeta. unfold validateEnvironment.
  destruct (check_tools_spec s requiredTools) as [Ht Htp].
  destruct (check_files_spec s requiredFiles) as [Hf Hfp].
  repeat first [rewrite and_then_snd | rewrite and_then_fst]. cbn [fst snd].
  split; [|split].
  - rewrite <- Ht, <- Hf.
    destruct (snd (check_tools s requiredTools)); [split; [discriminate | intros [H _]; discriminate]|].
    destruct (snd (check_files s requiredFiles)); [split; [discriminate | intros [_ H]; discriminate]|].
    tauto.
  - assert (Hnot_tool : ~ In (PrExec "git status --porcelain") (fst (check_tools s requiredTools))).
    { intros Hin. destruct (Htp _ Hin) as (tool & Htool & Heq).
      simpl in Htool. destruct Htool as [<- | [<- | [<- | []]]]; discriminate. }
    assert (Hnot_file : ~ In (PrExec "git status --porcelain") (fst (check_files s requiredFiles))).
    { intros Hin. destruct (Hfp _ Hin) as (file & Heq). discriminate. }
    destruct (snd (check_tools s requiredTools)); [split; [tauto | discriminate]|].
    destruct (snd (check_files s requiredFiles)).
    + split; [|discriminate]. intros Hin. apply in_app_or in Hin. tauto.
    + split; [reflexivity|]. intros _. apply in_or_app. right. apply in_or_app. right.
      left. reflexivity.
  - intros Hfail. destruct (snd (check_tools s requiredTools)) as [e|]; [|congruence].
    split; [reflexivity|]. intros file Hin. destruct (Htp _ Hin) as (tool & _ & Heq).
    discriminate.
Qed.

(** ** Pre-deployment checks *)

Lemma first_problematic_spec allDeps packages :
  match first_problematic allDeps packages with
  | None => forall pkg, In pkg packages -> ~ In pkg allDeps
  | Some msg =>
      exists pkg, In pkg packages /\ In pkg allDeps
                  /\ msg = "Problematic package detected: " +++ pkg
  end.
Proof.
  induction packages as [|pkg rest IH]; cbn [first_problematic]; [intros pkg []|].
  destruct (includes allDeps pkg) eqn:E.
  - exists pkg. split; [left; reflexivity|]. split; [apply includes_In; exact E | reflexivity].
  - destruct (first_problematic allDeps rest) as [msg|].
    + destruct IH as (p & Hp & Hin & ->). exists p. split; [right; exact Hp|]. auto.
    + intros p [<- | Hp]; [|apply IH; exact Hp].
      intros Hin. apply includes_In in Hin. congruence.
Qed.

Lemma runSecurityAudit_spec s production :
  snd (runSecurityAudit s production) = None
  <-> (production = true ->
       run_command s "cd backend && npm audit --audit-level=high" = None
       /\ run_command s "cd frontend && npm audit --audit-level=high" = None).
Proof.
  unfold runSecurityAudit.
  destruct (run_command s "cd backend && npm audit --audit-level=high");
    [|destruct (run_command s "cd frontend && npm audit --audit-level=high")];
    destruct production; cbn [snd]; split; try reflexivity; try discriminate;
    try (intros H; destruct (H eq_refl); discriminate); auto.
Qed.

Lemma analyzeDependencies_spec s :
  snd (analyzeDependencies s) = None
  <-> exists backend frontend,
        read_package s "backend/package.json" = Dependencies backend
        /\ read_package s "frontend/package.json" = Dependencies frontend
        /\ forall pkg, In pkg problematicPackages -> ~ In pkg (backend ++ frontend).
Proof.
  unfold analyzeDependencies.
  destruct (read_package s "backend/package.json") as [msg|backend];
    [split; [discriminate | intros (b & f & H & _); discriminate]|].
  destruct (read_package s "frontend/package.json") as [msg|frontend];
    [split; [discriminate | intros (b & f & _ & H & _); discriminate]|].
  cbn [snd].
  pose proof (first_problematic_spec (backend ++ frontend) problematicPackages) as H.
  destruct (first_problematic (backend ++ frontend) problematicPackages) as [msg|].
  - split; [discriminate|]. intros (b & f & Hb & Hf & Hclean).
    injection Hb as <-. injection Hf as <-.
    destruct H as (pkg & Hpkg & Hin & _). exfalso. exact (Hclean pkg Hpkg Hin).
  - split; [|reflexivity]. intros _. exists backend, frontend. auto.
Qed.

Lemma performance_requests_spec s :
  (snd (performance_requests s) = None
   <-> (exists code, fetch s "http://localhost:3001/health" = Responds true code)
       /\ (exists oks,
             fetch_all s "http://localhost:3001/api/quests?api_key=demo_key_12345"
             = AllResolved oks
             /\ forallb (fun ok => ok) oks = true))
  /\ forallb (fun p => negb (is_spawn p) && negb (is_kill p)) (fst (performance_requests s))
     = true.
Proof.
  unfold performance_requests.
  destruct (fetch s "http://localhost:3001/health") as [msg|[|] code]; cbn [fst snd].
  - split; [|reflexivity]. split; [discriminate | intros [(c & H) _]; discriminate].
  - split; [|reflexivity].
    destruct (fetch_all s _) as [msg|oks].
    + split; [discriminate | intros [_ (o & H & _)]; discriminate].
    + destruct (forallb (fun ok => ok) oks) eqn:E.
      * split; [|reflexivity]. intros _. split; [exists code; reflexivity|].
        exists oks. auto.
      * split; [discriminate|]. intros [_ (o & H & Ho)]. injection H as <-. congruence.
  - split; [|reflexivity]. split; [discriminate | intros [(c & H) _]; discriminate].
Qed.

Lemma count_app {A} (f : A -> bool) l1 l2 :
  Js.len (filter f (l1 ++ l2)) = Js.len (filter f l1) + Js.len (filter f l2).
Proof. unfold Js.len. rewrite filter_app, length_app. lia. Qed.

Lemma count_none {A} (f g : A -> bool) l :
  forallb g l = true -> (forall x, g x = true -> f x = false) -> filter f l = [].
Proof.
  intros Hall Hfg. induction l as [|x l IH]; [reflexivity|].
  cbn [forallb] in Hall. apply andb_prop in Hall as [Hx Hl].
  cbn [filter]. rewrite (Hfg x Hx). apply IH. exact Hl.
Qed.

(** X23. The pre-deployment checks pass exactly when: the two security
    audits pass or the environment is not production; both [package.json]
    files parse and neither lists [left-pad] or [event-stream] among its
    dependencies; the test server answers the health request with an OK
    status and all concurrent requests come back OK.  The test server is
    started only when the audit and the dependency analysis have let the
    run through, and whatever the requests answer it is killed, as the last
    action of the checks. *)
Theorem pre_deployment_checks_pass_iff s production :
  let r := runPreDeploymentChecks s production in
  (snd r = None
   <-> (production = true ->
        run_command s "cd backend && npm audit --audit-level=high" = None
        /\ run_command s "cd frontend && npm audit --audit-level=high" = None)
       /\ (exists backend frontend,
             read_package s "backend/package.json" = Dependencies backend
             /\ read_package s "frontend/package.json" = Dependencies frontend
             /\ forall pkg, In pkg problematicPackages -> ~ In pkg (backend ++ frontend))
       /\ (exists code, fetch s "http://localhost:3001/health" = Responds true code)
       /\ (exists oks,
             fetch_all s "http://localhost:3001/api/quests?api_key=demo_key_12345"
             = AllResolved oks
             /\ forallb (fun ok => ok) oks = true))
  /\ Js.len (filter is_spawn (fst r)) = Js.len (filter is_kill (fst r))
  /\ (forall script, In (PrSpawn script) (fst r) ->
        snd (runSecurityAudit s production) = None
        /\ snd (analyzeDependencies s) = None
        /\ exists before, fst r = before ++ [PrKill]).
Proof.
  cbv zeta. unfold runPreDeploymentChecks.
  pose proof (runSecurityAudit_spec s production) as Haudit.
  pose proof (analyzeDependencies_spec s) as Hdeps.
  destruct (performance_requests_spec s) as [Hperf Hplain].
  assert (Haudit_ev : filter is_spawn (fst (runSecurityAudit s production)) = []
                      /\ filter is_kill (fst (runSecurityAudit s production)) = []
                      /\ forall script,
                           ~ In (PrSpawn script) (fst (runSecurityAudit s production))).
  { unfold runSecurityAudit.
    destruct (run_command s "cd backend && npm audit --audit-level=high"); cbn [fst];
      (split; [reflexivity|]; split; [reflexivity|]; intros script Hin; simpl in Hin;
       intuition discriminate). }
  assert (Hdeps_ev : filter is_spawn (fst (analyzeDependencies s)) = []
                     /\ filter is_kill (fst (analyzeDependencies s)) = []
                     /\ forall script, ~ In (PrSpawn script) (fst (analyzeDependencies s))).
  { unfold analyzeDependencies.
    destruct (read_package s "backend/package.json");
      [|destruct (read_package s "frontend/package.json")]; cbn [fst];
      (split; [reflexivity|]; split; [reflexivity|]; intros script Hin; simpl in Hin;
       intuition discriminate). }
  destruct Haudit_ev as (Ha1 & Ha2 & Ha3). destruct Hdeps_ev as (Hd1 & Hd2 & Hd3).
  assert (Hperf_ev : Js.len (filter is_spawn (fst (runPerformanceTests s))) = 1
                     /\ Js.len (filter is_kill (fst (runPerformanceTests s))) = 1).
  { unfold runPerformanceTests. cbn [fst filter is_spawn is_kill].
    rewrite !filter_app. cbn [filter is_spawn is_kill].
    rewrite (count_none is_spawn _ _ Hplain), (count_none is_kill _ _ Hplain).
    - split; reflexivity.
    - intros x Hx. apply andb_prop in Hx as [_ Hx]. destruct (is_kill x); [discriminate|reflexivity].
    - intros x Hx. apply andb_prop in Hx as [Hx _]. destruct (is_spawn x); [discriminate|reflexivity]. }
  repeat first [rewrite and_then_snd | rewrite and_then_fst].
  change (snd (runPerformanceTests s)) with (snd (performance_requests s)).
  cbn [runDatabaseMigrations fst snd].
  split; [|split].
  - rewrite <- Haudit, <- Hdeps, <- Hperf.
    destruct (snd (runSecurityAudit s production));
      [split; [discriminate | intros (H & _); discriminate]|].
    destruct (snd (analyzeDependencies s));
      [split; [discriminate | intros (_ & H & _); discriminate]|].
    destruct (snd (performance_requests s));
      [split; [discriminate | intros (_ & _ & H); discriminate]|].
    tauto.
  - destruct (snd (runSecurityAudit s production)); [rewrite Ha1, Ha2; reflexivity|].
    rewrite !count_app, Ha1, Ha2.
    destruct (snd (analyzeDependencies s)); [rewrite Hd1, Hd2; reflexivity|].
    rewrite !count_app, Hd1, Hd2.
    destruct Hperf_ev as [Hs Hk].
    destruct (snd (performance_requests s)); [rewrite Hs, Hk; reflexivity|].
    rewrite !count_app, Hs, Hk. reflexivity.
  - intros script Hin.
    destruct (snd (runSecurityAudit s production)); [exfalso; exact (Ha3 _ Hin)|].
    split; [reflexivity|].
    apply in_app_or in Hin as [Hin | Hin]; [exfalso; exact (Ha3 _ Hin)|].
    destruct (snd (analyzeDependencies s)); [exfalso; exact (Hd3 _ Hin)|].
    split; [reflexivity|].
    unfold runPerformanceTests. cbn [fst].
    destruct (snd (performance_requests s)).
    + eexists. rewrite !app_comm_cons, !app_assoc. reflexivity.
    + rewrite app_nil_r. eexists. rewrite !app_comm_cons, !app_assoc. reflexivity.
Qed.

Lemma pre_deployment_witness :
  snd (runPreDeploymentChecks sound_site true) = None
  /\ snd (runPreDeploymentChecks tainted_site true)
     = Some "Security vulnerabilities found - cannot deploy to production"
  /\ snd (runPreDeploymentChecks tainted_site false)
     = Some "Problematic package detected: event-stream".
Proof.
  split; [|split; reflexivity].
  apply (proj1 (pre_deployment_checks_pass_iff sound_site true)).
  split; [intros _; split; reflexivity|].
  split; [exists ["express"; "cors"], ["react"]; split; [reflexivity|split; [reflexivity|]]|].
  - intros pkg Hpkg Hin. simpl in Hpkg, Hin.
    destruct Hpkg as [<- | [<- | []]]; intuition discriminate.
  - split; [exists 200; reflexivity|]. exists (repeat true 10). split; reflexivity.
Defined.

(** X24. A dependency on [left-pad] or [event-stream] stops every run that
    gets as far as the dependency analysis (validation passed; audits
    passed, or the environment is not production): [deploy] throws
    "Problematic package detected: <package>" for such a package, having
    started no test server, executed no deployment command and recorded no
    service; all it leaves is the failure record. *)
Theorem denylisted_dependency_stops_the_run s w env backend frontend pkg :
  let production := is_production (constructor w env) in
  let run := deploy (observed s env w) (constructor (observed s env w) env) in
  snd (validateEnvironment s) = None ->
  snd (runSecurityAudit s production) = None ->
  read_package s "backend/package.json" = Dependencies backend ->
  read_package s "frontend/package.json" = Dependencies frontend ->
  In pkg problematicPackages ->
  In pkg (backend ++ frontend) ->
  exists found,
    In found problematicPackages
    /\ In found (backend ++ frontend)
    /\ snd run = Some ("Problematic package detected: " +++ found)
    /\ trace (fst run) = [EvFailureRecord ("Problematic package detected: " +++ found) []]
    /\ forall script, ~ In (PrSpawn script) (fst (runPreDeploymentChecks s production)).
Proof.
  cbv zeta. intros Hvalid Haudit Hb Hf Hpkg Hin.
  pose proof (first_problematic_spec (backend ++ frontend) problematicPackages) as Hfirst.
  destruct (first_problematic (backend ++ frontend) problematicPackages) as [msg|] eqn:E;
    [|exfalso; exact (Hfirst pkg Hpkg Hin)].
  destruct Hfirst as (found & Hfound & Hfin & ->).
  assert (Hdeps : snd (analyzeDependencies s)
                  = Some ("Problematic package detected: " +++ found)).
  { unfold analyzeDependencies. rewrite Hb, Hf. exact E. }
  assert (Hchecks : snd (runPreDeploymentChecks s (is_production (constructor w env)))
                    = Some ("Problematic package detected: " +++ found)).
  { unfold runPreDeploymentChecks.
    repeat first [rewrite and_then_snd | rewrite and_then_fst].
    rewrite Haudit, Hdeps. reflexivity. }
  exists found. split; [exact Hfound|]. split; [exact Hfin|].
  pose proof (run_by_deploy_phase (observed s env w) (constructor (observed s env w) env))
    as Hrun.
  cbv zeta in Hrun.
  assert (Hv : validateEnvironment_outcome (observed s env w) = None) by exact Hvalid.
  assert (Hp : runPreDeploymentChecks_outcome (observed s env w)
               = Some ("Problematic package detected: " +++ found)) by exact Hchecks.
  rewrite Hv, Hp in Hrun. rewrite Hrun.
  split; [reflexivity|]. split; [reflexivity|].
  intros script Hspawn.
  destruct (pre_deployment_checks_pass_iff s (is_production (constructor w env)))
    as (_ & _ & Hserver).
  destruct (Hserver script Hspawn) as (_ & Hclean & _). congruence.
Qed.

Lemma denylisted_dependency_witness :
  snd (deploy (observed tainted_site (Some "staging") calm)
              (constructor (observed tainted_site (Some "staging") calm) (Some "staging")))
  = Some "Problematic package detected: event-stream".
Proof.
  destruct (denylisted_dependency_stops_the_run tainted_site calm (Some "staging")
              ["express"; "cors"] ["react"; "event-stream"] "event-stream")
    as (found & Hfound & Hfin & Hthrown & _).
  - reflexivity.
  - reflexivity.
  - reflexivity.
  - reflexivity.
  - simpl. tauto.
  - simpl. tauto.
  - rewrite Hthrown. simpl in Hfound, Hfin.
    destruct Hfound as [<- | [<- | []]]; [|reflexivity].
    exfalso. intuition discriminate.
Defined.

(** ** Smoke tests *)

(** Two endpoints and the frontend, requested in this order. *)
Lemma smoke_sequence s u1 u2 u3 :
  let r := and_then (smoke_endpoints s [u1; u2]) (smoke_frontend s u3) in
  fst r = List.map PrFetch (until_first_failure s [u1; u2; u3])
  /\ (snd r = None <-> forall url, In url [u1; u2; u3] -> answers_ok s url = true)
  /\ (forall before url after,
        [u1; u2; u3] = before ++ url :: after ->
        (forall u, In u before -> answers_ok s u = true) ->
        answers_ok s url = false ->
        snd r = Some (match after with
                      | [] => "Frontend smoke test failed: " +++ refusal s "Frontend" url
                      | _ :: _ => "Smoke test failed for " +++ url +++ ": "
                                    +++ refusal s ("Endpoint " +++ url) url
                      end)).
Proof.
  cbv zeta. unfold smoke_frontend. cbn [smoke_endpoints until_first_failure].
  assert (Hall : forall (P : string -> Prop),
            (forall url, In url [u1; u2; u3] -> P url) <-> P u1 /\ P u2 /\ P u3).
  { intros P. split.
    - intros H. repeat split; apply H; simpl; tauto.
    - intros (Ha & Hb & Hc) url [<- | [<- | [<- | []]]]; assumption. }
  rewrite Hall. unfold answers_ok, refusal.
  split; [|split].
  - destruct (fetch s u1) as [m1|[|] c1]; try reflexivity.
    destruct (fetch s u2) as [m2|[|] c2]; try reflexivity.
    destruct (fetch s u3) as [m3|[|] c3]; reflexivity.
  - destruct (fetch s u1) as [m1|[|] c1];
      try (split; [discriminate | intros (H & _); discriminate]).
    destruct (fetch s u2) as [m2|[|] c2];
      try (split; [discriminate | intros (_ & H & _); discriminate]).
    destruct (fetch s u3) as [m3|[|] c3];
      try (split; [discriminate | intros (_ & _ & H); discriminate]).
    split; [intros _; auto | reflexivity].
  - intros before url after Hurls Hbefore Hurl.
    destruct before as [|b1 [|b2 [|b3 before]]]; cbn [app] in Hurls.
    + injection Hurls as <- <-.
      destruct (fetch s u1) as [m1|[|] c1]; [reflexivity | discriminate | reflexivity].
    + injection Hurls as <- <- <-.
      pose proof (Hbefore u1 (or_introl eq_refl)) as H1.
      destruct (fetch s u1) as [m1|[|] c1]; try discriminate.
      destruct (fetch s u2) as [m2|[|] c2]; [reflexivity | discriminate | reflexivity].
    + injection Hurls as <- <- <- <-.
      pose proof (Hbefore u1 (or_introl eq_refl)) as H1.
      pose proof (Hbefore u2 (or_intror (or_introl eq_refl))) as H2.
      destruct (fetch s u1) as [m1|[|] c1]; try discriminate.
      destruct (fetch s u2) as [m2|[|] c2]; try discriminate.
      destruct (fetch s u3) as [m3|[|] c3]; [reflexivity | discriminate | reflexivity].
    + exfalso. destruct before; discriminate.
Qed.

(** X25. In the two environments that the command line accepts, the smoke
    tests never look at the configured ports: they request, in this order,
    [/api/status] and [/api/quests?api_key=demo_key_12345] of the hosted
    backend of the environment, then the hosted frontend.  They stop at the
    first request that does not answer with an OK status: the requests made
    are exactly those up to and including it, and the error thrown names it
    ("Smoke test failed for <endpoint>: ..." for an endpoint of the backend,
    "Frontend smoke test failed: ..." for the frontend).  They pass exactly
    when all three answer with an OK status. *)
Theorem smoke_tests_probe_the_hosted_services s o :
  let staging := String.eqb (environment o) "staging" in
  let backendUrl :=
    if staging then "https://quest-api-staging.railway.app"
    else "https://quest-api.railway.app" in
  let frontendUrl :=
    if staging then "https://quest-frontend-staging.netlify.app"
    else "https://quest-frontend.netlify.app" in
  let urls := criticalEndpoints backendUrl ++ [frontendUrl] in
  let r := runSmokeTests s o in
  In (environment o) validEnvironments ->
  fst r = List.map PrFetch (until_first_failure s urls)
  /\ (snd r = None <-> forall url, In url urls -> answers_ok s url = true)
  /\ (forall before url after,
        urls = before ++ url :: after ->
        (forall u, In u before -> answers_ok s u = true) ->
        answers_ok s url = false ->
        snd r = Some (match after with
                      | [] => "Frontend smoke test failed: " +++ refusal s "Frontend" url
                      | _ :: _ => "Smoke test failed for " +++ url +++ ": "
                                    +++ refusal s ("Endpoint " +++ url) url
                      end)).
Proof.
  cbv zeta. intros Hin. unfold runSmokeTests, getServiceUrl.
  destruct Hin as [<- | [<- | []]]; cbn [hosted_url String.eqb Ascii.eqb Bool.eqb];
    unfold criticalEndpoints; cbn [app]; apply smoke_sequence.
Qed.

Lemma smoke_tests_witness :
  In (environment (constructor calm (Some "staging"))) validEnvironments
  /\ fst (runSmokeTests rough_site (constructor calm (Some "staging")))
     = [PrFetch "https://quest-api-staging.railway.app/api/status";
        PrFetch "https://quest-api-staging.railway.app/api/quests?api_key=demo_key_12345"]
  /\ snd (runSmokeTests rough_site (constructor calm (Some "staging"))) <> None.
Proof.
  assert (Hin : In (environment (constructor calm (Some "staging"))) validEnvironments)
    by (left; reflexivity).
  split; [exact Hin|].
  destruct (smoke_tests_probe_the_hosted_services rough_site
              (constructor calm (Some "staging")) Hin) as (Hprobes & Hpass & _).
  split.
  - rewrite Hprobes. vm_compute. reflexivity.
  - intros Hnone. pose proof (proj1 Hpass Hnone) as Hall.
    specialize (Hall "https://quest-api-staging.railway.app/api/quests?api_key=demo_key_12345"
                     (or_intror (or_introl eq_refl))).
    vm_compute in Hall. discriminate.
Defined.

(** ** Notifications *)

Lemma deploy_returns_iff_six_steps_pass w o0 :
  snd (deploy w o0) = None <-> snd (deploy_loop w 0 first_six (started o0)) = None.
Proof.
  pose proof (deploy_outcome w o0) as Hd.
  change steps with (first_six ++ [RunPostDeploymentTasks]) in Hd.
  rewrite deploy_loop_app in Hd.
  destruct (deploy_loop w 0 first_six (started o0)) as [o6 [[j msg]|]]; cbn [snd].
  - rewrite Hd. split; discriminate.
  - cbn [deploy_loop run_step] in Hd. rewrite Hd. split; reflexivity.
Qed.

(** X27. Notifications are sent by the seventh step only, before it writes
    the deployment record: the Slack notification is sent exactly when the
    first six steps, from environment validation to traffic routing, have
    all returned and [notifications.slack] is set, the webhook notification
    exactly when they have and [notifications.webhook] is set.  A run in
    which one of the first six steps throws notifies nobody, whatever the
    configuration.  Once the six steps have returned, the notifications are
    sent together, with none before and none after them; when [deploy]
    returns, the deployment record is all that follows them. *)
Theorem notifications_only_after_six_steps w env :
  let o0 := constructor w env in
  let final := fst (deploy w o0) in
  let cfg := config o0 in
  let passed := snd (deploy_loop w 0 first_six (started o0)) = None in
  (In EvSlackNotification (trace final) <-> passed /\ slack (notifications cfg) = true)
  /\ (In EvWebhookNotification (trace final)
      <-> passed /\ webhook (notifications cfg) = true)
  /\ (passed ->
      exists evs rest,
        trace final = evs ++ notification_events cfg ++ rest
        /\ ~ In EvSlackNotification evs /\ ~ In EvWebhookNotification evs
        /\ ~ In EvSlackNotification rest /\ ~ In EvWebhookNotification rest
        /\ (snd (deploy w o0) = None ->
            rest = [EvDeploymentRecord (services (deploymentState final))])).
Proof.
  cbv zeta. set (o0 := constructor w env).
  pose proof (deploy_returns_iff_six_steps_pass w o0) as Hiff.
  destruct (run_trace
              (fun e => match e with
                        | EvSlackNotification | EvWebhookNotification => false
                        | _ => true
                        end) w o0)
    as (_ & _ & evs & Hok & Hres); try (intros; reflexivity).
  rewrite forallb_forall in Hok.
  assert (Hslack : ~ In EvSlackNotification evs)
    by (intros Hin; specialize (Hok _ Hin); discriminate).
  assert (Hwebhook : ~ In EvWebhookNotification evs)
    by (intros Hin; specialize (Hok _ Hin); discriminate).
  destruct (snd (deploy w o0)) as [msg|].
  - assert (Hnot : ~ snd (deploy_loop w 0 first_six (started o0)) = None)
      by (intros Hp; apply Hiff in Hp; discriminate).
    destruct Hres as (j & Ht). rewrite Ht. cbn [o0 constructor trace app].
    assert (Hnone : forall e, (e = EvSlackNotification \/ e = EvWebhookNotification) ->
                              ~ In e (evs ++ rollback_events j
                                        (services (deploymentState (fst (deploy w o0))))
                                      ++ [EvFailureRecord msg
                                            (services (deploymentState (fst (deploy w o0))))])).
    { intros e He Hin. apply in_app_or in Hin as [Hin | Hin].
      - destruct He as [-> | ->]; tauto.
      - apply in_app_or in Hin as [Hin | [Hin | []]].
        + apply rollback_events_spec in Hin as (_ & [Hin | (n & Hin & _)]);
            destruct He as [-> | ->]; discriminate.
        + destruct He as [-> | ->]; discriminate. }
    split; [|split];
      [ split; [intros Hin; exfalso; eapply Hnone; [|exact Hin]; auto | tauto]
      | split; [intros Hin; exfalso; eapply Hnone; [|exact Hin]; auto | tauto]
      | tauto ].
  - assert (Hpassed : snd (deploy_loop w 0 first_six (started o0)) = None)
      by (apply Hiff; reflexivity).
    rewrite Hres. cbn [o0 constructor trace app]. fold o0.
    split; [|split].
    + unfold notification_events.
      split; [intros Hin; split; [exact Hpassed|] | intros [_ Hcfg]].
      * apply in_app_or in Hin as [Hin | Hin]; [tauto|].
        destruct (slack (notifications (config o0))); [reflexivity|].
        exfalso. destruct (webhook (notifications (config o0))); simpl in Hin;
          intuition discriminate.
      * rewrite Hcfg. apply in_or_app. right. left. reflexivity.
    + unfold notification_events.
      split; [intros Hin; split; [exact Hpassed|] | intros [_ Hcfg]].
      * apply in_app_or in Hin as [Hin | Hin]; [tauto|].
        destruct (webhook (notifications (config o0))); [reflexivity|].
        exfalso. destruct (slack (notifications (config o0))); simpl in Hin;
          intuition discriminate.
      * rewrite Hcfg. apply in_or_app. right.
        destruct (slack (notifications (config o0))); simpl; auto.
    + intros _.
      exists evs, [EvDeploymentRecord (services (deploymentState (fst (deploy w o0))))].
      repeat split; auto; intros [Hin | []]; discriminate.
Qed.

End OrchestratorFurther.
